(** * aiven-client: the table renderer and the user-config compiler

    A shallow embedding of the two pieces of aiven-client that carry logic
    of their own:

    - [aiven/client/pretty.py]: [format_item], [print_list], [print_table];
    - [aiven/client/cli.py]: [convert_str_to_value],
      [collect_user_config_options], [create_user_config];

    and of two commands built on them, [service_create] (up to the call of
    the client) and [service_terminate], with [get_project].

    Conventions of the embedding.

    - Python 3 semantics.  A [str] is a Rocq [string]; every character is
      read as a code point below 256.  [str.upper] is modelled on these
      code points, the sharp s becoming [SS]; the two characters whose
      capitals lie above 255 are left as they are.
    - Exceptions are values: a computation returns [Ok v] or [Raise e].
      [print] appends one line to the output; the lines printed before an
      exception are not tracked.
    - A [dict] is an association list in insertion order; [dict_set]
      overwrites in place or appends, as Python dictionaries do.
    - Floating-point numbers are kept as text (binary floating point is not
      modelled): for a rendered value the text is what [json.dumps] prints
      for the number, for a compiled option it is the literal that was
      parsed.  Integers are unbounded; the interpreter's optional limit on
      the length of a decimal literal is not modelled.
    - [str.format] with a computed width follows Python 3.10 and later, where
      a width of 0 means no padding. *)

From Stdlib Require Import String Ascii List ZArith Bool Arith Lia.
From Stdlib Require Import DecimalString Permutation Sorted.
Import ListNotations.

Set Warnings "-register-all".


Open Scope list_scope.
Open Scope string_scope.

(** ** Exceptions as values *)

Inductive exn : Type :=
| UserError (msg : string)
| KeyError (key : string)
| IndexError (msg : string)
| TypeError (msg : string)
| AttributeError (msg : string)
| ValueError (msg : string).

Inductive res (A : Type) : Type :=
| Ok (a : A)
| Raise (e : exn).

Arguments Ok {A} a.
Arguments Raise {A} e.

Definition bind {A B : Type} (c : res A) (k : A -> res B) : res B :=
  match c with
  | Ok a => k a
  | Raise e => Raise e
  end.

Notation "x <- c ;; k" := (bind c (fun x => k))
  (at level 61, c at next level, right associativity).
Notation "' p <- c ;; k" := (bind c (fun x => let p := x in k))
  (at level 61, p pattern, c at next level, right associativity).

Definition mapM {A B : Type} (f : A -> res B) : list A -> res (list B) :=
  fix go (l : list A) : res (list B) :=
    match l with
    | [] => Ok []
    | a :: l' => b <- f a ;; bs <- go l' ;; Ok (b :: bs)
    end.

Definition foldM {A S : Type} (f : S -> A -> res S) : list A -> S -> res S :=
  fix go (l : list A) (s : S) : res S :=
    match l with
    | [] => Ok s
    | a :: l' => s' <- f s a ;; go l' s'
    end.

Definition is_nil {A : Type} (l : list A) : bool :=
  match l with [] => true | _ :: _ => false end.

(** ** The Python runtime the two files rely on *)

Module Py.

(** *** Characters and strings *)

Definition dquote : ascii := "034"%char.
Definition squote : ascii := "039"%char.
Definition backslash : ascii := "092"%char.

Definition str1 (c : ascii) : string := String c EmptyString.

Definition is_empty (s : string) : bool :=
  match s with EmptyString => true | String _ _ => false end.

Definition code (c : ascii) : nat := nat_of_ascii c.

Definition in_range (lo hi : nat) (c : ascii) : bool :=
  ((lo <=? code c) && (code c <=? hi))%nat.

Definition is_digit (c : ascii) : bool := in_range 48 57 c.

(** [c in s] for a one-character [c]. *)
Fixpoint contains_char (c : ascii) (s : string) : bool :=
  match s with
  | EmptyString => false
  | String a s' => Ascii.eqb a c || contains_char c s'
  end.

(** [s.startswith(prefix)] *)
Fixpoint startswith (s prefix : string) {struct prefix} : bool :=
  match prefix, s with
  | EmptyString, _ => true
  | String p prefix', String c s' => Ascii.eqb c p && startswith s' prefix'
  | String _ _, EmptyString => false
  end.

(** [sub in s] for strings. *)
Fixpoint contains (sub s : string) : bool :=
  match s with
  | EmptyString => is_empty sub
  | String _ s' => startswith s sub || contains sub s'
  end.

(** [s.endswith(suffix)]: some tail of [s] is [suffix]. *)
Fixpoint endswith (s suffix : string) : bool :=
  match s with
  | EmptyString => is_empty suffix
  | String _ s' => String.eqb s suffix || endswith s' suffix
  end.

(** The text before the first [c], with the text after it when [c] occurs:
    [s.split(c, 1)] is [[before]] or [[before; after]]. *)
Fixpoint split1 (c : ascii) (s : string) : string * option string :=
  match s with
  | EmptyString => (EmptyString, None)
  | String a s' =>
      if Ascii.eqb a c then (EmptyString, Some s')
      else let '(before, after) := split1 c s' in (String a before, after)
  end.

(** [s.split(c)]: never empty. *)
Fixpoint split (c : ascii) (s : string) : list string :=
  match s with
  | EmptyString => [EmptyString]
  | String a s' =>
      if Ascii.eqb a c then EmptyString :: split c s'
      else match split c s' with
           | [] => [str1 a]
           | w :: ws => String a w :: ws
           end
  end.

(** [sep.join(parts)] *)
Definition join (sep : string) (parts : list string) : string :=
  String.concat sep parts.

Fixpoint repeat_char (c : ascii) (n : nat) : string :=
  match n with
  | O => EmptyString
  | S n' => String c (repeat_char c n')
  end.

(** [s.ljust(width)] *)
Definition ljust (s : string) (width : nat) : string :=
  s ++ repeat_char " " (width - String.length s).

Definition lower_char (c : ascii) : ascii :=
  if in_range 65 90 c then ascii_of_nat (code c + 32) else c.

Fixpoint map_chars (f : ascii -> ascii) (s : string) : string :=
  match s with
  | EmptyString => EmptyString
  | String a s' => String (f a) (map_chars f s')
  end.

Definition lower (s : string) : string := map_chars lower_char s.

Fixpoint concat_map (f : ascii -> string) (s : string) : string :=
  match s with
  | EmptyString => EmptyString
  | String a s' => f a ++ concat_map f s'
  end.

(** [c.upper()] for one character below 256.  The small letters of ASCII
    (97 to 122) and of Latin-1 (224 to 254 without the division sign 247)
    move to their capitals, 32 below; the sharp s (223) becomes the two
    letters [SS]; every other character stays.  The capitals of the micro
    sign (181) and of the y with diaeresis (255) lie above 255 and cannot be
    written here: these two characters are left as they are, one character
    long as their capitals are. *)
Definition upper_char (c : ascii) : string :=
  if in_range 97 122 c || in_range 224 246 c || in_range 248 254 c
  then str1 (ascii_of_nat (code c - 32))
  else if (code c =? 223)%nat then "SS"
  else str1 c.

(** [s.upper()] *)
Definition upper (s : string) : string := concat_map upper_char s.

Definition hex_digit (n : nat) : ascii :=
  if (n <? 10)%nat then ascii_of_nat (48 + n) else ascii_of_nat (87 + n).

(** Two lowercase hexadecimal digits of a code point below 256. *)
Definition hex2 (c : ascii) : string :=
  String (hex_digit (code c / 16)) (str1 (hex_digit (code c mod 16))).

(** [str(n)] for an [int] *)
Definition str_of_int (n : Z) : string :=
  NilZero.string_of_int (Z.to_int n).

(** *** Sorting strings, as [sorted] does on distinct keys *)

Fixpoint insert_sorted (k : string) (l : list string) : list string :=
  match l with
  | [] => [k]
  | x :: l' => if String.leb k x then k :: l else x :: insert_sorted k l'
  end.

Definition sorted (l : list string) : list string :=
  fold_right insert_sorted [] l.

(** The order [sorted] puts strings in: by code points. *)
Definition le_str (a b : string) : Prop := String.leb a b = true.
Definition lt_str (a b : string) : Prop := String.ltb a b = true.

Section ByKey.
Context {V : Type}.

Fixpoint insert_item (kv : string * V) (l : list (string * V))
  : list (string * V) :=
  match l with
  | [] => [kv]
  | x :: l' =>
      if String.leb (fst kv) (fst x) then kv :: l else x :: insert_item kv l'
  end.

(** [sorted(d.items())]: the keys of a dictionary differ, so the values
    are never compared. *)
Definition sorted_items (l : list (string * V)) : list (string * V) :=
  fold_right insert_item [] l.
End ByKey.

(** *** Dictionaries *)

Definition dict (V : Type) : Type := list (string * V).

Section Dict.
Context {V : Type}.

Fixpoint dict_get (d : dict V) (k : string) : option V :=
  match d with
  | [] => None
  | (k', v) :: d' => if String.eqb k' k then Some v else dict_get d' k
  end.

(** [d[k] = v] *)
Fixpoint dict_set (d : dict V) (k : string) (v : V) : dict V :=
  match d with
  | [] => [(k, v)]
  | (k', v') :: d' =>
      if String.eqb k' k then (k', v) :: d' else (k', v') :: dict_set d' k v
  end.

Definition dict_keys (d : dict V) : list string := map fst d.

(** [d.update(other)] *)
Definition dict_update (d other : dict V) : dict V :=
  fold_left (fun acc kv => dict_set acc (fst kv) (snd kv)) other d.

(** [d[k]], which raises [KeyError] *)
Definition dict_item (d : dict V) (k : string) : res V :=
  match dict_get d k with
  | Some v => Ok v
  | None => Raise (KeyError k)
  end.
End Dict.

(** *** Values: decoded JSON, and [datetime] objects *)

Inductive Value : Type :=
| VNone
| VBool (b : bool)
| VInt (n : Z)
| VFloat (text : string)
| VStr (s : string)
| VList (entries : list Value)
| VDict (items : list (string * Value))
| VDatetime (isoformat : string).

Definition is_dict (v : Value) : bool :=
  match v with VDict _ => true | _ => false end.

(** The name of the type of a value, as error messages print it. *)
Definition type_name (v : Value) : string :=
  match v with
  | VNone => "NoneType"
  | VBool _ => "bool"
  | VInt _ => "int"
  | VFloat _ => "float"
  | VStr _ => "str"
  | VList _ => "list"
  | VDict _ => "dict"
  | VDatetime _ => "datetime.datetime"
  end.

(** *** [json.dumps] *)

(** [ensure_ascii] escaping: a backslash, a double quote and every character
    outside [' '..'~'] are replaced. *)
Definition json_escape_char (c : ascii) : string :=
  if Ascii.eqb c backslash then String backslash (str1 backslash)
  else if Ascii.eqb c dquote then String backslash (str1 dquote)
  else if in_range 32 126 c then str1 c
  else if (code c =? 8)%nat then String backslash "b"
  else if (code c =? 9)%nat then String backslash "t"
  else if (code c =? 10)%nat then String backslash "n"
  else if (code c =? 12)%nat then String backslash "f"
  else if (code c =? 13)%nat then String backslash "r"
  else String backslash ("u00" ++ hex2 c).

Definition quoted (s : string) : string :=
  String dquote (s ++ str1 dquote).

Definition json_dumps_str (s : string) : string :=
  quoted (concat_map json_escape_char s).

(** [json.dumps(v, sort_keys=...)]; a [datetime] is not serializable. *)
Fixpoint json_dumps (sort_keys : bool) (v : Value) : res string :=
  match v with
  | VNone => Ok "null"
  | VBool true => Ok "true"
  | VBool false => Ok "false"
  | VInt n => Ok (str_of_int n)
  | VFloat text => Ok text
  | VStr s => Ok (json_dumps_str s)
  | VList entries =>
      parts <- mapM (json_dumps sort_keys) entries ;;
      Ok ("[" ++ join ", " parts ++ "]")
  | VDict items =>
      parts <- mapM (fun kv : string * Value =>
                       let '(k, x) := kv in
                       body <- json_dumps sort_keys x ;;
                       Ok (k, body)) items ;;
      let ordered := if sort_keys then sorted_items parts else parts in
      Ok ("{" ++ join ", " (map (fun kb : string * string =>
                                   json_dumps_str (fst kb) ++ ": " ++ snd kb)
                                ordered) ++ "}")
  | VDatetime _ =>
      Raise (TypeError "Object of type datetime is not JSON serializable")
  end.

(** *** [repr] of strings, as [{!r}] prints them *)

Definition repr_quote (s : string) : ascii :=
  if contains_char squote s && negb (contains_char dquote s)
  then dquote else squote.

Definition is_printable (c : ascii) : bool :=
  in_range 32 126 c || (in_range 161 255 c && negb (code c =? 173)%nat).

Definition repr_escape_char (q c : ascii) : string :=
  if Ascii.eqb c backslash || Ascii.eqb c q then String backslash (str1 c)
  else if (code c =? 9)%nat then String backslash "t"
  else if (code c =? 10)%nat then String backslash "n"
  else if (code c =? 13)%nat then String backslash "r"
  else if is_printable c then str1 c
  else String backslash ("x" ++ hex2 c).

Definition repr_str (s : string) : string :=
  let q := repr_quote s in
  String q (concat_map (repr_escape_char q) s ++ str1 q).

Definition repr_list (l : list string) : string :=
  "[" ++ join ", " (map repr_str l) ++ "]".

(** *** [int(s, 0)] *)

(** White space that [int] and [float] skip at both ends. *)
Definition is_space (c : ascii) : bool :=
  in_range 9 13 c || (code c =? 32)%nat || (code c =? 133)%nat
  || (code c =? 160)%nat.

Fixpoint lstrip (s : string) : string :=
  match s with
  | EmptyString => EmptyString
  | String c s' => if is_space c then lstrip s' else s
  end.

Fixpoint rstrip (s : string) : string :=
  match s with
  | EmptyString => EmptyString
  | String c s' =>
      let r := rstrip s' in
      if is_empty r && is_space c then EmptyString else String c r
  end.

Definition strip (s : string) : string := rstrip (lstrip s).

(** The value of a character as a digit: ['0'..'9'], then letters of either
    case from 10 on. *)
Definition digit_value (c : ascii) : option Z :=
  if in_range 48 57 c then Some (Z.of_nat (code c - 48))
  else if in_range 97 122 c then Some (Z.of_nat (code c - 87))
  else if in_range 65 90 c then Some (Z.of_nat (code c - 55))
  else None.

(** Digits of [base], single underscores allowed between them; the whole
    text must be consumed. *)
Fixpoint scan_digits (base : Z) (s : string) (acc : Z) (after_underscore : bool)
  : option Z :=
  match s with
  | EmptyString => if after_underscore then None else Some acc
  | String c s' =>
      if Ascii.eqb c "_" then
        if after_underscore then None else scan_digits base s' acc true
      else
        match digit_value c with
        | Some d =>
            if (d <? base)%Z then scan_digits base s' (acc * base + d)%Z false
            else None
        | None => None
        end
  end.

Definition skip_underscore (s : string) : string :=
  match s with
  | String "_" s' => s'
  | _ => s
  end.

(** The base a literal announces, the digits that follow, and whether the
    literal starts with a bare [0] (then only zero is accepted). *)
Definition int_prefix (s : string) : Z * string * bool :=
  match s with
  | String "0" (String c r) =>
      if Ascii.eqb c "x" || Ascii.eqb c "X" then (16%Z, skip_underscore r, false)
      else if Ascii.eqb c "o" || Ascii.eqb c "O" then (8%Z, skip_underscore r, false)
      else if Ascii.eqb c "b" || Ascii.eqb c "B" then (2%Z, skip_underscore r, false)
      else (10%Z, s, true)
  | String "0" EmptyString => (10%Z, s, true)
  | _ => (10%Z, s, false)
  end.

Definition int_sign (s : string) : bool * string :=
  match s with
  | String "+" r => (false, r)
  | String "-" r => (true, r)
  | _ => (false, s)
  end.

(** [int(s, 0)]; [None] stands for [ValueError]. *)
Definition int_base0 (s : string) : option Z :=
  let '(negative, unsigned) := int_sign (strip s) in
  let '(base, body, bare_zero) := int_prefix unsigned in
  if is_empty body || startswith body "_" then None
  else
    match scan_digits base body 0%Z false with
    | None => None
    | Some v =>
        if bare_zero && negb (v =? 0)%Z then None
        else Some (if negative then (- v)%Z else v)
    end.

(** *** [float(s)]: which texts are accepted *)

(** Underscores may only sit between two digits; they are dropped. *)
Fixpoint drop_underscores (after_digit : bool) (s : string) : option string :=
  match s with
  | EmptyString => Some EmptyString
  | String c s' =>
      if Ascii.eqb c "_" then
        match s' with
        | String d _ =>
            if after_digit && is_digit d then drop_underscores false s'
            else None
        | EmptyString => None
        end
      else option_map (String c) (drop_underscores (is_digit c) s')
  end.

Fixpoint skip_digits (s : string) : nat * string :=
  match s with
  | String c s' =>
      if is_digit c then let '(n, r) := skip_digits s' in (S n, r)
      else (O, s)
  | EmptyString => (O, s)
  end.

Definition float_exponent_ok (s : string) : bool :=
  match s with
  | EmptyString => true
  | String e r =>
      if Ascii.eqb e "e" || Ascii.eqb e "E" then
        let '(_, digits) := int_sign r in
        let '(n, rest) := skip_digits digits in
        negb (n =? 0)%nat && is_empty rest
      else false
  end.

Definition float_decimal_ok (s : string) : bool :=
  let '(n1, r1) := skip_digits s in
  let '(n2, r2) :=
    match r1 with
    | String "." r => skip_digits r
    | _ => (O, r1)
    end in
  negb (n1 + n2 =? 0)%nat && float_exponent_ok r2.

Definition float_literal_ok (s : string) : bool :=
  let '(_, unsigned) := int_sign s in
  let word := lower unsigned in
  String.eqb word "inf" || String.eqb word "infinity" || String.eqb word "nan"
  || float_decimal_ok unsigned.

(** [float(s)]: the accepted literal, or [None] for [ValueError]. *)
Definition float_of_str (s : string) : option string :=
  match drop_underscores false (strip s) with
  | Some literal => if float_literal_ok literal then Some literal else None
  | None => None
  end.

(** *** Shapes of strings used in the statements below *)

Fixpoint all_chars (p : ascii -> bool) (s : string) : bool :=
  match s with
  | EmptyString => true
  | String c s' => p c && all_chars p s'
  end.

(** The characters [json.dumps] copies unchanged. *)
Definition json_safe (c : ascii) : bool :=
  in_range 32 126 c && negb (Ascii.eqb c backslash) && negb (Ascii.eqb c dquote).

Fixpoint has_shape (shape : list (ascii -> bool)) (s : string) : bool :=
  match shape, s with
  | [], EmptyString => true
  | p :: shape', String c s' => p c && has_shape shape' s'
  | _, _ => false
  end.

(** [YYYY-MM-DDTHH:MM:SS], the part of an ISO-8601 timestamp down to whole
    seconds. *)
Definition iso_seconds : list (ascii -> bool) :=
  let d := is_digit in
  [d; d; d; d; Ascii.eqb "-"; d; d; Ascii.eqb "-"; d; d; Ascii.eqb "T";
   d; d; Ascii.eqb ":"; d; d; Ascii.eqb ":"; d; d].

(** An ISO-8601 UTC timestamp with fractional seconds is
    [whole ++ "." ++ fraction ++ "Z"]; without them it is [whole ++ "Z"]. *)
Definition is_iso_seconds (whole : string) : bool := has_shape iso_seconds whole.

Definition is_fraction (fraction : string) : bool :=
  negb (is_empty fraction) && all_chars is_digit fraction.

(** The characters of a timestamp: copied unchanged by [json.dumps], and
    none is a dot. *)
Definition timestamp_char (c : ascii) : bool :=
  json_safe c && negb (Ascii.eqb c ".").

(** Values [json.dumps] accepts: no [datetime] anywhere inside. *)
Fixpoint json_ok (v : Value) : bool :=
  match v with
  | VDatetime _ => false
  | VList entries => forallb json_ok entries
  | VDict items => forallb (fun kv : string * Value => json_ok (snd kv)) items
  | _ => true
  end.

(** *** [fnmatch.fnmatch] on patterns of literal characters, [*] and [?]

    The layouts of cli.py only use such patterns; bracket expressions are
    not modelled, and the renderer below is stated over any matcher. *)

Fixpoint glob (pattern : string) : string -> bool :=
  match pattern with
  | EmptyString => is_empty
  | String "*" rest =>
      fix star (name : string) : bool :=
        glob rest name
        || match name with
           | EmptyString => false
           | String _ name' => star name'
           end
  | String "?" rest =>
      fun name =>
        match name with
        | EmptyString => false
        | String _ name' => glob rest name'
        end
  | String c rest =>
      fun name =>
        match name with
        | EmptyString => false
        | String a name' => Ascii.eqb a c && glob rest name'
        end
  end.

Definition fnmatch_glob (name pattern : string) : bool := glob pattern name.

End Py.

(** ** aiven/client/pretty.py *)

Module Pretty.
Import Py.

(** [format_item(key, value)]; [key] is [None] or a string, and an empty
    string is as false as [None]. *)
Fixpoint format_item (key : option string) (value : Value) : res string :=
  match value with
  | VList entries =>
      parts <- mapM (format_item None) entries ;;
      Ok (join ", " parts)
  | VDict _ => json_dumps true value
  | VStr s =>
      let named :=
        match key with
        | Some k => negb (is_empty k) && endswith k "_time"
        | None => false
        end in
      let value :=
        if named && endswith s "Z" && contains_char "." s
        then fst (split1 "." s) ++ "Z"   (* drop microseconds from timestamps *)
        else s in
      let json_v := json_dumps_str value in
      if String.eqb json_v (quoted value) then Ok value else Ok json_v
  | VDatetime isoformat => Ok isoformat
  | _ => json_dumps false value
  end.

(** [print_list(result)]: the lines it prints, one per call to [print]. *)
Definition print_list (result : list Value) : res (list string) :=
  mapM (format_item None) result.

(** A string as [format_item] shows it: verbatim when JSON-quoting it adds
    nothing but the quotes, JSON-encoded otherwise. *)
Definition plain_or_json (value : string) : string :=
  if String.eqb (json_dumps_str value) (quoted value) then value
  else json_dumps_str value.

(** Values [format_item] formats without raising: a mapping that reaches
    [json.dumps] holds no [datetime]. *)
Fixpoint formattable (v : Value) : bool :=
  match v with
  | VList entries => forallb formattable entries
  | VDict _ => json_ok v
  | _ => true
  end.

(** The [table_layout] argument: a plain list of field names, or a list whose
    first entry is the list of column names and whose other entries are
    wildcard patterns. *)
Inductive LayoutSpec : Type :=
| Fields (names : list string)
| Rows (horizontal : list string) (vertical : list string).

(** The generator [iter_values(key, value)] of [print_table], as the list of
    pairs it yields. *)
Fixpoint iter_values (key : string) (value : Value) : list (string * Value) :=
  match value with
  | VDict items =>
      flat_map (fun kv : string * Value =>
                  let '(subkey, subvalue) := kv in
                  iter_values ((if is_empty key then EmptyString else key ++ ".")
                               ++ subkey) subvalue)
               items
  | _ => [(key, value)]
  end.

(** [f.split(".", 1)[-1]] *)
Definition after_dot (f : string) : string :=
  match split1 "." f with
  | (_, Some rest) => rest
  | (whole, None) => whole
  end.

Section Renderer.

(** [fnmatch.fnmatch(name, pattern)] of the standard library (on POSIX:
    names are matched as they are). *)
Variable fnmatch : string -> string -> bool.

(** The pairs [(subkey, subvalue)] the two inner loops of [print_table]
    visit for one item, the dropped keys left out. *)
Definition item_fields (drop_fields : list string) (items : dict Value)
  : list (string * Value) :=
  flat_map (fun kv : string * Value =>
              let '(key, value) := kv in
              if existsb (String.eqb key) drop_fields then []
              else iter_values key value)
           items.

(** One pass of the innermost loop: format a field, widen its column. *)
Definition format_field (st : dict string * dict nat) (kv : string * Value)
  : res (dict string * dict nat) :=
  let '(formatted_row, widths) := st in
  let '(subkey, subvalue) := kv in
  text <- format_item (Some subkey) subvalue ;;
  let known := match dict_get widths subkey with Some w => w | None => 1 end in
  Ok (dict_set formatted_row subkey text,
      dict_set widths subkey
        (Nat.max (String.length subkey) (Nat.max (String.length text) known))).

Definition format_record (drop_fields : list string) (widths : dict nat)
           (item : Value) : res (dict string * dict nat) :=
  match item with
  | VDict items =>
      foldM format_field (item_fields drop_fields items)
          (([] : dict string), widths)
  | _ =>
      Raise (AttributeError ("'" ++ type_name item
                             ++ "' object has no attribute 'items'"))
  end.

(** The loop [for item in result]: the rows, and the widths at the end. *)
Fixpoint format_records (drop_fields : list string) (result : list Value)
         (widths : dict nat) : res (list (dict string) * dict nat) :=
  match result with
  | [] => Ok ([], widths)
  | item :: rest =>
      '(formatted_row, widths1) <- format_record drop_fields widths item ;;
      '(formatted_values, widths2) <- format_records drop_fields rest widths1 ;;
      Ok (formatted_row :: formatted_values, widths2)
  end.

(** [longest(vf)], over the row that [formatted_row] is bound to. *)
Definition longest (formatted_row : dict string) (vf : string) : nat :=
  fold_right Nat.max 0
    (map (fun f => String.length (after_dot f))
         (filter (fun f => fnmatch f vf) (dict_keys formatted_row))).

Definition vertical_width (formatted_row : dict string)
           (vertical : list string) : nat :=
  fold_right Nat.max 0 (map (longest formatted_row) vertical).

(** [table_layout[0]] and [table_layout[1:]], after the wrapping of a plain
    list of names. *)
Definition split_layout (table_layout : LayoutSpec)
  : res (list string * list string) :=
  match table_layout with
  | Fields [] => Raise (IndexError "list index out of range")
  | Fields names => Ok (names, [])
  | Rows horizontal vertical => Ok (horizontal, vertical)
  end.

(** ["  ".join(cell(f, widths[f]) for f in fields)] *)
Definition cells (widths : dict nat) (cell : string -> nat -> string)
           (fields : list string) : res string :=
  parts <- mapM (fun f => w <- dict_item widths f ;; Ok (cell f w)) fields ;;
  Ok (join "  " parts).

Definition row_cell (formatted_row : dict string) (f : string) (w : nat)
  : string :=
  ljust (match dict_get formatted_row f with
         | Some text => text
         | None => EmptyString
         end) w.

(** ["    {:{}} = {}".format(key.split(".", 1)[-1], vertical_width, value)] *)
Definition vertical_line (width : nat) (key value : string) : string :=
  "    " ++ ljust (after_dot key) width ++ " = " ++ value.

Definition vertical_block (width : nat) (vertical : list string)
           (formatted_row : dict string) : list string :=
  flat_map (fun vertical_field =>
              flat_map (fun kv : string * string =>
                          let '(key, value) := kv in
                          if fnmatch key vertical_field
                          then [vertical_line width key value] else [])
                       (sorted_items formatted_row))
           vertical.

(** The loop [for row_num, formatted_row in enumerate(formatted_values)]. *)
Fixpoint print_rows (widths : dict nat) (horizontal vertical : list string)
         (width : nat) (row_num : nat) (formatted_values : list (dict string))
  : res (list string) :=
  match formatted_values with
  | [] => Ok []
  | formatted_row :: rest =>
      let blank :=
        if negb (is_nil vertical) && (0 <? row_num)%nat
        then [EmptyString] else [] in
      line <- cells widths (row_cell formatted_row) horizontal ;;
      others <- print_rows widths horizontal vertical width (S row_num) rest ;;
      Ok (blank ++ line :: vertical_block width vertical formatted_row
                ++ others)%list
  end.

(** [print_table(result, drop_fields, table_layout)]: the lines printed. *)
Definition print_table (result : list Value) (drop_fields : list string)
           (table_layout : option LayoutSpec) : res (list string) :=
  match result with
  | [] => Ok []
  | first :: _ =>
      if negb (is_dict first) then print_list result
      else
        '(formatted_values, widths) <- format_records drop_fields result [] ;;
        (* default table layout is one row per item with sorted field names *)
        let table_layout :=
          match table_layout with
          | None => Fields (sorted (dict_keys widths))
          | Some layout => layout
          end in
        '(horizontal_fields, vertical_fields) <- split_layout table_layout ;;
        let formatted_row := last formatted_values [] in
        let width := vertical_width formatted_row vertical_fields in
        header <- cells widths (fun f w => ljust (upper f) w)
                        horizontal_fields ;;
        underline <- cells widths (fun _ w => repeat_char "=" w)
                           horizontal_fields ;;
        body <- print_rows widths horizontal_fields vertical_fields width 0
                           formatted_values ;;
        Ok (header :: underline :: body)
  end.

(** **** Vocabulary for the statements about [print_table] *)

(** The flattened fields of a record, and the field names of a table. *)
Definition record_fields (drop_fields : list string) (item : Value)
  : list (string * Value) :=
  match item with
  | VDict items => item_fields drop_fields items
  | _ => []
  end.

Definition field_names (drop_fields : list string) (result : list Value)
  : list string :=
  map fst (flat_map (record_fields drop_fields) result).

(** A record [print_table] can format: a mapping whose flattened fields
    are all formattable. *)
Definition record_ok (drop_fields : list string) (item : Value) : bool :=
  is_dict item
  && forallb (fun kv : string * Value => formattable (snd kv))
             (record_fields drop_fields item).

(** A formatted row has exactly the flattened fields of its record. *)
Definition row_of (drop_fields : list string) (item : Value)
           (formatted_row : dict string) : Prop :=
  forall f, In f (dict_keys formatted_row)
            <-> In f (map fst (record_fields drop_fields item)).

(** Every stored width is at least 1. *)
Definition positive (widths : dict nat) : Prop :=
  forall f w, dict_get widths f = Some w -> 1 <= w.

Definition width_of (widths : dict nat) (f : string) : nat :=
  match dict_get widths f with Some w => w | None => 0 end.

Definition header_line (widths : dict nat) (fields : list string) : string :=
  join "  " (map (fun f => ljust (upper f) (width_of widths f)) fields).

Definition underline (widths : dict nat) (fields : list string) : string :=
  join "  " (map (fun f => repeat_char "=" (width_of widths f)) fields).

Definition data_line (widths : dict nat) (fields : list string)
           (formatted_row : dict string) : string :=
  join "  " (map (fun f => row_cell formatted_row f (width_of widths f))
                 fields).

(** What is printed for one record: its table row, then its detail
    lines. *)
Definition record_block (widths : dict nat) (horizontal vertical : list string)
           (width : nat) (formatted_row : dict string) : list string :=
  data_line widths horizontal formatted_row
  :: vertical_block width vertical formatted_row.

(** Blocks in sequence, [gap] before every block but the first. *)
Definition separated {A : Type} (gap : list A) (blocks : list (list A))
  : list A :=
  match blocks with
  | [] => []
  | b :: rest => (b ++ flat_map (fun b' => gap ++ b') rest)%list
  end.

(** The blank line [print("")] puts before every record but the first when
    the layout has vertical rows. *)
Definition gap (vertical : list string) : list string :=
  if is_nil vertical then [] else [EmptyString].

(** The layout can be laid out over the field names of the table: there is
    a column, and every column is a field of some record.  Without a layout
    the columns are the field names themselves. *)
Definition layout_fits (table_layout : option LayoutSpec)
           (names : list string) : Prop :=
  match table_layout with
  | None => names <> []
  | Some (Fields columns) => columns <> [] /\ incl columns names
  | Some (Rows horizontal _) => incl horizontal names
  end.

Definition blank_lines (lines : list string) : nat :=
  List.length (filter is_empty lines).

(** The alignment width as the specification words it: the longest
    de-prefixed name over the matched fields of all records. *)
Definition spec_vertical_width (formatted_values : list (dict string))
           (vertical : list string) : nat :=
  fold_right Nat.max 0
    (map (fun formatted_row => vertical_width formatted_row vertical)
         formatted_values).

End Renderer.

End Pretty.

(** ** aiven/client/cli.py *)

Module Cli.
Import Py.

(** The ["type"] entry of a schema: a name, or a list of names. *)
Inductive TypeSpec : Type :=
| TypeName (name : string)
| TypeNames (names : list string).

(** A node of a [user_config_schema] document.  Every node carries a
    ["type"]; [properties] and [patternProperties] are empty when the entry
    is absent, as [obj_def.get(..., {})] reads them; ["items"] may be
    absent. *)
Inductive Schema : Type :=
| Node (type : TypeSpec) (properties : list (string * Schema))
       (patternProperties : list (string * Schema)) (items : option Schema).

Definition schema_type (s : Schema) : TypeSpec :=
  match s with Node type _ _ _ => type end.
Definition schema_properties (s : Schema) : dict Schema :=
  match s with Node _ properties _ _ => properties end.
Definition schema_patternProperties (s : Schema) : dict Schema :=
  match s with Node _ _ patternProperties _ => patternProperties end.
Definition schema_items (s : Schema) : option Schema :=
  match s with Node _ _ _ items => items end.

(** [word in schema["type"]]: a substring test on a name, membership in a
    list of names. *)
Definition type_has (word : string) (type : TypeSpec) : bool :=
  match type with
  | TypeName name => contains word name
  | TypeNames names => existsb (String.eqb word) names
  end.

(** [spec["type"] == "object"] *)
Definition is_object (spec : Schema) : bool :=
  match schema_type spec with
  | TypeName name => String.eqb name "object"
  | TypeNames _ => false
  end.

Definition repr_type (type : TypeSpec) : string :=
  match type with
  | TypeName name => repr_str name
  | TypeNames names => repr_list names
  end.

Definition boolean_values : dict bool :=
  [("1", true); ("0", false); ("true", true); ("false", false)].

(** [convert_str_to_value(schema, str_value)] *)
Fixpoint convert_str_to_value (schema : Schema) (str_value : string)
  : res Value :=
  match schema with
  | Node type _ _ items =>
      if type_has "string" type then Ok (VStr str_value)
      else if type_has "integer" type then
        (* automatically convert from '123', '0x123', '0o644', etc. *)
        match int_base0 str_value with
        | Some n => Ok (VInt n)
        | None =>
            Raise (ValueError ("invalid literal for int() with base 0: "
                               ++ repr_str str_value))
        end
      else if type_has "number" type then
        match float_of_str str_value with
        | Some literal => Ok (VFloat literal)
        | None =>
            Raise (ValueError ("could not convert string to float: "
                               ++ repr_str str_value))
        end
      else if type_has "boolean" type then
        match dict_get boolean_values str_value with
        | Some b => Ok (VBool b)
        | None =>
            Raise (UserError ("Invalid boolean value " ++ repr_str str_value
                              ++ ": expected one of "
                              ++ join ", " (dict_keys boolean_values)))
        end
      else if type_has "array" type then
        match items with
        | Some item_schema =>
            entries <- mapM (convert_str_to_value item_schema)
                            (split "," str_value) ;;
            Ok (VList entries)
        | None => Raise (KeyError "items")
        end
      else
        Raise (UserError ("Supported for option value type(s) "
                          ++ repr_type type ++ " is unimplemented"))
  end.

(** [prop if not prefix else (prefix + "." + prop)] *)
Definition full_name (prefix prop : string) : string :=
  if is_empty prefix then prop else prefix ++ "." ++ prop.

(** One pass of either loop of [collect_user_config_options]: [nested] is
    the result of the recursive call on [spec]. *)
Definition collect_entry (opts : dict Schema)
           (entry : string * Schema * res (dict Schema))
  : res (dict Schema) :=
  let '(name, spec, nested) := entry in
  if is_object spec then
    collected <- nested ;; Ok (dict_update opts collected)
  else Ok (dict_set opts name spec).

(** [sorted(d.values())] on schema nodes: two mappings cannot be ordered. *)
Definition sorted_specs {A : Type} (specs : list A) : res (list A) :=
  match specs with
  | _ :: _ :: _ =>
      Raise (TypeError
        "'<' not supported between instances of 'dict' and 'dict'")
  | _ => Ok specs
  end.

(** [collect_user_config_options(obj_def, prefix)].  The recursive calls are
    taken on the entries as they are stored, which keeps the recursion
    structural; the loops consume them in sorted order. *)
Fixpoint collect_user_config_options (obj_def : Schema) (prefix : string)
  : res (dict Schema) :=
  match obj_def with
  | Node _ properties patternProperties _ =>
      let named :=
        map (fun kv : string * Schema =>
               let '(prop, spec) := kv in
               (prop, (full_name prefix prop, spec,
                       collect_user_config_options spec
                         (full_name prefix prop))))
            properties in
      let patterned :=
        map (fun kv : string * Schema =>
               let '(_, spec) := kv in
               (full_name prefix "KEY", spec,
                collect_user_config_options spec (full_name prefix "KEY")))
            patternProperties in
      opts <- foldM collect_entry (map snd (sorted_items named)) [] ;;
      specs <- sorted_specs patterned ;;
      foldM collect_entry specs opts
  end.

(** The walk [conf.setdefault(part, {}); conf = conf[part]] over all parts
    but the last, then [conf[parts[-1]] = value]; the updated configuration
    is returned. *)
Fixpoint assign (conf : Value) (parts : list string) (value : Value)
  : res Value :=
  match parts with
  | [] => Ok conf
  | [leaf] =>
      match conf with
      | VDict items => Ok (VDict (dict_set items leaf value))
      | VList _ =>
          Raise (TypeError "list indices must be integers or slices, not str")
      | _ =>
          Raise (TypeError ("'" ++ type_name conf
                            ++ "' object does not support item assignment"))
      end
  | part :: rest =>
      match conf with
      | VDict items =>
          let child :=
            match dict_get items part with
            | Some c => c
            | None => VDict []
            end in
          child' <- assign child rest value ;;
          Ok (VDict (dict_set items part child'))
      | _ =>
          Raise (AttributeError ("'" ++ type_name conf
                                 ++ "' object has no attribute 'setdefault'"))
      end
  end.

(** [text or "none"] *)
Definition or_none (text : string) : string :=
  if is_empty text then "none" else text.

(** [".".join(key.split(".")[:-1] + ["KEY"])] *)
Definition generic_key (key : string) : string :=
  join "." (removelast (split "." key) ++ ["KEY"])%list.

(** The two lookups of an option.  A stored schema is a mapping with a
    ["type"] entry, hence true: [not opt_schema] holds exactly when the
    lookup found nothing. *)
Definition find_option (options : dict Schema) (key : string)
  : option Schema :=
  match dict_get options key with
  | Some opt_schema => Some opt_schema
  | None =>
      (* Exact key not found, try generic one *)
      dict_get options (generic_key key)
  end.

(** The [try] block around the conversion: a [ValueError] becomes a
    [UserError] that quotes the assignment. *)
Definition convert_option (key_value : string) (opt_schema : Schema)
           (value : string) : res Value :=
  match convert_str_to_value opt_schema value with
  | Raise (ValueError ex) =>
      Raise (UserError ("Invalid value " ++ repr_str key_value ++ ": " ++ ex))
  | other => other
  end.

(** The body of the loop [for key_value in self.args.user_config]. *)
Definition compile_assignment (options : dict Schema) (user_config : Value)
           (key_value : string) : res Value :=
  match split1 "=" key_value with
  | (_, None) =>
      Raise (UserError ("Invalid config value: " ++ repr_str key_value
                        ++ ", expected '<KEY>[.<SUBKEY>]=<JSON_VALUE>'"))
  | (key, Some value) =>
      match find_option options key with
      | None =>
          Raise (UserError ("Unsupported option " ++ repr_str key
                            ++ ", available options: "
                            ++ or_none (join ", " (dict_keys options))))
      | Some opt_schema =>
          value <- convert_option key_value opt_schema value ;;
          assign user_config (split "." key) value
      end
  end.

(** The loop of [create_user_config] over a flattened schema. *)
Definition compile (options : dict Schema) (user_config_args : list string)
  : res Value :=
  foldM (compile_assignment options) user_config_args (VDict []).

(** [create_user_config(project, service_type, config_vars)].
    [service_types] is what [self.client.get_service_types(project)]
    returned, each service type with its ["user_config_schema"];
    [config_vars] is [self.args.user_config] at both call sites. *)
Definition create_user_config (service_types : dict Schema)
           (service_type : string) (config_vars : list string) : res Value :=
  if is_nil config_vars then Ok (VDict [])
  else
    match dict_get service_types service_type with
    | None =>
        Raise (UserError ("Unknown service type " ++ repr_str service_type
                          ++ ", available options: "
                          ++ join ", " (dict_keys service_types)))
    | Some user_config_schema =>
        options <- collect_user_config_options user_config_schema EmptyString ;;
        compile options config_vars
    end.

(** *** Vocabulary for the statements about the compiler *)

(** The digits of [base]. *)
Definition is_digit_of (base : Z) (c : ascii) : bool :=
  match digit_value c with
  | Some d => (d <? base)%Z
  | None => false
  end.

(** The number a run of digits denotes in [base], by positional weights. *)
Fixpoint positional (base : Z) (digits : string) : Z :=
  match digits with
  | EmptyString => 0%Z
  | String c rest =>
      ((match digit_value c with Some d => d | None => 0 end)
       * base ^ Z.of_nat (String.length rest)
       + positional base rest)%Z
  end.

(** A non-empty run of digits of [base]. *)
Definition is_digits (base : Z) (digits : string) : bool :=
  negb (is_empty digits) && all_chars (is_digit_of base) digits.

(** A decimal literal: digits, without a leading zero unless all are zero. *)
Definition is_decimal_literal (digits : string) : bool :=
  is_digits 10 digits
  && (negb (startswith digits "0") || all_chars (Ascii.eqb "0") digits).

(** A text without any decimal digit. *)
Definition non_numeric (s : string) : bool :=
  all_chars (fun c => negb (is_digit c)) s.

(** A schema [convert_str_to_value] can convert with: where the array branch
    is reached, ["items"] is there, and so on in the items. *)
Fixpoint items_declared (schema : Schema) : bool :=
  match schema with
  | Node type _ _ items =>
      if type_has "string" type || type_has "integer" type
         || type_has "number" type || type_has "boolean" type
         || negb (type_has "array" type)
      then true
      else match items with
           | Some item_schema => items_declared item_schema
           | None => false
           end
  end.

(** All nodes of a schema document. *)
Fixpoint nodes (schema : Schema) : list Schema :=
  match schema with
  | Node _ properties patternProperties items =>
      schema
      :: (flat_map (fun kv : string * Schema => nodes (snd kv)) properties
          ++ flat_map (fun kv : string * Schema => nodes (snd kv))
                      patternProperties
          ++ match items with
             | Some item_schema => nodes item_schema
             | None => []
             end)%list
  end.

(** The nodes [collect_user_config_options] is called on: the node it is
    given, and what it reaches through children whose type is ["object"]. *)
Fixpoint traversed (schema : Schema) : list Schema :=
  match schema with
  | Node _ properties patternProperties _ =>
      let through (kv : string * Schema) :=
        if is_object (snd kv) then traversed (snd kv) else [] in
      schema
      :: (flat_map through properties ++ flat_map through patternProperties)%list
  end.

Definition pattern_count (schema : Schema) : nat :=
  List.length (schema_patternProperties schema).

(** All traversed nodes have at most one pattern property; some traversed
    node has two or more. *)
Definition flat (schema : Schema) : Prop :=
  forall node, In node (traversed schema) -> pattern_count node <= 1.

Definition overloaded (schema : Schema) : Prop :=
  exists node, In node (traversed schema) /\ 2 <= pattern_count node.

End Cli.

(** ** cli.py: two commands around the compiler *)

Module Commands.
Import Py Cli.

(** A command-line value that is there and not empty. *)
Definition truthy (value : option string) : bool :=
  match value with
  | Some text => negb (is_empty text)
  | None => false
  end.

(** [get_project()]: the [--project] argument, else the default project of
    the configuration file. *)
Definition get_project (arg_project config_default : option string)
  : option string :=
  if truthy arg_project then arg_project else config_default.

(** The arguments of [service create] that the command reads. *)
Record ServiceCreateArgs : Type := {
  sc_name : string;
  sc_group_name : string;
  sc_service_type : string;
  sc_plan : option string;
  sc_cloud : option string;
  sc_user_config : list string
}.

(** The keyword arguments [service_create] hands to
    [self.client.create_service]. *)
Record CreateService : Type := {
  cs_project : option string;
  cs_service : string;
  cs_service_type : string;
  cs_plan : option string;
  cs_cloud : option string;
  cs_group_name : string;
  cs_user_config : Value
}.

(** [service_create], up to the call of [self.client.create_service]: the
    request it sends, or the error raised before.  [service_types] is what
    [get_service_types] returns inside [create_user_config]; the call itself
    and the handling of [client.Error] belong to the client. *)
Definition service_create (args : ServiceCreateArgs) (project : option string)
           (service_types : dict Schema) : res CreateService :=
  let service_type_info := split ":" (sc_service_type args) in
  let service_type := hd EmptyString service_type_info in
  let plan :=
    if (List.length service_type_info =? 2)%nat
    then Some (nth 1 service_type_info EmptyString)
    else if truthy (sc_plan args) then sc_plan args
    else None in
  if negb (truthy plan) then Raise (UserError "No subscription plan given")
  else
    user_config <- create_user_config service_types (sc_service_type args)
                                      (sc_user_config args) ;;
    Ok {| cs_project := project;
          cs_service := sc_name args;
          cs_service_type := service_type;
          cs_plan := plan;
          cs_cloud := sc_cloud args;
          cs_group_name := sc_group_name args;
          cs_user_config := user_config |}.

(** What [service_terminate] does, in order: lines printed, prompts shown by
    [raw_input_func], calls of [self.client.delete_service] with whether
    they returned, and log lines. *)
Inductive event : Type :=
| Printed (line : string)
| Prompted (prompt : string)
| Delete (name : string) (returned : bool)
| Logged (message : string).

(** How a command ends when it does not return: an exception of the
    program, the end of the input at a prompt, a [client.Error]. *)
Inductive stop : Type :=
| Raised (e : exn)
| EndOfInput
| ClientError (name : string).

Definition termination_warning : list string :=
  ["Please re-enter the service name(s) to confirm the service termination.";
   "This cannot be undone and all the data in the service will be lost!";
   "Re-entering service name(s) can be skipped with the --force option."].

(** The banner: the warning between two rows of stars as long as its
    longest line. *)
Definition banner : list event :=
  let longest :=
    fold_right Nat.max 0 (map String.length termination_warning) in
  (Printed (repeat_char "*" longest)
   :: map Printed termination_warning
   ++ [Printed (repeat_char "*" longest)])%list.

Definition confirmation_prompt (name : string) : string :=
  "Re-enter service name " ++ repr_str name ++ " for immediate termination: ".

(** The loop that asks for every name again; [inputs] are the lines typed. *)
Fixpoint confirm_names (names inputs : list string)
  : list event * option stop :=
  match names with
  | [] => ([], None)
  | name :: names' =>
      match inputs with
      | [] => ([Prompted (confirmation_prompt name)], Some EndOfInput)
      | user_input :: inputs' =>
          if negb (String.eqb user_input name) then
            ([Prompted (confirmation_prompt name)],
             Some (Raised (UserError
                             "Not confirmed by user. Aborting termination.")))
          else
            let '(events, stopped) := confirm_names names' inputs' in
            (Prompted (confirmation_prompt name) :: events, stopped)
      end
  end.

Section Terminate.

(** Whether [self.client.delete_service(service=name)] returns; it raises
    [client.Error] otherwise. *)
Variable delete_service : string -> bool.

(** The loop that deletes. *)
Fixpoint delete_names (names : list string) : list event * option stop :=
  match names with
  | [] => ([], None)
  | name :: names' =>
      if delete_service name then
        let '(events, stopped) := delete_names names' in
        (Delete name true :: Logged (name ++ ": terminated") :: events, stopped)
      else ([Delete name false], Some (ClientError name))
  end.

(** [service_terminate]: [force] is [--force], [aiven_force] the value of
    the environment variable [AIVEN_FORCE]. *)
Definition service_terminate (force : bool) (aiven_force : option string)
           (names inputs : list string) : list event * option stop :=
  let '(asked, stopped) :=
    if negb force
       && negb (match aiven_force with
                | Some value => String.eqb value "true"
                | None => false
                end)
    then
      let '(events, stopped) := confirm_names names inputs in
      ((banner ++ events)%list, stopped)
    else ([], None) in
  match stopped with
  | Some _ => (asked, stopped)
  | None =>
      let '(deleted, failed) := delete_names names in
      ((asked ++ deleted)%list, failed)
  end.

End Terminate.

End Commands.

(** ** Vocabulary for further statements *)

Module Reading.
Import Py Cli Pretty.

(** The value a configuration holds under a path of keys. *)
Fixpoint get_path (conf : Value) (parts : list string) : option Value :=
  match parts with
  | [] => Some conf
  | part :: rest =>
      match conf with
      | VDict items =>
          match dict_get items part with
          | Some child => get_path child rest
          | None => None
          end
      | _ => None
      end
  end.

(** [a] is an initial segment of [b]. *)
Fixpoint prefix_of (a b : list string) : bool :=
  match a, b with
  | [], _ => true
  | x :: a', y :: b' => String.eqb x y && prefix_of a' b'
  | _ :: _, [] => false
  end.

(** A record without the keys in [drop_fields]. *)
Definition without_keys (drop_fields : list string) (item : Value) : Value :=
  match item with
  | VDict items =>
      VDict (filter (fun kv : string * Value =>
                       negb (existsb (String.eqb (fst kv)) drop_fields))
                    items)
  | _ => item
  end.

(** How often [c] occurs in [s]. *)
Fixpoint count_char (c : ascii) (s : string) : nat :=
  match s with
  | EmptyString => 0
  | String a s' => (if Ascii.eqb a c then 1 else 0) + count_char c s'
  end.

(** The first dotted segment of the key of an assignment. *)
Definition top_key (key_value : string) : string :=
  hd EmptyString (split "." (fst (split1 "=" key_value))).

(** Printable ASCII. *)
Definition printable_ascii (c : ascii) : bool := in_range 32 126 c.

(** What [conf.setdefault(part, {})] followed by [conf[part]] yields. *)
Definition child_of (items : dict Value) (part : string) : Value :=
  match dict_get items part with
  | Some c => c
  | None => VDict []
  end.

(** An option that is converted as an array of strings: none of the types
    tested before ["array"], and items of type ["string"]. *)
Definition is_string_array (schema : Schema) : bool :=
  negb (type_has "string" (schema_type schema))
  && negb (type_has "integer" (schema_type schema))
  && negb (type_has "number" (schema_type schema))
  && negb (type_has "boolean" (schema_type schema))
  && type_has "array" (schema_type schema)
  && match schema_items schema with
     | Some item_schema => type_has "string" (schema_type item_schema)
     | None => false
     end.

(** An option table: no key twice, and no option of type ["object"]. *)
Definition option_table (opts : dict Schema) : Prop :=
  NoDup (dict_keys opts)
  /\ Forall (fun kv : string * Schema => is_object (snd kv) = false) opts.

(** The names [self.client.delete_service] was called with, in order, and
    those of the calls that returned. *)
Definition attempted (events : list Commands.event) : list string :=
  flat_map (fun e => match e with
                     | Commands.Delete name _ => [name]
                     | _ => []
                     end) events.

Definition deleted (events : list Commands.event) : list string :=
  flat_map (fun e => match e with
                     | Commands.Delete name true => [name]
                     | _ => []
                     end) events.

(** The arguments of [service create] with another [--plan]. *)
Definition with_plan (args : Commands.ServiceCreateArgs)
           (plan : option string) : Commands.ServiceCreateArgs :=
  {| Commands.sc_name := Commands.sc_name args;
     Commands.sc_group_name := Commands.sc_group_name args;
     Commands.sc_service_type := Commands.sc_service_type args;
     Commands.sc_plan := plan;
     Commands.sc_cloud := Commands.sc_cloud args;
     Commands.sc_user_config := Commands.sc_user_config args |}.

(** The vertical rows of a layout. *)
Definition vertical_of (table_layout : option LayoutSpec) : list string :=
  match table_layout with
  | Some (Rows _ vertical) => vertical
  | _ => []
  end.

(** Every formatted text of the row is at most as long as the width kept
    for its field. *)
Definition fits (widths : dict nat) (formatted_row : dict string) : Prop :=
  forall f text,
    dict_get formatted_row f = Some text ->
    String.length text <= width_of widths f.

(** Every width is at least the length of the name of its field. *)
Definition named (widths : dict nat) : Prop :=
  forall f w, dict_get widths f = Some w -> String.length f <= w.

Definition grows (widths widths' : dict nat) : Prop :=
  forall f, width_of widths f <= width_of widths' f.

(** The texts a value carries for numbers and dates are printable ASCII, as
    [repr] of a [float] and [isoformat()] are. *)
Fixpoint printable_texts (v : Value) : bool :=
  match v with
  | VFloat text => all_chars printable_ascii text
  | VDatetime isoformat => all_chars printable_ascii isoformat
  | VList entries => forallb printable_texts entries
  | VDict items =>
      forallb (fun kv : string * Value => printable_texts (snd kv)) items
  | _ => true
  end.

(** Two dictionaries with the same entries, in any order. *)
Definition same_dict {V : Type} (d d' : dict V) : Prop :=
  NoDup (dict_keys d) /\ Permutation d d'.

(** A record with its entries in another order. *)
Definition reordered (item item' : Value) : Prop :=
  match item, item' with
  | VDict items, VDict items' => Permutation items items'
  | _, _ => item = item'
  end.

(** The same outcome of formatting, up to the order of the entries of the
    dictionaries built. *)
Definition same_state (r r' : res (dict string * dict nat)) : Prop :=
  match r, r' with
  | Ok (formatted_row, widths), Ok (formatted_row', widths') =>
      same_dict formatted_row formatted_row' /\ same_dict widths widths'
  | Raise e, Raise e' => e = e'
  | _, _ => False
  end.

Definition same_table (r r' : res (list (dict string) * dict nat)) : Prop :=
  match r, r' with
  | Ok (formatted_values, widths), Ok (formatted_values', widths') =>
      Forall2 same_dict formatted_values formatted_values'
      /\ same_dict widths widths'
  | Raise e, Raise e' => e = e'
  | _, _ => False
  end.

(** A text of ASCII characters only. *)
Definition ascii_text (s : string) : bool :=
  all_chars (fun c => (code c <? 128)%nat) s.

(** The names a layout puts in the header: its columns, and the field names
    of the records when there is no layout. *)
Definition columns (table_layout : option LayoutSpec) (names : list string)
  : list string :=
  match table_layout with
  | None => names
  | Some (Fields names') => names'
  | Some (Rows horizontal _) => horizontal
  end.

(** The order [sorted] puts the items of a dictionary in: by key. *)
Definition key_le {V : Type} (x y : string * V) : Prop :=
  String.leb (fst x) (fst y) = true.

End Reading.

(** * Properties *)

(** ** Strings and the runtime model *)

Module PyFacts.
Import Py.

Ltac ascii_cases c := destruct c as [[] [] [] [] [] [] [] []].

Lemma app_empty_r (s : string) : s ++ EmptyString = s.
Proof. induction s as [|c s IH]; simpl; [reflexivity | now rewrite IH]. Qed.

Lemma app_assoc (a b c : string) : (a ++ b) ++ c = a ++ (b ++ c).
Proof. induction a as [|x a IH]; simpl; [reflexivity | now rewrite IH]. Qed.

Lemma length_app (a b : string) :
  String.length (a ++ b) = String.length a + String.length b.
Proof. induction a as [|x a IH]; simpl; [reflexivity | now rewrite IH]. Qed.

Lemma length_repeat_char (c : ascii) (n : nat) :
  String.length (repeat_char c n) = n.
Proof. induction n as [|n IH]; simpl; [reflexivity | now rewrite IH]. Qed.

Lemma length_ljust (s : string) (w : nat) :
  String.length (ljust s w) = Nat.max (String.length s) w.
Proof. unfold ljust. rewrite length_app, length_repeat_char. lia. Qed.

Lemma ljust_empty (w : nat) : ljust EmptyString w = repeat_char " " w.
Proof. unfold ljust. simpl. now rewrite Nat.sub_0_r. Qed.

Lemma is_empty_true (s : string) : is_empty s = true -> s = EmptyString.
Proof. destruct s; simpl; [reflexivity | discriminate]. Qed.

Lemma all_chars_app (p : ascii -> bool) (a b : string) :
  all_chars p (a ++ b) = all_chars p a && all_chars p b.
Proof.
  induction a as [|c a IH]; simpl; [reflexivity|].
  now rewrite IH, andb_assoc.
Qed.

Lemma all_chars_weaken (p q : ascii -> bool) (s : string) :
  (forall c, p c = true -> q c = true) ->
  all_chars p s = true -> all_chars q s = true.
Proof.
  intros Hpq. induction s as [|c s IH]; simpl; [reflexivity|].
  intros H. apply andb_true_iff in H as [Hc Hs].
  now rewrite (Hpq _ Hc), IH.
Qed.

Lemma has_shape_all (q : ascii -> bool) (shape : list (ascii -> bool)) :
  Forall (fun p => forall c, p c = true -> q c = true) shape ->
  forall s, has_shape shape s = true -> all_chars q s = true.
Proof.
  induction 1 as [|p shape Hp _ IH]; intros [|c s]; simpl;
    try reflexivity; try discriminate.
  intros H. apply andb_true_iff in H as [Hc Hs].
  now rewrite (Hp _ Hc), IH.
Qed.

(** *** [endswith], [in] and [split] *)

Lemma endswith_refl (s : string) : endswith s s = true.
Proof.
  destruct s as [|c s]; [reflexivity|].
  cbn [endswith]. now rewrite String.eqb_refl.
Qed.

Lemma endswith_app (a suffix : string) : endswith (a ++ suffix) suffix = true.
Proof.
  induction a as [|c a IH]; simpl.
  - apply endswith_refl.
  - rewrite IH. apply orb_true_r.
Qed.

Lemma endswith_nonempty (s suffix : string) :
  endswith s suffix = true -> is_empty suffix = false -> is_empty s = false.
Proof. destruct s; simpl; [congruence | reflexivity]. Qed.

Lemma contains_char_app (c : ascii) (a b : string) :
  contains_char c (a ++ b) = contains_char c a || contains_char c b.
Proof.
  induction a as [|x a IH]; simpl; [reflexivity|].
  now rewrite IH, orb_assoc.
Qed.

Lemma contains_char_all (c : ascii) (s : string) :
  all_chars (fun a => negb (Ascii.eqb a c)) s = true ->
  contains_char c s = false.
Proof.
  induction s as [|a s IH]; simpl; [reflexivity|].
  intros H. apply andb_true_iff in H as [Ha Hs].
  apply negb_true_iff in Ha. now rewrite Ha, IH.
Qed.

(** [split1] cuts at the first occurrence of the separator. *)
Lemma split1_first (c : ascii) (before rest : string) :
  contains_char c before = false ->
  split1 c (before ++ String c rest) = (before, Some rest).
Proof.
  induction before as [|a before IH]; simpl.
  - now rewrite Ascii.eqb_refl.
  - intros H. apply orb_false_iff in H as [Ha Hb].
    now rewrite Ha, (IH Hb).
Qed.

Lemma split1_absent (c : ascii) (s : string) :
  contains_char c s = false -> split1 c s = (s, None).
Proof.
  induction s as [|a s IH]; simpl; [reflexivity|].
  intros H. apply orb_false_iff in H as [Ha Hs].
  now rewrite Ha, (IH Hs).
Qed.

(** When the separator occurs, the text splits around its first
    occurrence. *)
Lemma split1_present (c : ascii) (s : string) :
  contains_char c s = true ->
  exists rest,
    split1 c s = (fst (split1 c s), Some rest)
    /\ s = fst (split1 c s) ++ String c rest
    /\ contains_char c (fst (split1 c s)) = false.
Proof.
  induction s as [|a s IH]; simpl; [discriminate|].
  destruct (Ascii.eqb a c) eqn:E.
  - intros _. exists s. apply Ascii.eqb_eq in E. subst a. simpl. auto.
  - simpl. intros H. destruct (IH H) as (rest & H1 & H2 & H3).
    exists rest. destruct (split1 c s) as [before after]. simpl in *.
    inversion H1; subst after. rewrite E. simpl.
    repeat split; congruence.
Qed.

(** *** [json.dumps] on strings *)

Lemma json_escape_safe (c : ascii) :
  json_safe c = true -> json_escape_char c = str1 c.
Proof.
  unfold json_safe, json_escape_char. intros H.
  apply andb_true_iff in H as [H Hq]. apply andb_true_iff in H as [Hr Hb].
  apply negb_true_iff in Hq, Hb. now rewrite Hb, Hq, Hr.
Qed.

Lemma concat_map_safe (s : string) :
  all_chars json_safe s = true -> concat_map json_escape_char s = s.
Proof.
  induction s as [|c s IH]; simpl; [reflexivity|].
  intros H. apply andb_true_iff in H as [Hc Hs].
  now rewrite (json_escape_safe _ Hc), (IH Hs).
Qed.

Lemma json_dumps_str_safe (s : string) :
  all_chars json_safe s = true -> json_dumps_str s = quoted s.
Proof. intros H. unfold json_dumps_str. now rewrite concat_map_safe. Qed.

Lemma digit_timestamp_char (c : ascii) :
  is_digit c = true -> timestamp_char c = true.
Proof. ascii_cases c; vm_compute; congruence. Qed.

Lemma iso_seconds_chars (whole : string) :
  is_iso_seconds whole = true -> all_chars timestamp_char whole = true.
Proof.
  apply has_shape_all. unfold iso_seconds.
  repeat (apply Forall_cons; [
    first [ exact digit_timestamp_char
          | intros c Hc; apply Ascii.eqb_eq in Hc; subst c; reflexivity ] |]).
  apply Forall_nil.
Qed.

Lemma timestamp_chars_safe (s : string) :
  all_chars timestamp_char s = true -> all_chars json_safe s = true.
Proof.
  apply all_chars_weaken. unfold timestamp_char. intros c H.
  now apply andb_true_iff in H as [H _].
Qed.

Lemma timestamp_chars_no_dot (s : string) :
  all_chars timestamp_char s = true -> contains_char "." s = false.
Proof.
  intros H. apply contains_char_all. revert H. apply all_chars_weaken.
  unfold timestamp_char. intros c H.
  now apply andb_true_iff in H as [_ H].
Qed.

(** *** The error monad *)

Lemma mapM_ok {A B : Type} (f : A -> res B) (l : list A) :
  Forall (fun a => exists b, f a = Ok b) l ->
  exists bs, mapM f l = Ok bs /\ List.length bs = List.length l.
Proof.
  induction 1 as [|a l [b Hb] _ (bs & Hbs & Hlen)]; simpl.
  - now exists [].
  - rewrite Hb, Hbs. simpl. exists (b :: bs). simpl. auto.
Qed.

Lemma mapM_pure {A B : Type} (f : A -> res B) (g : A -> B) (l : list A) :
  Forall (fun a => f a = Ok (g a)) l -> mapM f l = Ok (map g l).
Proof.
  induction 1 as [|a l Ha _ IH]; simpl; [reflexivity|].
  now rewrite Ha, IH.
Qed.

(** *** Values *)

Lemma Value_ind_nested (P : Value -> Prop) :
  P VNone ->
  (forall b, P (VBool b)) ->
  (forall n, P (VInt n)) ->
  (forall text, P (VFloat text)) ->
  (forall s, P (VStr s)) ->
  (forall entries, Forall P entries -> P (VList entries)) ->
  (forall items, Forall (fun kv => P (snd kv)) items -> P (VDict items)) ->
  (forall isoformat, P (VDatetime isoformat)) ->
  forall v, P v.
Proof.
  intros HNone HBool HInt HFloat HStr HList HDict HDatetime.
  fix IH 1. intros [ | b | n | text | s | entries | items | isoformat ];
    [ apply HNone | apply HBool | apply HInt | apply HFloat | apply HStr
    | | | apply HDatetime ].
  - apply HList.
    exact ((fix all (l : list Value) : Forall P l :=
              match l with
              | [] => Forall_nil P
              | x :: l' => Forall_cons x (IH x) (all l')
              end) entries).
  - apply HDict.
    exact ((fix all (l : list (string * Value))
              : Forall (fun kv => P (snd kv)) l :=
              match l with
              | [] => Forall_nil _
              | x :: l' => Forall_cons x (IH (snd x)) (all l')
              end) items).
Qed.

Lemma json_dumps_ok (sort_keys : bool) (v : Value) :
  json_ok v = true -> exists text, json_dumps sort_keys v = Ok text.
Proof.
  induction v as [ | [] | n | text | s | entries IH | items IH | isoformat ]
    using Value_ind_nested; cbn [json_ok json_dumps]; intros Hok;
    try (eexists; reflexivity); try discriminate.
  - assert (H : Forall (fun a => exists b, json_dumps sort_keys a = Ok b)
                       entries).
    { rewrite forallb_forall in Hok. rewrite Forall_forall in *.
      intros x Hx. apply IH; auto. }
    destruct (mapM_ok (json_dumps sort_keys) entries H) as (parts & -> & _).
    simpl. eexists; reflexivity.
  - match goal with
    | |- context [mapM ?f items] =>
        assert (H : Forall (fun a => exists b, f a = Ok b) items);
        [ | destruct (mapM_ok f items H) as (parts & -> & _) ]
    end.
    { rewrite forallb_forall in Hok. rewrite Forall_forall in *.
      intros [k x] Hx. destruct (IH _ Hx (Hok _ Hx)) as [body Hbody].
      simpl in Hbody. rewrite Hbody. simpl. eexists; reflexivity. }
    simpl. eexists; reflexivity.
Qed.

(** *** Dictionaries *)

Section DictFacts.
Context {V : Type}.
Implicit Types (d : dict V) (k : string) (v : V).

Lemma dict_get_set_same d k v : dict_get (dict_set d k v) k = Some v.
Proof.
  induction d as [|[k' v'] d IH]; simpl.
  - now rewrite String.eqb_refl.
  - destruct (String.eqb k' k) eqn:E; simpl; now rewrite E.
Qed.

Lemma dict_get_set_other d k k' v :
  k <> k' -> dict_get (dict_set d k v) k' = dict_get d k'.
Proof.
  intros Hne. induction d as [|[k0 v0] d IH]; simpl.
  - apply String.eqb_neq in Hne. now rewrite Hne.
  - destruct (String.eqb k0 k) eqn:E; simpl.
    + apply String.eqb_eq in E. subst k0.
      apply String.eqb_neq in Hne. now rewrite Hne.
    + now rewrite IH.
Qed.

Lemma dict_keys_set d k v k' :
  In k' (dict_keys (dict_set d k v)) <-> k' = k \/ In k' (dict_keys d).
Proof.
  unfold dict_keys. induction d as [|[k0 v0] d IH]; simpl.
  - intuition.
  - destruct (String.eqb k0 k) eqn:E; simpl.
    + apply String.eqb_eq in E. subst k0. intuition.
    + rewrite IH. intuition.
Qed.

Lemma dict_keys_set_NoDup d k v :
  NoDup (dict_keys d) -> NoDup (dict_keys (dict_set d k v)).
Proof.
  unfold dict_keys. induction d as [|[k0 v0] d IH]; simpl; intros Hnd.
  - constructor; [intros [] | constructor].
  - inversion Hnd as [|? ? Hnotin Hnd']; subst.
    destruct (String.eqb k0 k) eqn:E; simpl.
    + now constructor.
    + constructor; [|now apply IH].
      intros Hin. apply (dict_keys_set d k v k0) in Hin as [->|Hin].
      * now rewrite String.eqb_refl in E.
      * contradiction.
Qed.

Lemma dict_get_In d k : In k (dict_keys d) <-> dict_get d k <> None.
Proof.
  unfold dict_keys. induction d as [|[k0 v0] d IH]; simpl.
  - intuition.
  - destruct (String.eqb k0 k) eqn:E.
    + apply String.eqb_eq in E. split; [discriminate | auto].
    + apply String.eqb_neq in E. rewrite <- IH. intuition.
Qed.

Lemma dict_item_present d k :
  In k (dict_keys d) -> exists v, dict_get d k = Some v /\ dict_item d k = Ok v.
Proof.
  intros Hin. apply dict_get_In in Hin. unfold dict_item.
  destruct (dict_get d k) as [v|]; [eauto | contradiction].
Qed.
End DictFacts.

(** *** [sorted] *)

Lemma insert_sorted_In (k x : string) (l : list string) :
  In x (insert_sorted k l) <-> x = k \/ In x l.
Proof.
  induction l as [|y l IH]; simpl.
  - intuition.
  - destruct (String.leb k y); simpl; [intuition|].
    rewrite IH. intuition.
Qed.

Lemma sorted_In (x : string) (l : list string) : In x (sorted l) <-> In x l.
Proof.
  induction l as [|y l IH]; simpl; [reflexivity|].
  rewrite insert_sorted_In, IH. intuition.
Qed.

Lemma insert_sorted_NoDup (k : string) (l : list string) :
  ~ In k l -> NoDup l -> NoDup (insert_sorted k l).
Proof.
  induction l as [|y l IH]; simpl; intros Hk Hnd.
  - constructor; [intros [] | constructor].
  - destruct (String.leb k y).
    + constructor; [simpl; intuition | assumption].
    + inversion Hnd; subst. constructor.
      * rewrite insert_sorted_In. intuition.
      * apply IH; intuition.
Qed.

Lemma sorted_NoDup (l : list string) : NoDup l -> NoDup (sorted l).
Proof.
  induction 1 as [|x l Hx _ IH]; simpl; [constructor|].
  apply insert_sorted_NoDup; [|assumption]. now rewrite sorted_In.
Qed.

Lemma insert_sorted_Sorted (k : string) (l : list string) :
  Sorted le_str l -> Sorted le_str (insert_sorted k l).
Proof.
  induction 1 as [|y l Hs IH Hhd]; simpl.
  - repeat constructor.
  - destruct (String.leb k y) eqn:E.
    + repeat constructor; assumption.
    + constructor; [assumption|].
      assert (Hyk : le_str y k).
      { destruct (String.leb_total k y) as [H|H]; [congruence | exact H]. }
      destruct l as [|z l]; simpl in *.
      * now constructor.
      * destruct (String.leb k z); constructor; trivial.
        now inversion Hhd.
Qed.

Lemma sorted_Sorted (l : list string) : Sorted le_str (sorted l).
Proof.
  induction l as [|x l IH]; simpl; [constructor|].
  now apply insert_sorted_Sorted.
Qed.

Lemma le_str_lt (a b : string) : le_str a b -> a <> b -> lt_str a b.
Proof.
  unfold le_str, lt_str, String.leb, String.ltb. intros Hle Hne.
  destruct (String.compare a b) eqn:E; try reflexivity; try discriminate.
  now apply String.compare_eq_iff in E.
Qed.

(** Sorting names that differ puts them in strictly increasing order. *)
Lemma sorted_strict (l : list string) : NoDup l -> Sorted lt_str (sorted l).
Proof.
  intros Hnd. apply sorted_NoDup in Hnd.
  pose proof (sorted_Sorted l) as Hs.
  induction Hs as [|x l' Hs IH Hhd]; [constructor|].
  inversion Hnd as [|? ? Hx Hnd']; subst.
  constructor; [now apply IH|].
  destruct Hhd as [|y l' Hxy]; constructor.
  apply le_str_lt; [assumption|]. intros ->. apply Hx. now left.
Qed.

End PyFacts.

(** ** The renderer *)

Module PrettyFacts.
Import Py PyFacts Pretty.

(** *** [format_item] on strings *)

Lemma plain_or_json_safe (value : string) :
  all_chars json_safe value = true -> plain_or_json value = value.
Proof.
  intros H. unfold plain_or_json.
  now rewrite (json_dumps_str_safe _ H), String.eqb_refl.
Qed.

Lemma plain_or_json_cases (value : string) :
  plain_or_json value = value \/ plain_or_json value = json_dumps_str value.
Proof. unfold plain_or_json. destruct (String.eqb _ _); auto. Qed.

Lemma format_item_unnamed (s : string) :
  format_item None (VStr s) = Ok (plain_or_json s).
Proof.
  unfold plain_or_json. cbn [format_item andb].
  destruct (String.eqb _ _); reflexivity.
Qed.

Lemma format_item_plain (key : option string) (s : string) :
  (endswith s "Z" && contains_char "." s = false) ->
  format_item key (VStr s) = Ok (plain_or_json s).
Proof.
  intros H. unfold plain_or_json. cbn [format_item].
  rewrite <- andb_assoc, H, andb_false_r.
  destruct (String.eqb _ _); reflexivity.
Qed.

Lemma format_item_time (key s : string) :
  endswith key "_time" = true ->
  endswith s "Z" = true ->
  contains_char "." s = true ->
  format_item (Some key) (VStr s)
  = Ok (plain_or_json (fst (split1 "." s) ++ "Z")).
Proof.
  intros Hkey HZ Hdot. unfold plain_or_json. cbn [format_item].
  rewrite (endswith_nonempty _ _ Hkey eq_refl), Hkey, HZ, Hdot.
  cbn [negb andb]. destruct (String.eqb _ _); reflexivity.
Qed.

(** C4.  A string that is an ISO-8601 UTC timestamp with fractional seconds,
    [whole ++ "." ++ fraction ++ "Z"], under a name that ends in [_time], is
    rendered as [whole ++ "Z"]: everything from the dot up to the final [Z]
    is dropped and the [Z] is put back.  A timestamp without a fraction,
    [whole ++ "Z"], is rendered unchanged. *)
Theorem timestamp_truncation (key whole fraction : string) :
  endswith key "_time" = true ->
  is_iso_seconds whole = true ->
  is_fraction fraction = true ->
  format_item (Some key) (VStr (whole ++ "." ++ fraction ++ "Z"))
  = Ok (whole ++ "Z")
  /\ format_item (Some key) (VStr (whole ++ "Z")) = Ok (whole ++ "Z").
Proof.
  intros Hkey Hwhole _.
  pose proof (iso_seconds_chars _ Hwhole) as Hchars.
  pose proof (timestamp_chars_no_dot _ Hchars) as Hnodot.
  assert (Hsafe : all_chars json_safe (whole ++ "Z") = true).
  { rewrite all_chars_app, (timestamp_chars_safe _ Hchars). reflexivity. }
  split.
  - rewrite format_item_time; trivial.
    + change ("." ++ fraction ++ "Z") with (String "." (fraction ++ "Z")).
      rewrite (split1_first _ _ _ Hnodot). cbn [fst].
      now rewrite plain_or_json_safe.
    + change (whole ++ "." ++ fraction ++ "Z")
        with (whole ++ ("." ++ fraction) ++ "Z").
      rewrite <- app_assoc. apply endswith_app.
    + rewrite contains_char_app. cbn. apply orb_true_r.
  - rewrite format_item_plain.
    + now rewrite plain_or_json_safe.
    + rewrite contains_char_app, Hnodot. apply andb_false_r.
Qed.

Lemma timestamp_truncation_witness :
  format_item (Some "create_time") (VStr "2020-01-01T00:00:00.123456Z")
  = Ok "2020-01-01T00:00:00Z"
  /\ format_item (Some "create_time") (VStr "2020-01-01T00:00:00Z")
     = Ok "2020-01-01T00:00:00Z".
Proof.
  apply (timestamp_truncation "create_time" "2020-01-01T00:00:00" "123456");
    reflexivity.
Defined.

(** C10.  Truncation looks at the name and at a coarse shape only: under a
    key that ends in [_time], any string that ends in [Z] and contains a dot
    is cut at its first dot and gets [Z] appended, then shown as a string
    without a key would be.  Without a key nothing is cut: a string is shown
    whole, verbatim or JSON-encoded; the entries of a sequence are formatted
    without a key whatever the key of the sequence; list mode formats every
    element without a key. *)
Theorem truncation_by_name_and_shape :
  (forall key s : string,
      endswith key "_time" = true ->
      endswith s "Z" = true ->
      contains_char "." s = true ->
      exists before rest : string,
        s = before ++ "." ++ rest
        /\ contains_char "." before = false
        /\ format_item (Some key) (VStr s)
           = format_item None (VStr (before ++ "Z")))
  /\ (forall s : string,
         format_item None (VStr s) = Ok (plain_or_json s)
         /\ (plain_or_json s = s \/ plain_or_json s = json_dumps_str s))
  /\ (forall (key : option string) (entries : list Value),
         format_item key (VList entries)
         = (parts <- mapM (format_item None) entries ;; Ok (join ", " parts)))
  /\ (forall (fnmatch : string -> string -> bool) (first : Value)
             (rest : list Value) (drop_fields : list string)
             (table_layout : option LayoutSpec),
         is_dict first = false ->
         print_table fnmatch (first :: rest) drop_fields table_layout
         = mapM (format_item None) (first :: rest)).
Proof.
  repeat split.
  - intros key s Hkey HZ Hdot.
    destruct (split1_present _ _ Hdot) as (rest & _ & Hs & Hbefore).
    exists (fst (split1 "." s)), rest. repeat split; trivial.
    rewrite format_item_unnamed. now apply format_item_time.
  - apply format_item_unnamed.
  - apply plain_or_json_cases.
  - intros fnmatch first rest drop_fields table_layout Hfirst.
    unfold print_table. now rewrite Hfirst.
Qed.

Lemma truncation_by_name_and_shape_witness :
  (exists before rest : string,
      "not a.timestamp.Z" = before ++ "." ++ rest
      /\ contains_char "." before = false
      /\ format_item (Some "x_time") (VStr "not a.timestamp.Z")
         = format_item None (VStr (before ++ "Z")))
  /\ print_table fnmatch_glob [VStr "1.5Z"; VList [VStr "2.5Z"]] [] None
     = mapM (format_item None) [VStr "1.5Z"; VList [VStr "2.5Z"]].
Proof.
  split.
  - apply (proj1 truncation_by_name_and_shape "x_time" "not a.timestamp.Z");
      reflexivity.
  - apply (proj2 (proj2 (proj2 truncation_by_name_and_shape))). reflexivity.
Defined.

(** *** Formatting the records *)

Lemma format_item_ok (key : option string) (v : Value) :
  formattable v = true -> exists text, format_item key v = Ok text.
Proof.
  revert key.
  induction v as [ | [] | n | text | s | entries IH | items _ | isoformat ]
    using Value_ind_nested; intros key Hok; cbn [format_item json_dumps];
    try (eexists; reflexivity).
  - destruct (String.eqb _ _); eexists; reflexivity.
  - assert (H : Forall (fun a => exists b, format_item None a = Ok b) entries).
    { cbn [formattable] in Hok. rewrite forallb_forall in Hok.
      rewrite Forall_forall in *. intros x Hx. apply IH; auto. }
    destruct (mapM_ok (format_item None) entries H) as (parts & -> & _).
    simpl. eexists; reflexivity.
  - apply (json_dumps_ok true (VDict items)). exact Hok.
Qed.

Lemma format_fields_ok (fields : list (string * Value)) :
  Forall (fun kv => formattable (snd kv) = true) fields ->
  forall (formatted_row : dict string) (widths : dict nat),
  exists formatted_row' widths',
    foldM format_field fields (formatted_row, widths)
    = Ok (formatted_row', widths')
    /\ (forall f, In f (dict_keys formatted_row')
                  <-> In f (dict_keys formatted_row) \/ In f (map fst fields))
    /\ (forall f, In f (dict_keys widths')
                  <-> In f (dict_keys widths) \/ In f (map fst fields))
    /\ (NoDup (dict_keys widths) -> NoDup (dict_keys widths'))
    /\ (positive widths -> positive widths').
Proof.
  induction 1 as [|[subkey subvalue] fields Hv _ IH]; intros row widths.
  - exists row, widths. simpl. intuition.
  - cbn [foldM format_field]. simpl in Hv.
    destruct (format_item_ok (Some subkey) subvalue Hv) as [text ->].
    cbn [bind].
    match goal with
    | |- context [foldM _ _ (?r, ?w)] =>
        destruct (IH r w) as (row' & widths' & Hrun & Hrow & Hw & Hnd & Hpos)
    end.
    exists row', widths'. split; [exact Hrun|].
    split; [|split; [|split]].
    + intros f. rewrite Hrow, dict_keys_set. simpl. intuition.
    + intros f. rewrite Hw, dict_keys_set. simpl. intuition.
    + intros H. apply Hnd. now apply dict_keys_set_NoDup.
    + intros H. apply Hpos. intros f w.
      destruct (string_dec subkey f) as [->|Hne].
      * rewrite dict_get_set_same. intros [= <-].
        destruct (dict_get widths f) as [w0|] eqn:E; [|lia].
        specialize (H _ _ E). lia.
      * rewrite dict_get_set_other by assumption. apply H.
Qed.

Lemma format_records_ok (drop_fields : list string) (result : list Value) :
  Forall (fun item => record_ok drop_fields item = true) result ->
  forall widths : dict nat,
  exists formatted_values widths',
    format_records drop_fields result widths = Ok (formatted_values, widths')
    /\ Forall2 (row_of drop_fields) result formatted_values
    /\ (forall f, In f (dict_keys widths')
                  <-> In f (dict_keys widths)
                      \/ In f (field_names drop_fields result))
    /\ (NoDup (dict_keys widths) -> NoDup (dict_keys widths'))
    /\ (positive widths -> positive widths').
Proof.
  induction 1 as [|item result Hitem _ IH]; intros widths.
  - exists [], widths. simpl. repeat split; try constructor; intuition.
  - unfold record_ok in Hitem. apply andb_true_iff in Hitem as [Hdict Hfields].
    destruct item as [ | | | | | | items | ]; try discriminate.
    cbn [format_records format_record].
    cbn [record_fields] in Hfields.
    rewrite forallb_forall in Hfields.
    assert (Hall : Forall (fun kv => formattable (snd kv) = true)
                          (item_fields drop_fields items))
      by now apply Forall_forall.
    destruct (format_fields_ok _ Hall [] widths)
      as (row & widths1 & -> & Hrow & Hw1 & Hnd1 & Hpos1).
    cbn [bind].
    destruct (IH widths1) as (rows & widths2 & -> & Hrows & Hw2 & Hnd2 & Hpos2).
    cbn [bind]. exists (row :: rows), widths2. split; [reflexivity|].
    split; [|split; [|split]].
    + constructor; [|exact Hrows]. intros f. rewrite Hrow. simpl. intuition.
    + intros f. rewrite Hw2, Hw1. unfold field_names. cbn [flat_map record_fields].
      rewrite map_app, in_app_iff. intuition.
    + auto.
    + auto.
Qed.

(** *** The lines of a table *)

(** *** Blank lines *)

Lemma join_nonempty (sep first : string) (others : list string) :
  is_empty first = false -> is_empty (join sep (first :: others)) = false.
Proof.
  intros H. unfold join. cbn [String.concat].
  destruct first; [discriminate|]. destruct others; reflexivity.
Qed.

Lemma is_empty_length (s : string) : 1 <= String.length s -> is_empty s = false.
Proof. destruct s; simpl; [lia | reflexivity]. Qed.

Lemma width_of_positive (widths : dict nat) (f : string) :
  positive widths -> In f (dict_keys widths) -> 1 <= width_of widths f.
Proof.
  intros Hpos Hin. unfold width_of.
  destruct (dict_item_present widths f Hin) as (w & Hget & _).
  rewrite Hget. exact (Hpos _ _ Hget).
Qed.

Lemma cells_nonempty (widths : dict nat) (cell : string -> nat -> string)
      (fields : list string) :
  positive widths ->
  (forall f, In f fields -> In f (dict_keys widths)) ->
  (forall f w, 1 <= w -> 1 <= String.length (cell f w)) ->
  fields <> [] ->
  is_empty (join "  " (map (fun f => cell f (width_of widths f)) fields))
  = false.
Proof.
  intros Hpos Hin Hcell Hne. destruct fields as [|f fields]; [congruence|].
  cbn [map]. apply join_nonempty, is_empty_length, Hcell.
  apply width_of_positive; [assumption|]. apply Hin. now left.
Qed.

Lemma blank_lines_app (a b : list string) :
  blank_lines (a ++ b) = blank_lines a + blank_lines b.
Proof. unfold blank_lines. now rewrite filter_app, List.length_app. Qed.

Lemma blank_lines_none (lines : list string) :
  Forall (fun line => is_empty line = false) lines -> blank_lines lines = 0.
Proof.
  unfold blank_lines. induction 1 as [|line lines Hline _ IH]; simpl.
  - reflexivity.
  - now rewrite Hline.
Qed.

Lemma blank_lines_gaps (blocks : list (list string)) :
  Forall (Forall (fun line => is_empty line = false)) blocks ->
  blank_lines (flat_map (fun b => [EmptyString] ++ b)%list blocks)
  = List.length blocks.
Proof.
  induction 1 as [|b bs Hb _ IH]; [reflexivity|].
  cbn [flat_map List.length]. rewrite blank_lines_app, IH.
  change ([EmptyString] ++ b)%list with (EmptyString :: b).
  unfold blank_lines at 1. cbn [filter is_empty List.length].
  fold (blank_lines b). now rewrite (blank_lines_none _ Hb).
Qed.

(** Between blocks without blank lines, [separated] puts one blank line per
    block after the first. *)
Lemma blank_lines_separated (blocks : list (list string)) :
  Forall (Forall (fun line => is_empty line = false)) blocks ->
  blank_lines (separated [EmptyString] blocks) = List.length blocks - 1.
Proof.
  destruct 1 as [|block blocks Hblock Hblocks]; [reflexivity|].
  cbn [separated]. rewrite blank_lines_app, blank_lines_gaps by assumption.
  rewrite (blank_lines_none _ Hblock). simpl. lia.
Qed.

Lemma separated_no_gap {A B : Type} (line : A -> B) (l : list A) :
  separated [] (map (fun a => [line a]) l) = map line l.
Proof.
  destruct l as [|a l]; [reflexivity|]. cbn [map separated app].
  f_equal. induction l as [|b l IH]; simpl; [reflexivity | now rewrite IH].
Qed.

Section TableFacts.

Variable fnmatch : string -> string -> bool.

Lemma flat_map_map {A B C : Type} (f : B -> list C) (g : A -> B)
      (l : list A) :
  flat_map f (map g l) = flat_map (fun x => f (g x)) l.
Proof. induction l as [|x l IH]; simpl; [reflexivity | now rewrite IH]. Qed.

Lemma cells_ok (widths : dict nat) (cell : string -> nat -> string)
      (fields : list string) :
  (forall f, In f fields -> In f (dict_keys widths)) ->
  cells widths cell fields
  = Ok (join "  " (map (fun f => cell f (width_of widths f)) fields)).
Proof.
  intros H. unfold cells.
  rewrite (mapM_pure _ (fun f => cell f (width_of widths f))); [reflexivity|].
  apply Forall_forall. intros f Hf.
  destruct (dict_item_present widths f (H f Hf)) as (w & Hget & ->).
  unfold width_of. now rewrite Hget.
Qed.

Lemma print_rows_later (widths : dict nat) (horizontal vertical : list string)
      (width : nat) (formatted_values : list (dict string)) :
  (forall f, In f horizontal -> In f (dict_keys widths)) ->
  forall row_num,
    print_rows fnmatch widths horizontal vertical width (S row_num)
               formatted_values
    = Ok (flat_map (fun formatted_row =>
                      gap vertical
                      ++ record_block fnmatch widths horizontal vertical width
                                      formatted_row)%list
                   formatted_values).
Proof.
  intros H. induction formatted_values as [|row rows IH]; intros row_num.
  - reflexivity.
  - cbn [print_rows flat_map]. rewrite (cells_ok _ _ _ H). cbn [bind].
    rewrite IH. cbn [bind]. unfold gap, record_block, data_line.
    destruct (is_nil vertical); reflexivity.
Qed.

Lemma print_rows_first (widths : dict nat) (horizontal vertical : list string)
      (width : nat) (formatted_values : list (dict string)) :
  (forall f, In f horizontal -> In f (dict_keys widths)) ->
  print_rows fnmatch widths horizontal vertical width 0 formatted_values
  = Ok (separated (gap vertical)
          (map (record_block fnmatch widths horizontal vertical width)
               formatted_values)).
Proof.
  intros H. destruct formatted_values as [|row rows]; [reflexivity|].
  cbn [print_rows map separated]. rewrite (cells_ok _ _ _ H). cbn [bind].
  rewrite print_rows_later by exact H. cbn [bind].
  rewrite andb_false_r, flat_map_map. reflexivity.
Qed.

(** What [print_table] prints for records it can format, when every column
    of the layout names a field of some record. *)
Lemma print_table_shape (first : Value) (rest : list Value)
      (drop_fields : list string) (table_layout : option LayoutSpec) :
  Forall (fun item => record_ok drop_fields item = true) (first :: rest) ->
  exists (formatted_values : list (dict string)) (widths : dict nat),
    format_records drop_fields (first :: rest) [] = Ok (formatted_values, widths)
    /\ Forall2 (row_of drop_fields) (first :: rest) formatted_values
    /\ (forall f, In f (dict_keys widths)
                  <-> In f (field_names drop_fields (first :: rest)))
    /\ NoDup (dict_keys widths)
    /\ positive widths
    /\ forall horizontal vertical,
        split_layout match table_layout with
                     | None => Fields (sorted (dict_keys widths))
                     | Some layout => layout
                     end = Ok (horizontal, vertical) ->
        (forall f, In f horizontal ->
                   In f (field_names drop_fields (first :: rest))) ->
        print_table fnmatch (first :: rest) drop_fields table_layout
        = Ok (header_line widths horizontal
              :: underline widths horizontal
              :: separated (gap vertical)
                   (map (record_block fnmatch widths horizontal vertical
                           (vertical_width fnmatch (last formatted_values [])
                                           vertical))
                        formatted_values)).
Proof.
  intros Hall.
  destruct (format_records_ok _ _ Hall []) as (rows & widths & Hrun & Hrows & Hw
                                           & Hnd & Hpos).
  exists rows, widths. split; [exact Hrun|]. split; [exact Hrows|].
  assert (Hkeys : forall f, In f (dict_keys widths)
                            <-> In f (field_names drop_fields (first :: rest))).
  { intros f. rewrite Hw. simpl. intuition. }
  split; [exact Hkeys|]. split; [apply Hnd; constructor|].
  split; [apply Hpos; intros f w; discriminate|].
  intros horizontal vertical Hlayout Hfields.
  assert (Hin : forall f, In f horizontal -> In f (dict_keys widths)).
  { intros f Hf. apply Hkeys. auto. }
  unfold print_table.
  inversion Hall as [|? ? Hfirst _]; subst.
  unfold record_ok in Hfirst. apply andb_true_iff in Hfirst as [-> _].
  cbn [negb]. rewrite Hrun. cbn [bind]. rewrite Hlayout. cbn [bind].
  rewrite !(cells_ok _ _ _ Hin). cbn [bind].
  rewrite print_rows_first by exact Hin. reflexivity.
Qed.

Lemma split_layout_fits (table_layout : option LayoutSpec)
      (names : list string) (widths : dict nat) :
  layout_fits table_layout names ->
  (forall f, In f (dict_keys widths) <-> In f names) ->
  exists horizontal vertical,
    split_layout match table_layout with
                 | None => Fields (sorted (dict_keys widths))
                 | Some layout => layout
                 end = Ok (horizontal, vertical)
    /\ (forall f, In f horizontal -> In f names)
    /\ (table_layout = None ->
        horizontal = sorted (dict_keys widths) /\ vertical = [])
    /\ (forall h v, table_layout = Some (Rows h v) ->
                    horizontal = h /\ vertical = v).
Proof.
  intros Hfits Hkeys.
  destruct table_layout as [[columns|h v]|]; cbn [layout_fits] in Hfits.
  - destruct Hfits as [Hne Hincl]. exists columns, [].
    destruct columns; [congruence|]. repeat split; try discriminate.
    exact Hincl.
  - exists h, v. repeat split; try discriminate; try congruence.
    exact Hfits.
  - exists (sorted (dict_keys widths)), [].
    destruct names as [|f names]; [congruence|].
    assert (Hf : In f (sorted (dict_keys widths))).
    { apply sorted_In, Hkeys. now left. }
    cbn [split_layout].
    destruct (sorted (dict_keys widths)) as [|g gs] eqn:E; [destruct Hf|].
    repeat split; try discriminate.
    intros x Hx. apply Hkeys. apply (sorted_In x (dict_keys widths)).
    now rewrite E.
Qed.



(** C5 (as amended).  Without a layout, a non-empty list of records that have
    a field is printed as a table: a header row with all distinct flattened
    field names in strictly increasing (alphabetical) order, a row of [=]
    under it, then one row per record and nothing else, no blank line and no
    [key = value] line. *)
Theorem default_layout_is_a_table (first : Value) (rest : list Value)
        (drop_fields : list string) :
  Forall (fun item => record_ok drop_fields item = true) (first :: rest) ->
  field_names drop_fields (first :: rest) <> [] ->
  exists names formatted_values widths,
    format_records drop_fields (first :: rest) [] = Ok (formatted_values, widths)
    /\ Sorted lt_str names
    /\ (forall f, In f names
                  <-> In f (field_names drop_fields (first :: rest)))
    /\ Forall2 (row_of drop_fields) (first :: rest) formatted_values
    /\ print_table fnmatch (first :: rest) drop_fields None
       = Ok (header_line widths names
             :: underline widths names
             :: map (data_line widths names) formatted_values).
Proof.
  intros Hall Hne.
  destruct (print_table_shape _ _ _ None Hall)
    as (rows & widths & Hrun & Hrows & Hkeys & Hnd & _ & Hprint).
  destruct (split_layout_fits None _ _ Hne Hkeys)
    as (horizontal & vertical & Hlayout & Hincl & Hdefault & _).
  destruct (Hdefault eq_refl) as [-> ->].
  exists (sorted (dict_keys widths)), rows, widths.
  split; [exact Hrun|]. split; [now apply sorted_strict|].
  split; [intros f; rewrite sorted_In; apply Hkeys|].
  split; [exact Hrows|].
  rewrite (Hprint _ _ Hlayout Hincl). unfold record_block, gap.
  cbn [is_nil vertical_block flat_map]. now rewrite separated_no_gap.
Qed.

Lemma vertical_block_nonblank (width : nat) (vertical : list string)
      (formatted_row : dict string) :
  Forall (fun line => is_empty line = false)
         (vertical_block fnmatch width vertical formatted_row).
Proof.
  unfold vertical_block. apply Forall_forall. intros line Hline.
  apply in_flat_map in Hline as (vf & _ & Hline).
  apply in_flat_map in Hline as ([key value] & _ & Hline).
  destruct (fnmatch key vf); [|destruct Hline].
  destruct Hline as [<-|[]]. reflexivity.
Qed.

(** C8.  With vertical rows in the layout, the output is the header, the
    row of [=], then one block per record (its table row followed by its
    detail lines), with one blank line before the block of every record after
    the first.  The detail lines are never blank and, when the table has a
    column, neither are the table rows: the blank lines of the output are
    these separators, one fewer than there are records; for two records,
    exactly one, between the two blocks. *)
Theorem one_blank_line_between_records (first : Value) (rest : list Value)
        (drop_fields : list string) (horizontal vertical : list string) :
  Forall (fun item => record_ok drop_fields item = true) (first :: rest) ->
  incl horizontal (field_names drop_fields (first :: rest)) ->
  vertical <> [] ->
  exists formatted_values widths width,
    format_records drop_fields (first :: rest) [] = Ok (formatted_values, widths)
    /\ Forall2 (row_of drop_fields) (first :: rest) formatted_values
    /\ print_table fnmatch (first :: rest) drop_fields
                   (Some (Rows horizontal vertical))
       = Ok (header_line widths horizontal
             :: underline widths horizontal
             :: separated [EmptyString]
                  (map (fun formatted_row =>
                          data_line widths horizontal formatted_row
                          :: vertical_block fnmatch width vertical
                                            formatted_row)
                       formatted_values))
    /\ Forall (fun formatted_row =>
                 Forall (fun line => is_empty line = false)
                        (vertical_block fnmatch width vertical formatted_row))
              formatted_values
    /\ (horizontal <> [] ->
        forall lines,
          print_table fnmatch (first :: rest) drop_fields
                      (Some (Rows horizontal vertical)) = Ok lines ->
          blank_lines lines = List.length rest).
Proof.
  intros Hall Hincl Hvert.
  destruct (print_table_shape _ _ _ (Some (Rows horizontal vertical)) Hall)
    as (rows & widths & Hrun & Hrows & Hkeys & _ & Hpos & Hprint).
  specialize (Hprint horizontal vertical eq_refl Hincl).
  assert (Hgap : gap vertical = [EmptyString]).
  { unfold gap. destruct vertical; [congruence | reflexivity]. }
  rewrite Hgap in Hprint.
  exists rows, widths, (vertical_width fnmatch (last rows []) vertical).
  split; [exact Hrun|]. split; [exact Hrows|]. split; [exact Hprint|].
  split; [apply Forall_forall; intros row _; apply vertical_block_nonblank|].
  intros Hhor lines Hlines. rewrite Hprint in Hlines.
  injection Hlines as <-.
  assert (Hin : forall f, In f horizontal -> In f (dict_keys widths)).
  { intros f Hf. apply Hkeys. auto. }
  change (header_line widths horizontal :: underline widths horizontal :: ?l)
    with ([header_line widths horizontal; underline widths horizontal] ++ l)%list.
  rewrite blank_lines_app, blank_lines_separated.
  - rewrite blank_lines_none.
    + rewrite length_map, <- (Forall2_length Hrows). simpl. lia.
    + repeat constructor.
      * apply (cells_nonempty widths (fun f w => ljust (upper f) w)); trivial.
        intros f w Hw. rewrite length_ljust. lia.
      * apply (cells_nonempty widths (fun _ w => repeat_char "=" w)); trivial.
        intros f w Hw. now rewrite length_repeat_char.
  - apply Forall_forall. intros block Hblock.
    apply in_map_iff in Hblock as (row & <- & _).
    constructor; [|apply vertical_block_nonblank].
    apply (cells_nonempty widths (row_cell row)); trivial.
    intros f w Hw. unfold row_cell. rewrite length_ljust. lia.
Qed.

End TableFacts.

(** *** The claims at concrete tables *)



(** C5, counterexample.  Without a layout two records are printed under a
    header and a row of [=]; no line has the form [key = value] and no blank
    line separates the records. *)
Lemma default_layout_prints_a_header :
  let lines := ["A  B"; "=  ="; "1  2"; "3   "] in
  print_table fnmatch_glob
              [VDict [("b", VStr "2"); ("a", VStr "1")]; VDict [("a", VStr "3")]]
              [] None
  = Ok lines
  /\ existsb (contains " = ") lines = false
  /\ blank_lines lines = 0.
Proof. repeat split; reflexivity. Qed.

Lemma default_layout_is_a_table_witness :
  exists names formatted_values widths,
    format_records [] [VDict [("b", VStr "2"); ("a", VStr "1")];
                       VDict [("a", VStr "3")]] []
    = Ok (formatted_values, widths)
    /\ Sorted lt_str names
    /\ (forall f,
           In f names
           <-> In f (field_names []
                       [VDict [("b", VStr "2"); ("a", VStr "1")];
                        VDict [("a", VStr "3")]]))
    /\ Forall2 (row_of [])
               [VDict [("b", VStr "2"); ("a", VStr "1")];
                VDict [("a", VStr "3")]]
               formatted_values
    /\ print_table fnmatch_glob
                   [VDict [("b", VStr "2"); ("a", VStr "1")];
                    VDict [("a", VStr "3")]]
                   [] None
       = Ok (header_line widths names
             :: underline widths names
             :: map (data_line widths names) formatted_values).
Proof.
  apply (default_layout_is_a_table fnmatch_glob).
  - repeat constructor.
  - simpl. discriminate.
Defined.

(** C6, at an input where the code departs from the claim.  The width
    [print_table] aligns the detail lines to is [vertical_width] of the row
    [formatted_row] is still bound to when [longest] runs, the row of the
    last record.  Here the first service has the option
    [user_config.max_connections] and the last one [user_config.ssl]: the
    width used is 3, the longest de-prefixed name over the matched fields of
    all records has 15 characters, and the detail lines are not aligned. *)
Theorem vertical_width_of_last_record :
  let result :=
    [VDict [("service_name", VStr "db1");
            ("user_config", VDict [("max_connections", VInt 5)])];
     VDict [("service_name", VStr "db2");
            ("user_config", VDict [("ssl", VBool true)])]] in
  exists formatted_values widths,
    format_records [] result [] = Ok (formatted_values, widths)
    /\ vertical_width fnmatch_glob (last formatted_values [])
                      ["user_config.*"] = 3
    /\ spec_vertical_width fnmatch_glob formatted_values ["user_config.*"]
       = 15
    /\ print_table fnmatch_glob result []
                   (Some (Rows ["service_name"] ["user_config.*"]))
       = Ok ["SERVICE_NAME"; "============";
             "db1         "; "    max_connections = 5"; EmptyString;
             "db2         "; "    ssl = true"].
Proof.
  eexists. eexists. split; [reflexivity|]. repeat split; reflexivity.
Qed.

Lemma one_blank_line_between_records_witness :
  exists formatted_values widths width,
    format_records []
      [VDict [("id", VStr "1"); ("cfg", VDict [("x", VInt 5)])];
       VDict [("id", VStr "2"); ("cfg", VDict [("x", VInt 1)])]] []
    = Ok (formatted_values, widths)
    /\ Forall2 (row_of [])
            [VDict [("id", VStr "1"); ("cfg", VDict [("x", VInt 5)])];
             VDict [("id", VStr "2"); ("cfg", VDict [("x", VInt 1)])]]
            formatted_values
    /\ print_table fnmatch_glob
                   [VDict [("id", VStr "1"); ("cfg", VDict [("x", VInt 5)])];
                    VDict [("id", VStr "2"); ("cfg", VDict [("x", VInt 1)])]]
                   [] (Some (Rows ["id"] ["cfg.*"]))
       = Ok (header_line widths ["id"]
             :: underline widths ["id"]
             :: separated [EmptyString]
                  (map (fun formatted_row =>
                          data_line widths ["id"] formatted_row
                          :: vertical_block fnmatch_glob width ["cfg.*"]
                                            formatted_row)
                       formatted_values))
    /\ Forall (fun formatted_row =>
                 Forall (fun line => is_empty line = false)
                        (vertical_block fnmatch_glob width ["cfg.*"]
                                        formatted_row))
              formatted_values
    /\ (["id"] <> [] ->
        forall lines,
          print_table fnmatch_glob
                      [VDict [("id", VStr "1"); ("cfg", VDict [("x", VInt 5)])];
                       VDict [("id", VStr "2"); ("cfg", VDict [("x", VInt 1)])]]
                      [] (Some (Rows ["id"] ["cfg.*"])) = Ok lines ->
          blank_lines lines = 1).
Proof.
  apply (one_blank_line_between_records fnmatch_glob).
  - repeat constructor.
  - intros f [<-|[]]. simpl. auto.
  - discriminate.
Defined.

(** The two-record table of C8, printed. *)
Example two_records_one_vertical_row :
  print_table fnmatch_glob
              [VDict [("id", VStr "1"); ("cfg", VDict [("x", VInt 5)])];
               VDict [("id", VStr "2"); ("cfg", VDict [("x", VInt 1)])]]
              [] (Some (Rows ["id"] ["cfg.*"]))
  = Ok ["ID"; "=="; "1 "; "    x = 5"; EmptyString; "2 "; "    x = 1"].
Proof. reflexivity. Qed.

(** *** The examples of the specification *)

Example flattening_nested_record :
  iter_values "a" (VDict [("b", VInt 1); ("c", VInt 2)])
  = [("a.b", VInt 1); ("a.c", VInt 2)].
Proof. reflexivity. Qed.

Example header_and_separator :
  print_table fnmatch_glob [VDict [("a", VInt 1); ("b", VInt 2)]] []
              (Some (Fields ["a"; "b"]))
  = Ok ["A  B"; "=  ="; "1  2"].
Proof. reflexivity. Qed.

Example list_mode :
  print_table fnmatch_glob
              [VStr "plain"; VStr "two words"; VInt 3;
               VList [VBool true; VNone]; VDict [("b", VInt 1); ("a", VStr "x")]]
              [] None
  = Ok ["plain"; "two words"; "3"; "true, null";
        String "{" (quoted "a" ++ ": " ++ quoted "x" ++ ", " ++ quoted "b"
                    ++ ": 1}")].
Proof. reflexivity. Qed.

End PrettyFacts.

(** ** The user-config compiler *)

Module CliFacts.
Import Py PyFacts Cli.

(** *** Paths *)

Lemma split_nonempty (c : ascii) (s : string) : split c s <> [].
Proof.
  induction s as [|a s IH]; simpl; [discriminate|].
  destruct (Ascii.eqb a c); [discriminate|].
  destruct (split c s); discriminate.
Qed.

Lemma split_absent (c : ascii) (s : string) :
  contains_char c s = false -> split c s = [s].
Proof.
  induction s as [|a s IH]; simpl; [reflexivity|].
  intros H. apply orb_false_iff in H as [Ha Hs].
  now rewrite Ha, (IH Hs).
Qed.

Lemma split_last (c : ascii) (prefix segment : string) :
  contains_char c segment = false ->
  split c (prefix ++ String c segment) = (split c prefix ++ [segment])%list.
Proof.
  intros Hseg. induction prefix as [|a prefix IH]; simpl.
  - now rewrite Ascii.eqb_refl, (split_absent _ _ Hseg).
  - destruct (Ascii.eqb a c); rewrite IH; [reflexivity|].
    pose proof (split_nonempty c prefix) as Hne.
    destruct (split c prefix); [congruence | reflexivity].
Qed.

Lemma join_split (c : ascii) (s : string) : join (str1 c) (split c s) = s.
Proof.
  unfold join. induction s as [|a s IH]; [reflexivity|].
  pose proof (split_nonempty c s) as Hne. cbn [split].
  destruct (split c s) as [|w ws]; [congruence|].
  destruct (Ascii.eqb a c) eqn:E.
  - apply Ascii.eqb_eq in E. subst a.
    change (String.concat (str1 c) (EmptyString :: w :: ws))
      with (String c (String.concat (str1 c) (w :: ws))).
    now rewrite IH.
  - rewrite <- IH. destruct ws; reflexivity.
Qed.

Lemma join_cons (sep p : string) (parts : list string) :
  parts <> [] -> join sep (p :: parts) = p ++ sep ++ join sep parts.
Proof. destruct parts; [congruence | reflexivity]. Qed.

Lemma join_last (sep : string) (parts : list string) (x : string) :
  parts <> [] -> join sep (parts ++ [x]) = join sep parts ++ sep ++ x.
Proof.
  induction parts as [|p parts IH]; [congruence|]. intros _.
  destruct parts as [|q parts]; [reflexivity|].
  rewrite <- List.app_comm_cons.
  rewrite join_cons by (intros H; now apply app_eq_nil in H as [H _]).
  rewrite IH by discriminate.
  rewrite (join_cons sep p (q :: parts)) by discriminate.
  now rewrite !app_assoc.
Qed.

(** The generic key replaces the last dotted segment by [KEY]. *)
Lemma generic_key_nested (prefix segment : string) :
  contains_char "." segment = false ->
  generic_key (prefix ++ "." ++ segment) = prefix ++ ".KEY".
Proof.
  intros Hseg. unfold generic_key.
  change (prefix ++ "." ++ segment) with (prefix ++ String "." segment).
  rewrite (split_last _ _ _ Hseg), removelast_last.
  rewrite join_last by apply split_nonempty.
  change "." with (str1 ".") at 1. now rewrite join_split.
Qed.

Lemma generic_key_top (segment : string) :
  contains_char "." segment = false -> generic_key segment = "KEY".
Proof.
  intros Hseg. unfold generic_key. now rewrite (split_absent _ _ Hseg).
Qed.

(** *** One assignment *)

Lemma split_assignment (key value : string) :
  contains_char "=" key = false ->
  split1 "=" (key ++ "=" ++ value) = (key, Some value).
Proof. intros H. now apply split1_first. Qed.

(** C2.  For an assignment [key=value] the key is first looked up as it is
    in the flattened schema; when it is absent, the key with its last dotted
    segment replaced by [KEY] is looked up; when that is absent too, the
    assignment fails with a [UserError] whose message names the key and
    lists the known option paths, joined by commas, or says [none] when that
    list is empty, as it is for an empty schema. *)
Theorem option_lookup (options : dict Schema) (user_config : Value)
        (key value : string) :
  contains_char "=" key = false ->
  (forall opt_schema,
      dict_get options key = Some opt_schema ->
      compile_assignment options user_config (key ++ "=" ++ value)
      = (converted <- convert_option (key ++ "=" ++ value) opt_schema value ;;
         assign user_config (split "." key) converted))
  /\ (forall opt_schema,
         dict_get options key = None ->
         dict_get options (generic_key key) = Some opt_schema ->
         compile_assignment options user_config (key ++ "=" ++ value)
         = (converted <- convert_option (key ++ "=" ++ value) opt_schema value ;;
            assign user_config (split "." key) converted))
  /\ (dict_get options key = None ->
      dict_get options (generic_key key) = None ->
      compile_assignment options user_config (key ++ "=" ++ value)
      = Raise (UserError ("Unsupported option " ++ repr_str key
                          ++ ", available options: "
                          ++ or_none (join ", " (dict_keys options))))
      /\ (options = [] -> or_none (join ", " (dict_keys options)) = "none")
      /\ (is_empty (join ", " (dict_keys options)) = false ->
          or_none (join ", " (dict_keys options))
          = join ", " (dict_keys options)))
  /\ (forall prefix segment,
         key = prefix ++ "." ++ segment ->
         contains_char "." segment = false ->
         generic_key key = prefix ++ ".KEY")
  /\ (contains_char "." key = false -> generic_key key = "KEY").
Proof.
  intros Hkey. pose proof (split_assignment key value Hkey) as Hsplit.
  unfold compile_assignment, find_option. rewrite Hsplit.
  split; [|split; [|split; [|split]]].
  - now intros opt_schema ->.
  - now intros opt_schema -> ->.
  - intros -> ->. split; [reflexivity|]. split.
    + now intros ->.
    + unfold or_none. now intros ->.
  - intros prefix segment -> Hseg. now apply generic_key_nested.
  - apply generic_key_top.
Qed.

Lemma option_lookup_witness :
  contains_char "=" "anything" = false
  /\ compile_assignment [("KEY", Node (TypeName "string") [] [] None)]
                        (VDict []) "anything=val"
     = Ok (VDict [("anything", VStr "val")]).
Proof.
  split; [reflexivity|].
  exact (proj1 (proj2 (option_lookup
                         [("KEY", Node (TypeName "string") [] [] None)]
                         (VDict []) "anything" "val" eq_refl))
               (Node (TypeName "string") [] [] None) eq_refl eq_refl).
Defined.

(** *** Failures *)

Lemma Schema_ind_nested (P : Schema -> Prop) :
  (forall type properties patternProperties items,
      Forall (fun kv => P (snd kv)) properties ->
      Forall (fun kv => P (snd kv)) patternProperties ->
      match items with Some item_schema => P item_schema | None => True end ->
      P (Node type properties patternProperties items)) ->
  forall schema, P schema.
Proof.
  intros HNode. fix IH 1. intros [type properties patternProperties items].
  apply HNode.
  - exact ((fix all (l : list (string * Schema))
              : Forall (fun kv => P (snd kv)) l :=
              match l with
              | [] => Forall_nil _
              | x :: l' => Forall_cons x (IH (snd x)) (all l')
              end) properties).
  - exact ((fix all (l : list (string * Schema))
              : Forall (fun kv => P (snd kv)) l :=
              match l with
              | [] => Forall_nil _
              | x :: l' => Forall_cons x (IH (snd x)) (all l')
              end) patternProperties).
  - destruct items as [item_schema|]; [apply IH | exact I].
Qed.

Lemma mapM_raise {A B : Type} (f : A -> res B) (l : list A) (e : exn) :
  mapM f l = Raise e -> exists a, In a l /\ f a = Raise e.
Proof.
  induction l as [|a l IH]; simpl; [discriminate|].
  destruct (f a) as [b|e'] eqn:E; simpl.
  - destruct (mapM f l) as [bs|e'']; simpl; [discriminate|].
    intros [= <-]. destruct (IH eq_refl) as (x & Hx & Hfx). eauto.
  - intros [= <-]. eauto.
Qed.

Lemma foldM_app {A S : Type} (f : S -> A -> res S) (l1 l2 : list A) (s : S) :
  foldM f (l1 ++ l2)%list s = (s' <- foldM f l1 s ;; foldM f l2 s').
Proof.
  revert s. induction l1 as [|a l1 IH]; intros s; simpl; [reflexivity|].
  destruct (f s a); simpl; [apply IH | reflexivity].
Qed.

(** A conversion fails with a [UserError] or a [ValueError] only. *)
Lemma convert_str_to_value_raises (schema : Schema) :
  items_declared schema = true ->
  forall value e,
    convert_str_to_value schema value = Raise e ->
    (exists msg, e = UserError msg) \/ (exists msg, e = ValueError msg).
Proof.
  induction schema as [type properties patternProperties items _ _ IH]
    using Schema_ind_nested.
  cbn [items_declared convert_str_to_value]. intros Hitems value e.
  destruct (type_has "string" type); [discriminate|].
  destruct (type_has "integer" type).
  { destruct (int_base0 value); [discriminate|]. intros [= <-]. eauto. }
  destruct (type_has "number" type).
  { destruct (float_of_str value); [discriminate|]. intros [= <-]. eauto. }
  destruct (type_has "boolean" type).
  { destruct (dict_get boolean_values value); [discriminate|].
    intros [= <-]. eauto. }
  destruct (type_has "array" type); [|intros [= <-]; eauto].
  cbn [orb negb] in Hitems.
  destruct items as [item_schema|]; [|discriminate].
  destruct (mapM (convert_str_to_value item_schema) (split "," value))
    as [entries|e'] eqn:E; simpl; [discriminate|].
  intros [= <-]. apply mapM_raise in E as (part & _ & Hpart).
  exact (IH Hitems part e' Hpart).
Qed.

Lemma convert_option_raises (key_value : string) (opt_schema : Schema)
      (value : string) (e : exn) :
  items_declared opt_schema = true ->
  convert_option key_value opt_schema value = Raise e ->
  exists msg, e = UserError msg.
Proof.
  intros Hitems. unfold convert_option.
  destruct (convert_str_to_value opt_schema value) as [v|e'] eqn:E;
    [discriminate|].
  destruct (convert_str_to_value_raises _ Hitems _ _ E) as [[msg ->]|[msg ->]].
  - intros [= <-]. eauto.
  - intros [= <-]. eauto.
Qed.

(** The failures the compiler catches.  Each failure named by the
    specification is a [UserError] that carries a message: an assignment
    without [=]; an option
    found neither under its key nor under the generic key; a value the
    declared type does not accept and a declared type that is not supported
    (conversion, with ["items"] declared where an array is converted, fails
    with a [UserError] only, a [ValueError] being turned into one).  A failing
    assignment ends the whole call with its error, whatever the assignments
    before it built and whatever follows: the result is the error alone. *)
Theorem compile_failures (options : dict Schema) :
  (forall user_config key_value,
      contains_char "=" key_value = false ->
      compile_assignment options user_config key_value
      = Raise (UserError ("Invalid config value: " ++ repr_str key_value
                          ++ ", expected '<KEY>[.<SUBKEY>]=<JSON_VALUE>'")))
  /\ (forall user_config key value,
         contains_char "=" key = false ->
         find_option options key = None ->
         compile_assignment options user_config (key ++ "=" ++ value)
         = Raise (UserError ("Unsupported option " ++ repr_str key
                             ++ ", available options: "
                             ++ or_none (join ", " (dict_keys options)))))
  /\ (forall user_config key value opt_schema e,
         contains_char "=" key = false ->
         find_option options key = Some opt_schema ->
         items_declared opt_schema = true ->
         convert_option (key ++ "=" ++ value) opt_schema value = Raise e ->
         compile_assignment options user_config (key ++ "=" ++ value) = Raise e
         /\ exists msg, e = UserError msg)
  /\ (forall done key_value rest user_config e,
         compile options done = Ok user_config ->
         compile_assignment options user_config key_value = Raise e ->
         compile options (done ++ key_value :: rest) = Raise e).
Proof.
  split; [|split; [|split]].
  - intros user_config key_value H. unfold compile_assignment.
    now rewrite (split1_absent _ _ H).
  - intros user_config key value Hkey Hfind. unfold compile_assignment.
    now rewrite (split_assignment _ _ Hkey), Hfind.
  - intros user_config key value opt_schema e Hkey Hfind Hitems Hconv.
    split; [|exact (convert_option_raises _ _ _ _ Hitems Hconv)].
    unfold compile_assignment.
    now rewrite (split_assignment _ _ Hkey), Hfind, Hconv.
  - intros done key_value rest user_config e Hdone Hstep.
    unfold compile in *. rewrite foldM_app, Hdone. cbn [bind foldM].
    now rewrite Hstep.
Qed.

Lemma compile_failures_witness :
  compile_assignment [("b", Node (TypeName "boolean") [] [] None)]
                     (VDict []) "nope"
  = Raise (UserError ("Invalid config value: 'nope', "
                      ++ "expected '<KEY>[.<SUBKEY>]=<JSON_VALUE>'"))
  /\ compile [("b", Node (TypeName "boolean") [] [] None)]
             ["b=true"; "b=yes"; "b=false"]
     = Raise (UserError
                "Invalid boolean value 'yes': expected one of 1, 0, true, false").
Proof.
  split.
  - exact (proj1 (compile_failures
                    [("b", Node (TypeName "boolean") [] [] None)])
                 (VDict []) "nope" eq_refl).
  - exact (proj2 (proj2 (proj2 (compile_failures
                                  [("b", Node (TypeName "boolean") [] [] None)])))
                 ["b=true"] "b=yes" ["b=false"] (VDict [("b", VBool true)])
                 _ eq_refl eq_refl).
Defined.

(** Outside the failures the specification names: storing under a path
    whose prefix already holds a scalar.  With a wildcard option at the top
    and an option [a.b], the assignment [a=1] stores a string under [a], and
    [a.b=2] then raises a [TypeError] that is not turned into a
    [UserError]. *)
Example path_under_a_scalar :
  create_user_config
    [("pg", Node (TypeName "object")
                 [("a", Node (TypeName "object")
                             [("b", Node (TypeName "string") [] [] None)]
                             [] None)]
                 [(".*", Node (TypeName "string") [] [] None)] None)]
    "pg" ["a=1"; "a.b=2"]
  = Raise (TypeError "'str' object does not support item assignment").
Proof. reflexivity. Qed.

(** *** Integer literals *)

Lemma digit_value_plain (c : ascii) (d : Z) :
  digit_value c = Some d ->
  is_space c = false /\ Ascii.eqb c "_" = false
  /\ forall rest, int_sign (String c rest) = (false, String c rest).
Proof.
  ascii_cases c; vm_compute; intros H; try discriminate H;
    repeat split; reflexivity.
Qed.

Lemma is_digit_of_value (base : Z) (c : ascii) :
  is_digit_of base c = true ->
  exists d, digit_value c = Some d /\ (d <? base)%Z = true.
Proof.
  unfold is_digit_of. destruct (digit_value c) as [d|]; [eauto | discriminate].
Qed.

Lemma digits_no_space (base : Z) (s : string) :
  all_chars (is_digit_of base) s = true ->
  all_chars (fun c => negb (is_space c)) s = true.
Proof.
  apply all_chars_weaken. intros c Hc.
  destruct (is_digit_of_value _ _ Hc) as (d & Hd & _).
  destruct (digit_value_plain _ _ Hd) as (-> & _). reflexivity.
Qed.

Lemma lstrip_plain (s : string) :
  all_chars (fun c => negb (is_space c)) s = true -> lstrip s = s.
Proof.
  destruct s as [|c s]; simpl; [reflexivity|].
  intros H. apply andb_true_iff in H as [Hc _].
  apply negb_true_iff in Hc. now rewrite Hc.
Qed.

Lemma rstrip_plain (s : string) :
  all_chars (fun c => negb (is_space c)) s = true -> rstrip s = s.
Proof.
  induction s as [|c s IH]; simpl; [reflexivity|].
  intros H. apply andb_true_iff in H as [Hc Hs].
  apply negb_true_iff in Hc. now rewrite (IH Hs), Hc, andb_false_r.
Qed.

Lemma strip_plain (s : string) :
  all_chars (fun c => negb (is_space c)) s = true -> strip s = s.
Proof. intros H. unfold strip. now rewrite (lstrip_plain _ H), rstrip_plain. Qed.

(** Scanning a run of digits computes its positional value. *)
Lemma scan_digits_positional (base : Z) (digits : string) :
  all_chars (is_digit_of base) digits = true ->
  forall acc,
    scan_digits base digits acc false
    = Some (acc * base ^ Z.of_nat (String.length digits)
            + positional base digits)%Z.
Proof.
  induction digits as [|c digits IH]; intros Hall acc.
  - simpl. f_equal. lia.
  - cbn [all_chars] in Hall. apply andb_true_iff in Hall as [Hc Hs].
    destruct (is_digit_of_value _ _ Hc) as (d & Hd & Hlt).
    destruct (digit_value_plain _ _ Hd) as (_ & Hu & _).
    cbn [scan_digits positional String.length]. rewrite Hu, Hd, Hlt.
    rewrite (IH Hs). f_equal. rewrite Nat2Z.inj_succ, Z.pow_succ_r by lia.
    ring.
Qed.

Lemma body_of_digits (base : Z) (digits : string) :
  is_digits base digits = true ->
  exists c rest,
    digits = String c rest /\ Ascii.eqb c "_" = false
    /\ all_chars (is_digit_of base) digits = true.
Proof.
  unfold is_digits. intros H. apply andb_true_iff in H as [Hne Hall].
  destruct digits as [|c rest]; [discriminate|].
  exists c, rest. repeat split; trivial.
  cbn [all_chars] in Hall. apply andb_true_iff in Hall as [Hc _].
  destruct (is_digit_of_value _ _ Hc) as (d & Hd & _).
  now destruct (digit_value_plain _ _ Hd) as (_ & Hu & _).
Qed.

Lemma first_not_underscore (c : ascii) (rest : string) :
  Ascii.eqb c "_" = false ->
  startswith (String c rest) "_" = false
  /\ skip_underscore (String c rest) = String c rest.
Proof. ascii_cases c; vm_compute; intros H; try discriminate H; auto. Qed.

(** A prefixed literal: [marker] is [x] or [o]. *)
Lemma int_base0_prefixed (marker : ascii) (base : Z) (digits : string) :
  (marker = "x"%char /\ base = 16%Z) \/ (marker = "o"%char /\ base = 8%Z) ->
  is_digits base digits = true ->
  int_base0 (String "0" (String marker digits)) = Some (positional base digits).
Proof.
  intros Hmarker Hdigits.
  destruct (body_of_digits _ _ Hdigits) as (c & rest & -> & Hu & Hall).
  pose proof (digits_no_space _ _ Hall) as Hplain.
  destruct (first_not_underscore c rest Hu) as [Hprefix Hskip].
  unfold int_base0. rewrite strip_plain.
  - destruct Hmarker as [[-> ->]|[-> ->]].
    + change (int_sign (String "0" (String "x" (String c rest))))
        with (false, String "0" (String "x" (String c rest))).
      cbv iota beta.
      change (int_prefix (String "0" (String "x" (String c rest))))
        with (16%Z, skip_underscore (String c rest), false).
      rewrite Hskip. cbv iota beta. rewrite Hprefix.
      cbn [is_empty orb andb].
      rewrite (scan_digits_positional _ _ Hall). f_equal; lia.
    + change (int_sign (String "0" (String "o" (String c rest))))
        with (false, String "0" (String "o" (String c rest))).
      cbv iota beta.
      change (int_prefix (String "0" (String "o" (String c rest))))
        with (8%Z, skip_underscore (String c rest), false).
      rewrite Hskip. cbv iota beta. rewrite Hprefix.
      cbn [is_empty orb andb].
      rewrite (scan_digits_positional _ _ Hall). f_equal; lia.
  - destruct Hmarker as [[-> _]|[-> _]];
      match goal with
      | |- all_chars ?p (String ?a (String ?b ?s)) = true =>
          change (all_chars p (String a (str1 b) ++ s) = true)
      end;
      now rewrite all_chars_app, Hplain.
Qed.

Lemma int_prefix_decimal (c : ascii) (rest : string) :
  is_digit_of 10 c = true ->
  int_prefix (String c rest)
  = (10%Z, String c rest, Ascii.eqb c "0")
  \/ exists d r, c = "0"%char /\ rest = String d r /\ is_digit_of 10 d = false.
Proof.
  intros Hc. destruct (Ascii.eqb c "0") eqn:E.
  - apply Ascii.eqb_eq in E. subst c. destruct rest as [|d r]; [now left|].
    destruct (is_digit_of 10 d) eqn:Hd; [left | right; eauto].
    revert Hd. clear. ascii_cases d; vm_compute; intros H; try discriminate H;
      reflexivity.
  - left. revert E Hc. clear.
    ascii_cases c; vm_compute; intros H1 H2; try discriminate; reflexivity.
Qed.

Lemma positional_zeros (digits : string) :
  all_chars (Ascii.eqb "0") digits = true -> positional 10 digits = 0%Z.
Proof.
  induction digits as [|c digits IH]; [reflexivity|].
  cbn [all_chars positional]. intros H. apply andb_true_iff in H as [Hc Hs].
  apply Ascii.eqb_eq in Hc. subst c. rewrite (IH Hs).
  change (digit_value "0") with (Some 0%Z). lia.
Qed.

Lemma int_base0_decimal (digits : string) :
  is_decimal_literal digits = true ->
  int_base0 digits = Some (positional 10 digits).
Proof.
  unfold is_decimal_literal. intros H. apply andb_true_iff in H as [Hdigits Hzero].
  destruct (body_of_digits _ _ Hdigits) as (c & rest & -> & Hu & Hall).
  pose proof (digits_no_space _ _ Hall) as Hplain.
  destruct (first_not_underscore c rest Hu) as [Hprefix _].
  pose proof Hall as Hall'. cbn [all_chars] in Hall'.
  apply andb_true_iff in Hall' as [Hc Hrest].
  destruct (is_digit_of_value _ _ Hc) as (d & Hd & _).
  destruct (digit_value_plain _ _ Hd) as (_ & _ & Hsign).
  unfold int_base0. rewrite (strip_plain _ Hplain), Hsign.
  destruct (int_prefix_decimal c rest Hc) as [->|(d' & r & -> & -> & Hd')].
  - rewrite Hprefix. cbn [is_empty orb].
    rewrite (scan_digits_positional _ _ Hall).
    replace (0 * 10 ^ Z.of_nat (String.length (String c rest))
             + positional 10 (String c rest))%Z
      with (positional 10 (String c rest)) by lia.
    destruct (Ascii.eqb c "0") eqn:E; [|reflexivity].
    apply Ascii.eqb_eq in E. subst c.
    cbn [startswith] in Hzero.
    assert (Hz : all_chars (Ascii.eqb "0") (String "0" rest) = true).
    { destruct rest; exact Hzero. }
    now rewrite (positional_zeros _ Hz).
  - cbn [all_chars] in Hrest. now rewrite Hd' in Hrest.
Qed.

Lemma all_chars_lstrip (p : ascii -> bool) (s : string) :
  all_chars p s = true -> all_chars p (lstrip s) = true.
Proof.
  induction s as [|c s IH]; [reflexivity|]. cbn [lstrip].
  destruct (is_space c); [|trivial].
  cbn [all_chars]. intros H. apply andb_true_iff in H as [_ H]. auto.
Qed.

Lemma all_chars_rstrip (p : ascii -> bool) (s : string) :
  all_chars p s = true -> all_chars p (rstrip s) = true.
Proof.
  induction s as [|c s IH]; [reflexivity|]. cbn [rstrip all_chars].
  intros H. apply andb_true_iff in H as [Hc Hs].
  destruct (is_empty (rstrip s) && is_space c); [reflexivity|].
  cbn [all_chars]. now rewrite Hc, IH.
Qed.

Lemma all_chars_int_sign (p : ascii -> bool) (s : string) :
  all_chars p s = true -> all_chars p (snd (int_sign s)) = true.
Proof.
  destruct s as [|c s]; [reflexivity|]. cbn [all_chars].
  intros H. apply andb_true_iff in H as [Hc Hs].
  ascii_cases c; cbn [int_sign snd all_chars]; rewrite ?Hc, ?Hs; reflexivity.
Qed.

Lemma non_digit_rejected (c : ascii) (rest : string) :
  is_digit c = false ->
  int_prefix (String c rest) = (10%Z, String c rest, false)
  /\ (startswith (String c rest) "_" = true
      \/ scan_digits 10 (String c rest) 0 false = None).
Proof.
  ascii_cases c; vm_compute; intros H; try discriminate H; auto.
Qed.

Lemma int_base0_non_numeric (s : string) :
  non_numeric s = true -> int_base0 s = None.
Proof.
  unfold non_numeric. intros H.
  apply all_chars_lstrip, all_chars_rstrip, all_chars_int_sign in H.
  unfold int_base0. fold (strip s) in H.
  destruct (int_sign (strip s)) as [negative unsigned]. cbn [snd] in H.
  destruct unsigned as [|c rest]; [reflexivity|].
  cbn [all_chars] in H. apply andb_true_iff in H as [Hc _].
  apply negb_true_iff in Hc.
  destruct (non_digit_rejected c rest Hc) as [-> [Hp|Hscan]].
  - now rewrite Hp, orb_true_r.
  - rewrite Hscan. now destruct (is_empty _ || _).
Qed.

Lemma convert_integer (opt_schema : Schema) (value : string) :
  type_has "string" (schema_type opt_schema) = false ->
  type_has "integer" (schema_type opt_schema) = true ->
  convert_str_to_value opt_schema value
  = match int_base0 value with
    | Some n => Ok (VInt n)
    | None => Raise (ValueError ("invalid literal for int() with base 0: "
                                 ++ repr_str value))
    end.
Proof.
  destruct opt_schema as [type properties patternProperties items].
  cbn [schema_type convert_str_to_value]. now intros -> ->.
Qed.

(** C7.  An integer option takes decimal literals, hexadecimal literals after
    [0x] and octal literals after [0o], each with the value its digits
    denote; a text without a decimal digit is not a number.  For an option
    whose declared type is integer the assignment stores the integer, or
    fails with a [UserError] (invalid value) that quotes the assignment when
    the text is not an integer literal.  For the schema with the one integer
    property [max_connections], compiling [max_connections=0x10] gives
    [{"max_connections": 16}]. *)
Theorem integer_options :
  (forall digits,
      is_decimal_literal digits = true ->
      int_base0 digits = Some (positional 10 digits))
  /\ (forall digits,
         is_digits 16 digits = true ->
         int_base0 ("0x" ++ digits) = Some (positional 16 digits))
  /\ (forall digits,
         is_digits 8 digits = true ->
         int_base0 ("0o" ++ digits) = Some (positional 8 digits))
  /\ (forall s, non_numeric s = true -> int_base0 s = None)
  /\ (forall options user_config key value opt_schema,
         contains_char "=" key = false ->
         find_option options key = Some opt_schema ->
         type_has "string" (schema_type opt_schema) = false ->
         type_has "integer" (schema_type opt_schema) = true ->
         compile_assignment options user_config (key ++ "=" ++ value)
         = match int_base0 value with
           | Some n => assign user_config (split "." key) (VInt n)
           | None =>
               Raise (UserError
                        ("Invalid value " ++ repr_str (key ++ "=" ++ value)
                         ++ ": invalid literal for int() with base 0: "
                         ++ repr_str value))
           end)
  /\ create_user_config
       [("pg", Node (TypeName "object")
                    [("max_connections", Node (TypeName "integer") [] [] None)]
                    [] None)]
       "pg" ["max_connections=0x10"]
     = Ok (VDict [("max_connections", VInt 16)]).
Proof.
  split; [exact int_base0_decimal|].
  split; [intros digits; apply int_base0_prefixed; auto|].
  split; [intros digits; apply int_base0_prefixed; auto|].
  split; [exact int_base0_non_numeric|].
  split; [|reflexivity].
  intros options user_config key value opt_schema Hkey Hfind Hstr Hint.
  unfold compile_assignment, convert_option.
  rewrite (split_assignment _ _ Hkey), Hfind, (convert_integer _ _ Hstr Hint).
  now destruct (int_base0 value).
Qed.

Lemma integer_options_witness :
  int_base0 "644" = Some 644%Z
  /\ int_base0 "0x1f" = Some 31%Z
  /\ int_base0 "0o644" = Some 420%Z
  /\ int_base0 "sixteen" = None
  /\ compile_assignment
       [("max_connections", Node (TypeName "integer") [] [] None)]
       (VDict []) "max_connections=sixteen"
     = Raise (UserError
                ("Invalid value 'max_connections=sixteen': "
                 ++ "invalid literal for int() with base 0: 'sixteen'")).
Proof.
  split; [exact (proj1 integer_options "644" eq_refl)|].
  split; [exact (proj1 (proj2 integer_options) "1f" eq_refl)|].
  split; [exact (proj1 (proj2 (proj2 integer_options)) "644" eq_refl)|].
  split; [exact (proj1 (proj2 (proj2 (proj2 integer_options))) "sixteen"
                       eq_refl)|].
  exact (proj1 (proj2 (proj2 (proj2 (proj2 integer_options))))
               [("max_connections", Node (TypeName "integer") [] [] None)]
               (VDict []) "max_connections" "sixteen"
               (Node (TypeName "integer") [] [] None)
               eq_refl eq_refl eq_refl eq_refl).
Defined.

(** *** Flattening a schema *)

Lemma insert_item_In {V : Type} (kv x : string * V) (l : list (string * V)) :
  In x (insert_item kv l) <-> x = kv \/ In x l.
Proof.
  induction l as [|y l IH]; simpl.
  - intuition.
  - destruct (String.leb (fst kv) (fst y)); simpl; [intuition|].
    rewrite IH. intuition.
Qed.

Lemma sorted_items_In {V : Type} (x : string * V) (l : list (string * V)) :
  In x (sorted_items l) <-> In x l.
Proof.
  induction l as [|y l IH]; simpl; [reflexivity|].
  rewrite insert_item_In, IH. intuition.
Qed.

Lemma collect_entries_cases (entries : list (string * Schema * res (dict Schema))) :
  (forall name spec nested,
      In (name, spec, nested) entries ->
      is_object spec = true ->
      (exists collected, nested = Ok collected /\ flat spec)
      \/ (exists msg, nested = Raise (TypeError msg) /\ overloaded spec)) ->
  forall opts,
    (exists opts',
        foldM collect_entry entries opts = Ok opts'
        /\ forall name spec nested,
            In (name, spec, nested) entries -> is_object spec = true ->
            flat spec)
    \/ (exists msg,
           foldM collect_entry entries opts = Raise (TypeError msg)
           /\ exists name spec nested,
               In (name, spec, nested) entries /\ is_object spec = true
               /\ overloaded spec).
Proof.
  induction entries as [|[[name spec] nested] entries IH]; intros Hall opts.
  - left. exists opts. split; [reflexivity|]. intros ? ? ? [].
  - cbn [foldM collect_entry].
    assert (Hrest : forall name spec nested,
               In (name, spec, nested) entries ->
               is_object spec = true ->
               (exists collected, nested = Ok collected /\ flat spec)
               \/ (exists msg, nested = Raise (TypeError msg)
                               /\ overloaded spec)).
    { intros n s r Hin. apply (Hall n s r). now right. }
    destruct (is_object spec) eqn:Hobj.
    + destruct (Hall name spec nested (or_introl eq_refl) Hobj)
        as [(collected & -> & Hflat)|(msg & -> & Hover)].
      * cbn [bind].
        destruct (IH Hrest (dict_update opts collected))
          as [(opts' & -> & Hflats)|(msg & -> & Hbad)].
        -- left. exists opts'. split; [reflexivity|].
           intros n s r [[= <- <- <-]|Hin] Hs;
             [exact Hflat | exact (Hflats _ _ _ Hin Hs)].
        -- right. exists msg. split; [reflexivity|].
           destruct Hbad as (n & s & r & Hin & Hs & Hover).
           exists n, s, r. repeat split; trivial. now right.
      * right. exists msg. split; [reflexivity|].
        exists name, spec, (Raise (TypeError msg)).
        repeat split; trivial. now left.
    + cbn [bind].
      destruct (IH Hrest (dict_set opts name spec))
        as [(opts' & -> & Hflats)|(msg & -> & Hbad)].
      * left. exists opts'. split; [reflexivity|].
        intros n s r [[= <- <- <-]|Hin] Hs;
          [congruence | exact (Hflats _ _ _ Hin Hs)].
      * right. exists msg. split; [reflexivity|].
        destruct Hbad as (n & s & r & Hin & Hs & Hover).
        exists n, s, r. repeat split; trivial. now right.
Qed.

Lemma traversed_child (type : TypeSpec) (properties patternProperties : dict Schema)
      (items : option Schema) (node : Schema) :
  In node (traversed (Node type properties patternProperties items))
  <-> node = Node type properties patternProperties items
      \/ (exists kv, In kv (properties ++ patternProperties)%list
                     /\ is_object (snd kv) = true
                     /\ In node (traversed (snd kv))).
Proof.
  cbn [traversed]. rewrite <- flat_map_app. cbn [In].
  rewrite in_flat_map. split.
  - intros [<-|(kv & Hkv & Hnode)]; [now left | right].
    exists kv. destruct (is_object (snd kv)); [auto | destruct Hnode].
  - intros [->|(kv & Hkv & Hobj & Hnode)]; [now left | right].
    exists kv. now rewrite Hobj.
Qed.

Lemma collect_cases (schema : Schema) :
  forall prefix,
    (exists opts,
        collect_user_config_options schema prefix = Ok opts /\ flat schema)
    \/ (exists msg,
           collect_user_config_options schema prefix = Raise (TypeError msg)
           /\ overloaded schema).
Proof.
  induction schema as [type properties patternProperties items IHp IHq _]
    using Schema_ind_nested.
  intros prefix. cbn [collect_user_config_options].
  match goal with
  | |- context [foldM collect_entry (map snd (sorted_items ?l)) []] =>
      set (named := l)
  end.
  match goal with
  | |- context [sorted_specs ?l] => set (patterned := l)
  end.
  assert (Hnamed : forall name spec nested,
             In (name, spec, nested) (map snd (sorted_items named)) ->
             In spec (map snd properties)
             /\ nested = collect_user_config_options spec name).
  { intros name spec nested Hin.
    apply in_map_iff in Hin as ([k x] & Hx & Hin). cbn [snd] in Hx. subst x.
    apply (proj1 (sorted_items_In _ _)) in Hin. unfold named in Hin.
    apply in_map_iff in Hin as ([prop s] & [= _ <- <- <-] & Hin).
    split; [|reflexivity]. apply in_map_iff. now exists (prop, s). }
  assert (Hpatterned : forall name spec nested,
             In (name, spec, nested) patterned ->
             In spec (map snd patternProperties)
             /\ nested = collect_user_config_options spec name).
  { intros name spec nested Hin. unfold patterned in Hin.
    apply in_map_iff in Hin as ([pattern s] & [= <- <- <-] & Hin).
    split; [|reflexivity]. apply in_map_iff. now exists (pattern, s). }
  assert (Hchild : forall (l : dict Schema) spec,
             Forall (fun kv => forall prefix,
                         (exists opts,
                             collect_user_config_options (snd kv) prefix
                             = Ok opts /\ flat (snd kv))
                         \/ (exists msg,
                                collect_user_config_options (snd kv) prefix
                                = Raise (TypeError msg)
                                /\ overloaded (snd kv))) l ->
             In spec (map snd l) ->
             forall name,
               (exists collected,
                   collect_user_config_options spec name = Ok collected
                   /\ flat spec)
               \/ (exists msg,
                      collect_user_config_options spec name
                      = Raise (TypeError msg) /\ overloaded spec)).
  { intros l spec Hl Hin name. apply in_map_iff in Hin as (kv & <- & Hin).
    rewrite Forall_forall in Hl. exact (Hl kv Hin name). }
  assert (Hup : forall spec node,
             In spec (map snd (properties ++ patternProperties)%list) ->
             is_object spec = true ->
             In node (traversed spec) ->
             In node (traversed (Node type properties patternProperties items))).
  { intros spec node Hin Hobj Hnode. apply traversed_child. right.
    apply in_map_iff in Hin as (kv & <- & Hin). eauto. }
  destruct (collect_entries_cases (map snd (sorted_items named))) with (opts := @nil (string * Schema))
    as [(opts & -> & Hflat1)|(msg & -> & n & s & r & Hin & Hobj & node & Hnode & Hcount)].
  { intros name spec nested Hin _.
    destruct (Hnamed _ _ _ Hin) as [Hspec ->].
    exact (Hchild _ _ IHp Hspec name). }
  2: { right. exists msg. split; [reflexivity|]. exists node. split; [|exact Hcount].
       destruct (Hnamed _ _ _ Hin) as [Hspec _].
       apply (Hup s); trivial. rewrite map_app, in_app_iff. now left. }
  cbn [bind].
  destruct patternProperties as [|[pattern pspec] [|p2 others]].
  - left. exists opts. split; [reflexivity|].
    intros node Hnode. apply traversed_child in Hnode as [->|(kv & Hkv & Hobj & Hnode)].
    + cbn. lia.
    + rewrite app_nil_r in Hkv.
      assert (Hin : In (full_name prefix (fst kv), snd kv,
                        collect_user_config_options (snd kv)
                          (full_name prefix (fst kv)))
                       (map snd (sorted_items named))).
      { apply in_map_iff. exists (fst kv, (full_name prefix (fst kv), snd kv,
                        collect_user_config_options (snd kv)
                          (full_name prefix (fst kv)))).
        split; [reflexivity|]. apply sorted_items_In. unfold named.
        apply in_map_iff. exists kv. split; [now destruct kv | exact Hkv]. }
      exact (Hflat1 _ _ _ Hin Hobj node Hnode).
  - cbn [sorted_specs patterned map bind].
    destruct (collect_entries_cases patterned) with (opts := opts)
      as [(opts' & Hrun & Hflat2)|(msg & Hrun & n & s & r & Hin & Hobj & node & Hnode & Hcount)].
    { intros name spec nested Hin _.
      destruct (Hpatterned _ _ _ Hin) as [Hspec ->].
      exact (Hchild _ _ IHq Hspec name). }
    + left. exists opts'. split; [exact Hrun|].
      intros node Hnode.
      apply traversed_child in Hnode as [->|(kv & Hkv & Hobj & Hnode)].
      * cbn. lia.
      * apply in_app_iff in Hkv as [Hkv|Hkv].
        -- assert (Hin : In (full_name prefix (fst kv), snd kv,
                          collect_user_config_options (snd kv)
                            (full_name prefix (fst kv)))
                         (map snd (sorted_items named))).
           { apply in_map_iff. exists (fst kv, (full_name prefix (fst kv), snd kv,
                          collect_user_config_options (snd kv)
                            (full_name prefix (fst kv)))).
             split; [reflexivity|]. apply sorted_items_In. unfold named.
             apply in_map_iff. exists kv. split; [now destruct kv | exact Hkv]. }
           exact (Hflat1 _ _ _ Hin Hobj node Hnode).
        -- destruct Hkv as [<-|[]].
           refine (Hflat2 _ _ _ _ Hobj node Hnode).
           unfold patterned. cbn [map]. left. reflexivity.
    + right. exists msg. split; [exact Hrun|]. exists node. split; [|exact Hcount].
      destruct (Hpatterned _ _ _ Hin) as [Hspec _].
      apply (Hup s); trivial. rewrite map_app, in_app_iff. now right.
  - right. eexists. split; [reflexivity|].
    exists (Node type properties ((pattern, pspec) :: p2 :: others) items).
    split; [apply traversed_child; now left | cbn; lia].
Qed.

(** C9, counterexample.  Two nodes with two pattern properties each that
    flattening does not go into: the ["items"] of an array option, and an
    option whose type is the list [["object", "null"]], which is not equal to
    ["object"].  Flattening returns the table. *)
Lemma pattern_properties_out_of_reach :
  let patterns :=
    [("^a", Node (TypeName "string") [] [] None);
     ("^b", Node (TypeName "string") [] [] None)] in
  let objects := Node (TypeName "object") [] patterns None in
  let tags := Node (TypeName "array") [] [] (Some objects) in
  let labels := Node (TypeNames ["object"; "null"]) [] patterns None in
  let schema :=
    Node (TypeName "object") [("tags", tags); ("labels", labels)] [] None in
  In objects (nodes schema)
  /\ pattern_count objects = 2
  /\ In labels (nodes schema)
  /\ pattern_count labels = 2
  /\ collect_user_config_options schema EmptyString
     = Ok [("labels", labels); ("tags", tags)].
Proof.
  cbv zeta. split; [|split; [reflexivity|split; [|split; reflexivity]]].
  - cbn [nodes flat_map snd app In]. right. right. now left.
  - cbn [nodes flat_map snd app In]. do 5 right. now left.
Qed.

(** C9 (as amended).  Flattening raises (a [TypeError], from ordering the
    pattern-property sub-schemas) exactly when a node it traverses, the root
    or a node reached through children of type ["object"], has two or more
    pattern properties; it returns the option table exactly when every
    traversed node has at most one. *)
Theorem flattening_and_pattern_properties (schema : Schema) (prefix : string) :
  ((exists node, In node (traversed schema) /\ 2 <= pattern_count node)
   <-> exists msg,
       collect_user_config_options schema prefix = Raise (TypeError msg))
  /\ ((forall node, In node (traversed schema) -> pattern_count node <= 1)
      <-> exists opts, collect_user_config_options schema prefix = Ok opts).
Proof.
  destruct (collect_cases schema prefix)
    as [(opts & Hrun & Hflat)|(msg & Hrun & Hover)]; rewrite Hrun.
  - split; split.
    + intros (node & Hnode & Hcount). specialize (Hflat node Hnode). lia.
    + intros (msg & Hmsg). discriminate Hmsg.
    + eauto.
    + intros _. exact Hflat.
  - split; split.
    + eauto.
    + intros _. exact Hover.
    + intros Hflat. destruct Hover as (node & Hnode & Hcount).
      specialize (Hflat node Hnode). lia.
    + intros (opts & Hopts). discriminate Hopts.
Qed.

(** *** The examples of the specification *)

Example pattern_property_flattens_to_KEY :
  collect_user_config_options
    (Node (TypeName "object") []
          [("x", Node (TypeName "string") [] [] None)] None)
    EmptyString
  = Ok [("KEY", Node (TypeName "string") [] [] None)].
Proof. reflexivity. Qed.

Example pattern_property_fallback :
  create_user_config
    [("pg", Node (TypeName "object") []
                 [("x", Node (TypeName "string") [] [] None)] None)]
    "pg" ["anything=val"]
  = Ok (VDict [("anything", VStr "val")]).
Proof. reflexivity. Qed.

Example unknown_option_of_empty_schema :
  create_user_config [("pg", Node (TypeName "object") [] [] None)]
                     "pg" ["nope=1"]
  = Raise (UserError "Unsupported option 'nope', available options: none").
Proof. reflexivity. Qed.

Example boolean_rejects_yes :
  convert_str_to_value (Node (TypeName "boolean") [] [] None) "yes"
  = Raise (UserError
             "Invalid boolean value 'yes': expected one of 1, 0, true, false").
Proof. reflexivity. Qed.

Example array_of_integers :
  convert_str_to_value
    (Node (TypeName "array") [] []
          (Some (Node (TypeName "integer") [] [] None)))
    "1,2,3"
  = Ok (VList [VInt 1; VInt 2; VInt 3]).
Proof. reflexivity. Qed.

Example nested_paths_and_last_write :
  create_user_config
    [("pg", Node (TypeName "object")
                 [("pg", Node (TypeName "object")
                              [("timeout", Node (TypeName "integer") [] [] None);
                               ("ssl", Node (TypeName "boolean") [] [] None)]
                              [] None)]
                 [] None)]
    "pg" ["pg.timeout=10"; "pg.ssl=true"; "pg.timeout=0o17"]
  = Ok (VDict [("pg", VDict [("timeout", VInt 15); ("ssl", VBool true)])]).
Proof. reflexivity. Qed.

End CliFacts.

(** ** The compiler of user configurations, further *)

Module CompilerFacts.
Import Py PyFacts Cli CliFacts Reading.

(** *** Storing under a path *)

Lemma dict_set_twice {V : Type} (d : dict V) (k : string) (a b : V) :
  dict_set (dict_set d k a) k b = dict_set d k b.
Proof.
  induction d as [|[k' v'] d IH]; simpl.
  - now rewrite String.eqb_refl.
  - destruct (String.eqb k' k) eqn:E; simpl; rewrite E; [reflexivity|].
    now rewrite IH.
Qed.

Lemma assign_leaf (items : dict Value) (leaf : string) (value : Value) :
  assign (VDict items) [leaf] value = Ok (VDict (dict_set items leaf value)).
Proof. reflexivity. Qed.

Lemma assign_step (items : dict Value) (part next : string)
      (rest : list string) (value : Value) :
  assign (VDict items) (part :: next :: rest) value
  = (child' <- assign (child_of items part) (next :: rest) value ;;
     Ok (VDict (dict_set items part child'))).
Proof. reflexivity. Qed.

Lemma assign_scalar (conf : Value) (part : string) (rest : list string)
      (value : Value) :
  is_dict conf = false ->
  exists e, assign conf (part :: rest) value = Raise e.
Proof.
  intros H. destruct conf; try discriminate H;
    destruct rest; eexists; reflexivity.
Qed.

Lemma assign_stores (conf : Value) (parts : list string)
      (value conf' : Value) :
  parts <> [] ->
  assign conf parts value = Ok conf' ->
  get_path conf' parts = Some value.
Proof.
  revert conf conf'. induction parts as [|part rest IH]; [congruence|].
  intros conf conf' _ Hassign.
  destruct (is_dict conf) eqn:Hdict.
  2: { destruct (assign_scalar conf part rest value Hdict) as [e He].
       congruence. }
  destruct conf as [ | | | | | | items | ]; try discriminate Hdict.
  destruct rest as [|next rest].
  - rewrite assign_leaf in Hassign. injection Hassign as <-.
    cbn [get_path]. now rewrite dict_get_set_same.
  - rewrite assign_step in Hassign.
    destruct (assign (child_of items part) (next :: rest) value)
      as [child'|e] eqn:E; [|discriminate Hassign].
    cbn [bind] in Hassign. injection Hassign as <-.
    cbn [get_path]. rewrite dict_get_set_same.
    apply (IH _ _ ltac:(discriminate) E).
Qed.

(** X1.  What [create_user_config] stores under a path can be read back
    under that path. *)
Theorem assign_then_read (conf : Value) (parts : list string)
        (value conf' : Value) :
  parts <> [] ->
  assign conf parts value = Ok conf' ->
  get_path conf' parts = Some value.
Proof. apply assign_stores. Qed.

Lemma assign_then_read_witness :
  get_path (VDict [("pg", VDict [("timeout", VInt 10)])]) ["pg"; "timeout"]
  = Some (VInt 10).
Proof.
  apply (assign_then_read (VDict []) ["pg"; "timeout"] (VInt 10)).
  - discriminate.
  - reflexivity.
Defined.

(** X2.  Storing under a path leaves alone what is under every path that
    neither starts the stored path nor continues it. *)
Theorem assign_keeps_other_paths (conf : Value) (parts other : list string)
        (value conf' : Value) :
  prefix_of parts other = false ->
  prefix_of other parts = false ->
  assign conf parts value = Ok conf' ->
  get_path conf' other = get_path conf other.
Proof.
  revert conf conf' other. induction parts as [|part rest IH];
    intros conf conf' other Hpo Hop Hassign; [discriminate Hpo|].
  destruct other as [|q other']; [discriminate Hop|].
  destruct (is_dict conf) eqn:Hdict.
  2: { destruct (assign_scalar conf part rest value Hdict) as [e He].
       congruence. }
  destruct conf as [ | | | | | | items | ]; try discriminate Hdict.
  cbn [prefix_of] in Hpo, Hop.
  destruct (String.eqb part q) eqn:Epq.
  - apply String.eqb_eq in Epq. subst q.
    rewrite String.eqb_refl in Hop. cbn [andb] in Hpo, Hop.
    destruct rest as [|next rest]; [discriminate Hpo|].
    rewrite assign_step in Hassign.
    destruct (assign (child_of items part) (next :: rest) value)
      as [child'|e] eqn:E; [|discriminate Hassign].
    cbn [bind] in Hassign. injection Hassign as <-.
    cbn [get_path]. rewrite dict_get_set_same.
    rewrite (IH _ _ _ Hpo Hop E). unfold child_of.
    destruct (dict_get items part); [reflexivity|].
    destruct other'; [discriminate Hop | reflexivity].
  - assert (Hne : part <> q) by now apply String.eqb_neq.
    assert (Hitems : exists items', conf' = VDict items'
                                    /\ dict_get items' q = dict_get items q).
    { destruct rest as [|next rest].
      - rewrite assign_leaf in Hassign. injection Hassign as <-.
        eexists. split; [reflexivity|]. now apply dict_get_set_other.
      - rewrite assign_step in Hassign.
        destruct (assign (child_of items part) (next :: rest) value)
          as [child'|e]; [|discriminate Hassign].
        cbn [bind] in Hassign. injection Hassign as <-.
        eexists. split; [reflexivity|]. now apply dict_get_set_other. }
    destruct Hitems as (items' & -> & Hget). cbn [get_path]. now rewrite Hget.
Qed.

Lemma assign_keeps_other_paths_witness :
  get_path (VDict [("pg", VDict [("ssl", VBool true); ("timeout", VInt 10)])])
           ["pg"; "ssl"]
  = get_path (VDict [("pg", VDict [("ssl", VBool true)])]) ["pg"; "ssl"].
Proof.
  apply (assign_keeps_other_paths
           (VDict [("pg", VDict [("ssl", VBool true)])])
           ["pg"; "timeout"] ["pg"; "ssl"] (VInt 10));
    reflexivity.
Defined.

(** X3.  The last write wins: storing twice under one path leaves what
    storing the second value alone leaves. *)
Theorem assign_last_write_wins (conf : Value) (parts : list string)
        (first second conf' : Value) :
  parts <> [] ->
  assign conf parts first = Ok conf' ->
  assign conf' parts second = assign conf parts second.
Proof.
  revert conf conf'. induction parts as [|part rest IH]; [congruence|].
  intros conf conf' _ Hassign.
  destruct (is_dict conf) eqn:Hdict.
  2: { destruct (assign_scalar conf part rest first Hdict) as [e He].
       congruence. }
  destruct conf as [ | | | | | | items | ]; try discriminate Hdict.
  destruct rest as [|next rest].
  - rewrite assign_leaf in Hassign. injection Hassign as <-.
    rewrite !assign_leaf. now rewrite dict_set_twice.
  - rewrite assign_step in Hassign.
    destruct (assign (child_of items part) (next :: rest) first)
      as [child'|e] eqn:E; [|discriminate Hassign].
    cbn [bind] in Hassign. injection Hassign as <-.
    rewrite !assign_step. unfold child_of at 1.
    rewrite dict_get_set_same, (IH _ _ ltac:(discriminate) E).
    destruct (assign (child_of items part) (next :: rest) second);
      [|reflexivity].
    cbn [bind]. now rewrite dict_set_twice.
Qed.

Lemma assign_last_write_wins_witness :
  assign (VDict [("a", VInt 1)]) ["a"] (VInt 2)
  = assign (VDict []) ["a"] (VInt 2).
Proof.
  apply (assign_last_write_wins (VDict []) ["a"] (VInt 1)).
  - discriminate.
  - reflexivity.
Defined.

(** X4.  Storing under a path succeeds exactly when nothing but mappings
    lies on the way: every proper initial segment of the path that the
    configuration holds a value under holds a mapping. *)
Theorem assign_succeeds_iff (conf : Value) (parts : list string)
        (value : Value) :
  parts <> [] ->
  (exists conf', assign conf parts value = Ok conf')
  <-> (forall n x, n < List.length parts ->
                   get_path conf (firstn n parts) = Some x ->
                   is_dict x = true).
Proof.
  revert conf. induction parts as [|part rest IH]; [congruence|].
  intros conf _. split.
  - intros [conf' Hassign] n x Hn Hget.
    destruct (is_dict conf) eqn:Hdict.
    2: { destruct (assign_scalar conf part rest value Hdict) as [e He].
         congruence. }
    destruct conf as [ | | | | | | items | ]; try discriminate Hdict.
    destruct n as [|n]; [cbn in Hget; now injection Hget as <-|].
    destruct rest as [|next rest]; [cbn in Hn; lia|].
    rewrite assign_step in Hassign.
    destruct (assign (child_of items part) (next :: rest) value)
      as [child'|e] eqn:E; [|discriminate Hassign].
    cbn [firstn get_path] in Hget.
    destruct (dict_get items part) as [child|] eqn:Hchild; [|discriminate].
    apply (proj1 (IH child ltac:(discriminate))) with (n := n).
    + unfold child_of in E. rewrite Hchild in E. eauto.
    + cbn in Hn |- *. lia.
    + exact Hget.
  - intros Hall.
    assert (Hdict : is_dict conf = true).
    { apply (Hall 0 conf); [cbn; lia | reflexivity]. }
    destruct conf as [ | | | | | | items | ]; try discriminate Hdict.
    destruct rest as [|next rest]; [eexists; apply assign_leaf|].
    rewrite assign_step.
    destruct (proj2 (IH (child_of items part) ltac:(discriminate)))
      as [child' ->].
    + intros n x Hn Hget. unfold child_of in Hget.
      destruct (dict_get items part) as [child|] eqn:Hchild.
      * apply (Hall (S n) x); [cbn in Hn |- *; lia|].
        cbn [firstn get_path]. now rewrite Hchild.
      * destruct n as [|n]; [cbn in Hget; now injection Hget as <-|].
        cbn [firstn get_path dict_get] in Hget. discriminate Hget.
    + cbn [bind]. eexists. reflexivity.
Qed.

Lemma assign_succeeds_iff_witness :
  (exists conf',
      assign (VDict [("pg", VDict [("ssl", VBool true)])])
             ["pg"; "timeout"] (VInt 10) = Ok conf')
  <-> (forall n x,
          n < List.length ["pg"; "timeout"] ->
          get_path (VDict [("pg", VDict [("ssl", VBool true)])])
                   (firstn n ["pg"; "timeout"]) = Some x ->
          is_dict x = true).
Proof.
  apply (assign_succeeds_iff (VDict [("pg", VDict [("ssl", VBool true)])])
                             ["pg"; "timeout"] (VInt 10)).
  discriminate.
Defined.

(** *** What a compiled configuration holds *)

Lemma compile_assignment_keys (options : dict Schema) (items : dict Value)
      (key_value : string) (conf : Value) :
  compile_assignment options (VDict items) key_value = Ok conf ->
  exists items',
    conf = VDict items'
    /\ forall k, In k (dict_keys items') ->
                 k = top_key key_value \/ In k (dict_keys items).
Proof.
  unfold compile_assignment, top_key.
  destruct (split1 "=" key_value) as [key [value|]]; [|discriminate].
  destruct (find_option options key) as [opt_schema|]; [|discriminate].
  destruct (convert_option key_value opt_schema value) as [v|e];
    [|discriminate].
  cbn [bind fst]. pose proof (split_nonempty "." key) as Hne.
  destruct (split "." key) as [|part rest]; [congruence|]. cbn [hd].
  destruct rest as [|next rest].
  - rewrite assign_leaf. intros [= <-]. eexists. split; [reflexivity|].
    intros k Hk. now apply dict_keys_set in Hk.
  - rewrite assign_step.
    destruct (assign _ (next :: rest) v) as [child'|e]; [|discriminate].
    cbn [bind]. intros [= <-]. eexists. split; [reflexivity|].
    intros k Hk. now apply dict_keys_set in Hk.
Qed.

Lemma compile_from_keys (options : dict Schema) (args : list string) :
  forall (items : dict Value) (conf : Value),
    foldM (compile_assignment options) args (VDict items) = Ok conf ->
    exists items',
      conf = VDict items'
      /\ forall k, In k (dict_keys items') ->
                   In k (dict_keys items)
                   \/ exists key_value, In key_value args
                                        /\ top_key key_value = k.
Proof.
  induction args as [|key_value args IH]; intros items conf.
  - cbn [foldM]. intros [= <-]. eauto.
  - cbn [foldM].
    destruct (compile_assignment options (VDict items) key_value)
      as [conf1|e] eqn:E; [|discriminate].
    cbn [bind]. intros Hrest.
    destruct (compile_assignment_keys _ _ _ _ E) as (items1 & -> & Hkeys1).
    destruct (IH _ _ Hrest) as (items' & -> & Hkeys').
    exists items'. split; [reflexivity|]. intros k Hk.
    destruct (Hkeys' k Hk) as [Hin|(a & Ha & Htop)].
    + destruct (Hkeys1 k Hin) as [->|Hold]; [right | now left].
      exists key_value. split; [now left | reflexivity].
    + right. exists a. split; [now right | exact Htop].
Qed.

(** X5.  A compiled configuration is a mapping, and each of its top-level
    keys is the first dotted segment of the key of some assignment: nothing
    is stored that was not assigned. *)
Theorem compile_stores_assigned_keys (options : dict Schema)
        (user_config_args : list string) (conf : Value) :
  compile options user_config_args = Ok conf ->
  exists items,
    conf = VDict items
    /\ forall k, In k (dict_keys items) ->
                 exists key_value,
                   In key_value user_config_args /\ top_key key_value = k.
Proof.
  intros H. destruct (compile_from_keys _ _ _ _ H) as (items & -> & Hkeys).
  exists items. split; [reflexivity|]. intros k Hk.
  destruct (Hkeys k Hk) as [[]|Hk']. exact Hk'.
Qed.

Lemma compile_stores_assigned_keys_witness :
  exists items,
    VDict [("pg", VDict [("ssl", VBool true)])] = VDict items
    /\ forall k, In k (dict_keys items) ->
                 exists key_value,
                   In key_value ["pg.ssl=true"] /\ top_key key_value = k.
Proof.
  apply (compile_stores_assigned_keys
           [("pg.ssl", Node (TypeName "boolean") [] [] None)] ["pg.ssl=true"]).
  reflexivity.
Defined.

(** *** Arrays *)

Lemma split_parts_clean (c : ascii) (s : string) :
  Forall (fun part => contains_char c part = false) (split c s).
Proof.
  induction s as [|a s IH]; cbn [split].
  - repeat constructor.
  - destruct (Ascii.eqb a c) eqn:E.
    + constructor; [reflexivity | exact IH].
    + destruct (split c s) as [|w ws]; [repeat constructor; cbn; now rewrite E|].
      inversion IH as [|? ? Hw Hws]; subst.
      constructor; [cbn; now rewrite E, Hw | exact Hws].
Qed.

Lemma split_length (c : ascii) (s : string) :
  List.length (split c s) = S (count_char c s).
Proof.
  induction s as [|a s IH]; cbn [split count_char]; [reflexivity|].
  destruct (Ascii.eqb a c).
  - cbn [List.length]. now rewrite IH.
  - destruct (split c s) as [|w ws]; cbn [List.length] in *; lia.
Qed.

(** X6.  An array option whose items are strings is cut at every comma and
    loses nothing: the entries are strings without a comma, one more than
    there are commas, and joined by commas they give the text back.  An empty
    text gives one empty entry, not an empty array. *)
Theorem string_array_round_trip (schema : Schema) (str_value : string) :
  is_string_array schema = true ->
  exists entries,
    convert_str_to_value schema str_value = Ok (VList (map VStr entries))
    /\ join "," entries = str_value
    /\ List.length entries = S (count_char "," str_value)
    /\ Forall (fun entry => contains_char "," entry = false) entries.
Proof.
  destruct schema as [type properties patternProperties items].
  unfold is_string_array. cbn [schema_type schema_items].
  intros H. repeat (apply andb_true_iff in H as [H ?]).
  destruct items as [[item_type p q i]|]; [|discriminate].
  apply negb_true_iff in H.
  repeat match goal with
         | Hn : negb _ = true |- _ => apply negb_true_iff in Hn
         end.
  exists (split "," str_value). split; [|split; [|split]].
  - cbn [convert_str_to_value].
    repeat match goal with
           | Hn : type_has _ type = _ |- _ => rewrite Hn
           end.
    rewrite (mapM_pure _ VStr).
    + reflexivity.
    + apply Forall_forall. intros part _. cbn [convert_str_to_value].
      cbn [schema_type] in *.
      match goal with
      | Hs : type_has "string" item_type = true |- _ => now rewrite Hs
      end.
  - exact (join_split "," str_value).
  - apply split_length.
  - apply split_parts_clean.
Qed.

Lemma string_array_round_trip_witness :
  exists entries,
    convert_str_to_value
      (Node (TypeName "array") [] []
            (Some (Node (TypeName "string") [] [] None))) "10.0.0.0/8,,::1"
    = Ok (VList (map VStr entries))
    /\ join "," entries = "10.0.0.0/8,,::1"
    /\ List.length entries = S (count_char "," "10.0.0.0/8,,::1")
    /\ Forall (fun entry => contains_char "," entry = false) entries.
Proof.
  apply (string_array_round_trip
           (Node (TypeName "array") [] []
                 (Some (Node (TypeName "string") [] [] None)))).
  reflexivity.
Defined.

(** *** What a flattened schema holds *)

Lemma dict_set_In {V : Type} (d : dict V) (k : string) (v : V)
      (kv : string * V) :
  In kv (dict_set d k v) -> kv = (k, v) \/ In kv d.
Proof.
  induction d as [|[k' v'] d IH]; simpl.
  - intuition.
  - destruct (String.eqb k' k) eqn:E; simpl.
    + apply String.eqb_eq in E. subst k'. intuition.
    + intuition.
Qed.

Lemma option_table_set (opts : dict Schema) (name : string) (spec : Schema) :
  option_table opts -> is_object spec = false ->
  option_table (dict_set opts name spec).
Proof.
  intros [Hnd Hleaf] Hspec. split; [now apply dict_keys_set_NoDup|].
  apply Forall_forall. intros kv Hkv.
  apply dict_set_In in Hkv as [->|Hkv]; [exact Hspec|].
  rewrite Forall_forall in Hleaf. auto.
Qed.

Lemma option_table_update (collected opts : dict Schema) :
  option_table opts ->
  Forall (fun kv => is_object (snd kv) = false) collected ->
  option_table (dict_update opts collected).
Proof.
  unfold dict_update. revert opts.
  induction collected as [|[k v] collected IH]; intros opts Hopts Hall;
    [exact Hopts|].
  inversion Hall as [|? ? Hv Hrest]; subst. cbn [fold_left fst snd].
  apply IH; [|exact Hrest]. now apply option_table_set.
Qed.

Lemma collect_entries_table
      (entries : list (string * Schema * res (dict Schema))) :
  (forall name spec collected,
      In (name, spec, Ok collected) entries -> option_table collected) ->
  forall opts opts',
    option_table opts ->
    foldM collect_entry entries opts = Ok opts' ->
    option_table opts'.
Proof.
  induction entries as [|[[name spec] nested] entries IH];
    intros Hall opts opts' Hopts; cbn [foldM].
  - now intros [= <-].
  - assert (Hrest : forall n s c, In (n, s, Ok c) entries -> option_table c).
    { intros n s c Hin. apply (Hall n s c). now right. }
    cbn [collect_entry]. destruct (is_object spec) eqn:Hobj.
    + destruct nested as [collected|e]; [|discriminate]. cbn [bind].
      apply (IH Hrest). apply option_table_update; [exact Hopts|].
      apply (Hall name spec collected). now left.
    + cbn [bind]. apply (IH Hrest). now apply option_table_set.
Qed.

(** X7.  A flattened schema has every option path once and holds leaves
    only: no option of type ["object"] is in the table. *)
Theorem flattened_schema_is_a_table (schema : Schema) :
  forall prefix opts,
    collect_user_config_options schema prefix = Ok opts ->
    NoDup (dict_keys opts)
    /\ Forall (fun kv => is_object (snd kv) = false) opts.
Proof.
  induction schema as [type properties patternProperties items IHp IHq _]
    using Schema_ind_nested.
  intros prefix opts. cbn [collect_user_config_options].
  match goal with
  | |- context [foldM collect_entry (map snd (sorted_items ?l)) []] =>
      set (named := l)
  end.
  match goal with
  | |- context [sorted_specs ?l] => set (patterned := l)
  end.
  assert (Hchild : forall (l : dict Schema) spec name collected,
             Forall (fun kv => forall prefix opts,
                         collect_user_config_options (snd kv) prefix = Ok opts ->
                         NoDup (dict_keys opts)
                         /\ Forall (fun kv => is_object (snd kv) = false) opts)
                    l ->
             In spec (map snd l) ->
             collect_user_config_options spec name = Ok collected ->
             option_table collected).
  { intros l spec name collected Hl Hin Hrun.
    apply in_map_iff in Hin as (kv & <- & Hin).
    rewrite Forall_forall in Hl. exact (Hl kv Hin name collected Hrun). }
  destruct (foldM collect_entry (map snd (sorted_items named)) [])
    as [opts1|e] eqn:E1; [|discriminate].
  cbn [bind].
  assert (H1 : option_table opts1).
  { refine (collect_entries_table _ _ [] opts1 _ E1).
    - intros name spec collected Hin.
      apply in_map_iff in Hin as ([k x] & Hx & Hin). cbn [snd] in Hx. subst x.
      apply (proj1 (sorted_items_In _ _)) in Hin. unfold named in Hin.
      apply in_map_iff in Hin as ([prop s] & [= _ <- <- Hrun] & Hin).
      apply (Hchild properties s (full_name prefix prop) collected IHp);
        [|exact Hrun].
      apply in_map_iff. now exists (prop, s).
    - split; constructor. }
  destruct (sorted_specs patterned) as [specs|e] eqn:E2; [|discriminate].
  cbn [bind]. intros E3.
  refine (collect_entries_table _ _ opts1 opts H1 E3).
  intros name spec collected Hin.
  assert (Hin' : In (name, spec, Ok collected) patterned).
  { unfold sorted_specs in E2.
    destruct patterned as [|p1 [|p2 ps]]; try discriminate E2;
      injection E2 as <-; exact Hin. }
  unfold patterned in Hin'.
  apply in_map_iff in Hin' as ([pattern s] & [= <- <- Hrun] & Hin').
  apply (Hchild patternProperties s (full_name prefix "KEY") collected IHq);
    [|exact Hrun].
  apply in_map_iff. now exists (pattern, s).
Qed.

Lemma flattened_schema_is_a_table_witness :
  NoDup (dict_keys [("pg.ssl", Node (TypeName "boolean") [] [] None);
                    ("pg.timeout", Node (TypeName "integer") [] [] None)])
  /\ Forall (fun kv : string * Schema => is_object (snd kv) = false)
            [("pg.ssl", Node (TypeName "boolean") [] [] None);
             ("pg.timeout", Node (TypeName "integer") [] [] None)].
Proof.
  apply (flattened_schema_is_a_table
           (Node (TypeName "object")
                 [("timeout", Node (TypeName "integer") [] [] None);
                  ("ssl", Node (TypeName "boolean") [] [] None)] [] None)
           "pg").
  reflexivity.
Defined.

Lemma dict_update_keys {V : Type} (collected opts : dict V) (k : string) :
  In k (dict_keys opts) -> In k (dict_keys (dict_update opts collected)).
Proof.
  unfold dict_update. revert opts.
  induction collected as [|[k' v] collected IH]; intros opts Hk; [exact Hk|].
  cbn [fold_left fst snd]. apply IH. apply dict_keys_set. now right.
Qed.

Lemma collect_entries_keys
      (entries : list (string * Schema * res (dict Schema))) :
  forall opts opts',
    foldM collect_entry entries opts = Ok opts' ->
    (forall k, In k (dict_keys opts) -> In k (dict_keys opts'))
    /\ (forall name spec nested,
           In (name, spec, nested) entries -> is_object spec = false ->
           In name (dict_keys opts')).
Proof.
  induction entries as [|[[name spec] nested] entries IH]; intros opts opts';
    cbn [foldM].
  - intros [= <-]. split; [auto | intros ? ? ? []].
  - cbn [collect_entry]. destruct (is_object spec) eqn:Hobj.
    + destruct nested as [collected|e]; [|discriminate]. cbn [bind].
      intros Hrun. destruct (IH _ _ Hrun) as [Hgrow Hleaves]. split.
      * intros k Hk. apply Hgrow. now apply dict_update_keys.
      * intros n s r [[= <- <- <-]|Hin] Hs; [congruence | eauto].
    + cbn [bind]. intros Hrun. destruct (IH _ _ Hrun) as [Hgrow Hleaves].
      split.
      * intros k Hk. apply Hgrow. apply dict_keys_set. now right.
      * intros n s r [[= <- <- <-]|Hin] Hs; [|eauto].
        apply Hgrow. apply dict_keys_set. now left.
Qed.
(** *** Exceptions that are not turned into a [UserError] *)

(** Storing under a path with something else than a mapping on the way
    raises, and what it raises is the interpreter's own exception. *)
Lemma assign_blocked (parts : list string) :
  forall (conf value : Value) (n : nat) (x : Value),
    n < List.length parts ->
    get_path conf (firstn n parts) = Some x ->
    is_dict x = false ->
    exists msg,
      assign conf parts value = Raise (TypeError msg)
      \/ assign conf parts value = Raise (AttributeError msg).
Proof.
  induction parts as [|part rest IH]; intros conf value n x Hn Hget Hx;
    [cbn in Hn; lia|].
  destruct n as [|n].
  - cbn [firstn get_path] in Hget. injection Hget as <-.
    destruct conf; try discriminate Hx; destruct rest; cbn [assign];
      eexists; (left; reflexivity) || (right; reflexivity).
  - cbn [firstn get_path] in Hget.
    destruct conf as [ | | | | | | items | ]; try discriminate Hget.
    destruct (dict_get items part) as [child|] eqn:Hchild;
      [|discriminate Hget].
    cbn [List.length] in Hn.
    destruct rest as [|next rest']; [cbn in Hn; lia|].
    rewrite assign_step. unfold child_of. rewrite Hchild.
    destruct (IH child value n x ltac:(lia) Hget Hx) as [msg [H|H]];
      rewrite H; cbn [bind]; eauto.
Qed.

(** C3.  Not every failure of the compiler is a [UserError].  (1) When the
    configuration built so far holds something else than a mapping on the
    path of the key (the value of an earlier assignment, say), an assignment
    whose option is found and whose value converts ends with the [TypeError]
    or [AttributeError] of the interpreter, and so does the whole call.
    (2) When the option found is converted as an array and its schema has no
    ["items"], the assignment ends with [KeyError], and so does the whole
    call.  The specification promises an error with a message for the user
    in every case, as the code gives for the failures it catches. *)
Theorem compile_leaks_exceptions (options : dict Schema) :
  (forall done rest user_config key value opt_schema converted n x,
      compile options done = Ok user_config ->
      contains_char "=" key = false ->
      find_option options key = Some opt_schema ->
      convert_str_to_value opt_schema value = Ok converted ->
      n < List.length (split "." key) ->
      get_path user_config (firstn n (split "." key)) = Some x ->
      is_dict x = false ->
      exists msg,
        compile options (done ++ (key ++ "=" ++ value)%string :: rest)%list
        = Raise (TypeError msg)
        \/ compile options (done ++ (key ++ "=" ++ value)%string :: rest)%list
           = Raise (AttributeError msg))
  /\ (forall done rest user_config key value type properties
             patternProperties,
         compile options done = Ok user_config ->
         contains_char "=" key = false ->
         find_option options key
         = Some (Node type properties patternProperties None) ->
         type_has "string" type = false ->
         type_has "integer" type = false ->
         type_has "number" type = false ->
         type_has "boolean" type = false ->
         type_has "array" type = true ->
         compile options (done ++ (key ++ "=" ++ value)%string :: rest)%list
         = Raise (KeyError "items")).
Proof.
  assert (Hstep : forall done rest user_config key_value e,
             compile options done = Ok user_config ->
             compile_assignment options user_config key_value = Raise e ->
             compile options (done ++ key_value :: rest)%list = Raise e).
  { intros done rest user_config key_value e Hdone Hfail. unfold compile in *.
    rewrite foldM_app, Hdone. cbn [bind foldM]. now rewrite Hfail. }
  split.
  - intros done rest user_config key value opt_schema converted n x
           Hdone Hkey Hfind Hconv Hn Hget Hx.
    destruct (assign_blocked (split "." key) user_config converted n x
                             Hn Hget Hx) as [msg Hassign].
    exists msg.
    assert (Hrun : compile_assignment options user_config (key ++ "=" ++ value)
                   = assign user_config (split "." key) converted).
    { unfold compile_assignment.
      rewrite (split_assignment _ _ Hkey), Hfind. unfold convert_option.
      now rewrite Hconv. }
    destruct Hassign as [H|H]; [left | right];
      apply (Hstep done rest user_config); auto; now rewrite Hrun.
  - intros done rest user_config key value type properties patternProperties
           Hdone Hkey Hfind Hs Hi Hn Hb Ha.
    apply (Hstep done rest user_config); [exact Hdone|].
    unfold compile_assignment.
    rewrite (split_assignment _ _ Hkey), Hfind. unfold convert_option.
    cbn [convert_str_to_value]. now rewrite Hs, Hi, Hn, Hb, Ha.
Qed.

Lemma compile_leaks_exceptions_witness :
  (exists msg,
      compile [("a.b", Node (TypeName "string") [] [] None);
               ("KEY", Node (TypeName "string") [] [] None)]
              ["a=1"; "a.b=2"]
      = Raise (TypeError msg)
      \/ compile [("a.b", Node (TypeName "string") [] [] None);
                  ("KEY", Node (TypeName "string") [] [] None)]
                 ["a=1"; "a.b=2"]
         = Raise (AttributeError msg))
  /\ compile [("tags", Node (TypeName "array") [] [] None)] ["tags=x,y"]
     = Raise (KeyError "items").
Proof.
  split.
  - apply (proj1 (compile_leaks_exceptions
                    [("a.b", Node (TypeName "string") [] [] None);
                     ("KEY", Node (TypeName "string") [] [] None)])
                 ["a=1"] [] (VDict [("a", VStr "1")]) "a.b" "2"
                 (Node (TypeName "string") [] [] None) (VStr "2")
                 1 (VStr "1"));
      try reflexivity.
    simpl. lia.
  - apply (proj2 (compile_leaks_exceptions
                    [("tags", Node (TypeName "array") [] [] None)])
                 [] [] (VDict []) "tags" "x,y" (TypeName "array") [] []);
      reflexivity.
Defined.

(** *** From the command line to the stored value *)

Lemma convert_option_ok (key_value : string) (opt_schema : Schema)
      (value : string) (converted : Value) :
  convert_option key_value opt_schema value = Ok converted ->
  convert_str_to_value opt_schema value = Ok converted.
Proof.
  unfold convert_option.
  destruct (convert_str_to_value opt_schema value) as [v|[]];
    try discriminate; auto.
Qed.

(** X9.  The last assignment of a compiled configuration is stored: its
    option was found under its key or under the generic key, its text was
    converted by the type of that option, and the converted value is what
    the configuration holds under the dotted path of the key. *)
Theorem last_assignment_is_stored (options : dict Schema)
        (earlier : list string) (key_value : string) (conf : Value) :
  compile options (earlier ++ [key_value])%list = Ok conf ->
  exists key value opt_schema converted,
    split1 "=" key_value = (key, Some value)
    /\ find_option options key = Some opt_schema
    /\ convert_str_to_value opt_schema value = Ok converted
    /\ get_path conf (split "." key) = Some converted.
Proof.
  unfold compile. rewrite foldM_app.
  destruct (foldM (compile_assignment options) earlier (VDict []))
    as [conf0|e]; [|discriminate].
  cbn [bind foldM]. 
  destruct (compile_assignment options conf0 key_value) as [conf1|e] eqn:E;
    [|discriminate].
  cbn [bind]. intros [= <-]. unfold compile_assignment in E.
  destruct (split1 "=" key_value) as [key [value|]]; [|discriminate E].
  destruct (find_option options key) as [opt_schema|] eqn:Ef;
    [|discriminate E].
  destruct (convert_option key_value opt_schema value) as [converted|e] eqn:Ec;
    [|discriminate E].
  cbn [bind] in E. exists key, value, opt_schema, converted.
  split; [reflexivity|]. split; [exact Ef|].
  split; [exact (convert_option_ok _ _ _ _ Ec)|].
  exact (assign_stores conf0 (split "." key) converted conf1
                          (split_nonempty "." key) E).
Qed.

Lemma last_assignment_is_stored_witness :
  exists key value opt_schema converted,
    split1 "=" "pg.timeout=0x10" = (key, Some value)
    /\ find_option [("pg.timeout", Node (TypeName "integer") [] [] None);
                    ("pg.ssl", Node (TypeName "boolean") [] [] None)] key
       = Some opt_schema
    /\ convert_str_to_value opt_schema value = Ok converted
    /\ get_path (VDict [("pg", VDict [("ssl", VBool true);
                                      ("timeout", VInt 16)])])
                (split "." key)
       = Some converted.
Proof.
  apply (last_assignment_is_stored
           [("pg.timeout", Node (TypeName "integer") [] [] None);
            ("pg.ssl", Node (TypeName "boolean") [] [] None)]
           ["pg.ssl=1"] "pg.timeout=0x10").
  reflexivity.
Defined.

End CompilerFacts.

(** ** The commands *)

Module CommandFacts.
Import Py PyFacts Cli CliFacts Commands Reading.

(** *** [service terminate] *)

Lemma attempted_app (a b : list event) :
  attempted (a ++ b)%list = (attempted a ++ attempted b)%list.
Proof. apply flat_map_app. Qed.

Lemma deleted_app (a b : list event) :
  deleted (a ++ b)%list = (deleted a ++ deleted b)%list.
Proof. apply flat_map_app. Qed.

Lemma confirm_names_quiet (names : list string) :
  forall inputs,
    attempted (fst (confirm_names names inputs)) = []
    /\ deleted (fst (confirm_names names inputs)) = [].
Proof.
  induction names as [|name names IH]; intros inputs; cbn [confirm_names];
    [now split|].
  destruct inputs as [|user_input inputs]; [now split|].
  destruct (String.eqb user_input name); cbn [negb]; [|now split].
  specialize (IH inputs). destruct (confirm_names names inputs) as [events s].
  exact IH.
Qed.

Lemma confirm_names_done (names : list string) :
  forall inputs,
    snd (confirm_names names inputs) = None ->
    firstn (List.length names) inputs = names.
Proof.
  induction names as [|name names IH]; intros inputs; cbn [confirm_names];
    [reflexivity|].
  destruct inputs as [|user_input inputs]; [discriminate|].
  destruct (String.eqb user_input name) eqn:E; cbn [negb]; [|discriminate].
  apply String.eqb_eq in E. subst user_input.
  specialize (IH inputs). destruct (confirm_names names inputs) as [events s].
  cbn [snd] in *. intros Hs. cbn [List.length firstn]. now rewrite IH.
Qed.

Lemma confirm_names_mismatch (names : list string) :
  forall inputs,
    List.length names <= List.length inputs ->
    firstn (List.length names) inputs <> names ->
    snd (confirm_names names inputs)
    = Some (Raised (UserError "Not confirmed by user. Aborting termination.")).
Proof.
  induction names as [|name names IH]; intros inputs Hlen Hne;
    [now destruct Hne|].
  destruct inputs as [|user_input inputs]; [cbn in Hlen; lia|].
  cbn [confirm_names].
  destruct (String.eqb user_input name) eqn:E; cbn [negb]; [|reflexivity].
  apply String.eqb_eq in E. subst user_input.
  cbn [List.length firstn] in Hlen, Hne.
  assert (Hlen' : List.length names <= List.length inputs) by lia.
  assert (Hne' : firstn (List.length names) inputs <> names) by congruence.
  specialize (IH inputs Hlen' Hne').
  destruct (confirm_names names inputs) as [events s]. exact IH.
Qed.

Lemma banner_quiet : attempted banner = [] /\ deleted banner = [].
Proof. split; reflexivity. Qed.

Section TerminateFacts.

Variable delete_service : string -> bool.

Lemma delete_names_order (names : list string) :
  Forall (fun name => delete_service name = true)
         (deleted (fst (delete_names delete_service names)))
  /\ match snd (delete_names delete_service names) with
     | None =>
         deleted (fst (delete_names delete_service names)) = names
         /\ attempted (fst (delete_names delete_service names)) = names
     | Some (ClientError name) =>
         exists after,
           names
           = (deleted (fst (delete_names delete_service names))
              ++ name :: after)%list
           /\ attempted (fst (delete_names delete_service names))
              = (deleted (fst (delete_names delete_service names))
                 ++ [name])%list
           /\ delete_service name = false
     | Some _ => False
     end.
Proof.
  induction names as [|name names IH]; cbn [delete_names].
  - split; [constructor | split; reflexivity].
  - destruct (delete_service name) eqn:E.
    + destruct (delete_names delete_service names) as [events stopped].
      cbn [fst snd] in *. destruct IH as [Hall Hstop].
      cbn [deleted attempted flat_map app].
      fold (deleted events). fold (attempted events).
      split; [now constructor|].
      destruct stopped as [[e| |failed]|]; try contradiction.
      * destruct Hstop as (after & Hnames & Hatt & Hfail).
        exists after. cbn [app]. rewrite <- Hnames, Hatt. auto.
      * destruct Hstop as [-> ->]. auto.
    + cbn [fst snd deleted attempted flat_map app]. split; [constructor|].
      exists names. auto.
Qed.

(** X10.  [service terminate] calls [delete_service] only when [--force] is
    given, or [AIVEN_FORCE] is [true], or every name was typed again as it
    is, in the order of the command line: no service is deleted before all
    names are confirmed. *)
Theorem terminate_needs_confirmation (force : bool)
        (aiven_force : option string) (names inputs : list string) :
  attempted (fst (service_terminate delete_service force aiven_force
                                    names inputs)) <> [] ->
  force = true
  \/ aiven_force = Some "true"
  \/ firstn (List.length names) inputs = names.
Proof.
  unfold service_terminate. intros H. destruct force; [now left|]. right.
  assert (Henv : (exists value, aiven_force = Some value
                                /\ String.eqb value "true" = true)
                 \/ match aiven_force with
                    | Some value => String.eqb value "true"
                    | None => false
                    end = false).
  { destruct aiven_force as [value|]; [|now right].
    destruct (String.eqb value "true") eqn:E; [left; eauto | now right]. }
  destruct Henv as [(value & -> & E)|Henv].
  - apply String.eqb_eq in E. subst value. now left.
  - rewrite Henv in H. cbn [negb andb] in H. right.
    pose proof (confirm_names_quiet names inputs) as [Hquiet _].
    pose proof (confirm_names_done names inputs) as Hdone.
    destruct (confirm_names names inputs) as [events stopped].
    cbn [fst snd] in *. destruct stopped as [s|]; [|now apply Hdone].
    cbn [fst] in H. rewrite attempted_app, Hquiet in H.
    destruct (proj1 banner_quiet). now destruct H.
Qed.

(** X11.  [service terminate] deletes in the order of the command line and
    stops at the first service the client refuses: when it returns, every
    name was deleted; when the client fails at a name, the names before it
    were deleted, that one was tried and none after it; when the
    confirmation fails, nothing was tried. *)
Theorem terminate_deletes_in_order (force : bool)
        (aiven_force : option string) (names inputs : list string) :
  let run := service_terminate delete_service force aiven_force names inputs in
  Forall (fun name => delete_service name = true) (deleted (fst run))
  /\ match snd run with
     | None => deleted (fst run) = names /\ attempted (fst run) = names
     | Some (ClientError name) =>
         exists after,
           names = (deleted (fst run) ++ name :: after)%list
           /\ attempted (fst run) = (deleted (fst run) ++ [name])%list
           /\ delete_service name = false
     | Some _ => attempted (fst run) = [] /\ deleted (fst run) = []
     end.
Proof.
  cbv zeta. unfold service_terminate.
  pose proof (delete_names_order names) as Horder.
  match goal with
  | |- context [if ?c then _ else _] => destruct c
  end.
  - pose proof (confirm_names_quiet names inputs) as [Hatt Hdel].
    assert (Hstop : forall name,
               snd (confirm_names names inputs) <> Some (ClientError name)).
    { clear. revert inputs.
      induction names as [|n names IH]; intros inputs name;
        cbn [confirm_names]; [discriminate|].
      destruct inputs as [|i inputs]; [discriminate|].
      destruct (String.eqb i n); cbn [negb]; [|discriminate].
      specialize (IH inputs name).
      now destruct (confirm_names names inputs). }
    destruct (confirm_names names inputs) as [events stopped].
    cbn [fst snd] in *.
    destruct stopped as [s|].
    + cbn [fst snd]. rewrite attempted_app, deleted_app, Hatt, Hdel.
      destruct banner_quiet as [-> ->]. cbn [app].
      split; [constructor|].
      destruct s as [e| |name]; [now split | now split|].
      now destruct (Hstop name).
    + destruct (delete_names delete_service names) as [done failed].
      cbn [fst snd] in *.
      rewrite !attempted_app, !deleted_app, Hatt, Hdel.
      destruct banner_quiet as [-> ->]. cbn [app].
      destruct Horder as [Hall Hfailed]. split; [exact Hall|].
      destruct failed as [[e| |name]|]; try contradiction; exact Hfailed.
  - destruct (delete_names delete_service names) as [done failed].
    cbn [fst snd app] in *.
    destruct Horder as [Hall Hstop]. split; [exact Hall|].
    destruct failed as [[e| |name]|]; try contradiction; exact Hstop.
Qed.

(** X12.  When a name is typed wrongly and neither [--force] nor
    [AIVEN_FORCE] is set, [service terminate] ends with the [UserError]
    "Not confirmed by user" and has deleted nothing, also when names before
    the wrong one were confirmed. *)
Theorem terminate_aborts_on_mismatch (aiven_force : option string)
        (names inputs : list string) :
  aiven_force <> Some "true" ->
  List.length names <= List.length inputs ->
  firstn (List.length names) inputs <> names ->
  let run := service_terminate delete_service false aiven_force names inputs in
  snd run
  = Some (Raised (UserError "Not confirmed by user. Aborting termination."))
  /\ attempted (fst run) = [].
Proof.
  intros Henv Hlen Hne. cbv zeta. unfold service_terminate.
  assert (E : match aiven_force with
              | Some value => String.eqb value "true"
              | None => false
              end = false).
  { destruct aiven_force as [value|]; [|reflexivity].
    destruct (String.eqb value "true") eqn:E; [|reflexivity].
    apply String.eqb_eq in E. congruence. }
  rewrite E. cbn [negb andb].
  pose proof (confirm_names_mismatch names inputs Hlen Hne) as Hstop.
  pose proof (confirm_names_quiet names inputs) as [Hatt _].
  destruct (confirm_names names inputs) as [events stopped].
  cbn [fst snd] in *. subst stopped. cbn [fst snd].
  split; [reflexivity|].
  rewrite attempted_app, Hatt. now destruct banner_quiet as [-> _].
Qed.

End TerminateFacts.

Lemma terminate_needs_confirmation_witness :
  false = true
  \/ (None : option string) = Some "true"
  \/ firstn (List.length ["db1"; "db2"]) ["db1"; "db2"; "extra"]
     = ["db1"; "db2"].
Proof.
  apply (terminate_needs_confirmation (fun _ => true) false None
                                      ["db1"; "db2"] ["db1"; "db2"; "extra"]).
  vm_compute. discriminate.
Defined.

Lemma terminate_aborts_on_mismatch_witness :
  let run := service_terminate (fun _ => true) false (Some "TRUE")
                               ["db1"; "db2"] ["db1"; "db3"] in
  snd run
  = Some (Raised (UserError "Not confirmed by user. Aborting termination."))
  /\ attempted (fst run) = [].
Proof.
  apply (terminate_aborts_on_mismatch (fun _ => true) (Some "TRUE")
                                      ["db1"; "db2"] ["db1"; "db3"]).
  - discriminate.
  - simpl. lia.
  - simpl. discriminate.
Defined.

(** *** [service create] *)

Lemma split_pair (c : ascii) (before after : string) :
  contains_char c before = false ->
  contains_char c after = false ->
  split c (before ++ String c after) = [before; after].
Proof.
  intros Hb Ha. rewrite (split_last _ _ _ Ha). now rewrite (split_absent _ _ Hb).
Qed.

(** X13.  With [-t type:plan] the plan is the text after the colon:
    [--plan] is not read, an empty text after the colon ends the command
    with "No subscription plan given" even when [--plan] is given, and a
    request that is sent names the type before the colon and that plan. *)
Theorem plan_after_colon (args : ServiceCreateArgs) (project : option string)
        (service_types : dict Schema) (type plan : string)
        (other : option string) :
  sc_service_type args = type ++ ":" ++ plan ->
  contains_char ":" type = false ->
  contains_char ":" plan = false ->
  service_create (with_plan args other) project service_types
  = service_create args project service_types
  /\ (is_empty plan = true ->
      service_create args project service_types
      = Raise (UserError "No subscription plan given"))
  /\ (forall request,
         service_create args project service_types = Ok request ->
         cs_service_type request = type /\ cs_plan request = Some plan).
Proof.
  intros Htype Ht Hp.
  pose proof (split_pair ":" type plan Ht Hp) as Hsplit.
  change (type ++ String ":" plan) with (type ++ ":" ++ plan) in Hsplit.
  unfold service_create, with_plan. cbn [sc_service_type sc_plan sc_name
    sc_group_name sc_cloud sc_user_config].
  rewrite Htype, Hsplit. cbn [List.length Nat.eqb nth hd truthy].
  split; [reflexivity|]. split.
  - intros ->. reflexivity.
  - intros request. destruct (is_empty plan); cbn [negb]; [discriminate|].
    destruct (create_user_config _ _ _); cbn [bind]; [|discriminate].
    intros [= <-]. split; reflexivity.
Qed.

Lemma plan_after_colon_witness :
  service_create
    (with_plan {| sc_name := "db1"; sc_group_name := "default";
                  sc_service_type := "pg:hobbyist"; sc_plan := None;
                  sc_cloud := None; sc_user_config := [] |}
               (Some "business-4"))
    (Some "test") []
  = Ok {| cs_project := Some "test"; cs_service := "db1";
          cs_service_type := "pg"; cs_plan := Some "hobbyist";
          cs_cloud := None; cs_group_name := "default";
          cs_user_config := VDict [] |}.
Proof.
  apply (proj1 (plan_after_colon
                  {| sc_name := "db1"; sc_group_name := "default";
                     sc_service_type := "pg:hobbyist"; sc_plan := None;
                     sc_cloud := None; sc_user_config := [] |}
                  (Some "test") [] "pg" "hobbyist" (Some "business-4")
                  eq_refl eq_refl eq_refl)).
Defined.

Lemma dict_get_key {V : Type} (d : dict V) (k : string) (v : V) :
  dict_get d k = Some v -> In k (dict_keys d).
Proof. intros H. apply dict_get_In. congruence. Qed.

(** X14.  [-t type:plan] cannot be combined with [-c] assignments: the
    service type is looked up as it was typed, colon and plan included, so
    with names of service types that hold no colon the command ends with a
    [UserError], "Unknown service type" unless no plan was found. *)
Theorem colon_notation_excludes_user_config (args : ServiceCreateArgs)
        (project : option string) (service_types : dict Schema) :
  contains_char ":" (sc_service_type args) = true ->
  sc_user_config args <> [] ->
  (forall name, In name (dict_keys service_types) ->
                contains_char ":" name = false) ->
  service_create args project service_types
  = Raise (UserError "No subscription plan given")
  \/ service_create args project service_types
     = Raise (UserError ("Unknown service type "
                         ++ repr_str (sc_service_type args)
                         ++ ", available options: "
                         ++ join ", " (dict_keys service_types))).
Proof.
  intros Hcolon Hvars Hnames. unfold service_create.
  match goal with
  | |- context [if negb (truthy ?p) then _ else _] =>
      destruct (negb (truthy p)); [now left|]
  end.
  right. unfold create_user_config.
  destruct (sc_user_config args) as [|v vs]; [congruence|]. cbn [is_nil].
  destruct (dict_get service_types (sc_service_type args)) as [schema|] eqn:E;
    [|reflexivity].
  apply dict_get_key in E. apply Hnames in E. congruence.
Qed.

Lemma colon_notation_excludes_user_config_witness :
  let args := {| sc_name := "db1"; sc_group_name := "default";
                 sc_service_type := "pg:hobbyist"; sc_plan := None;
                 sc_cloud := None;
                 sc_user_config := ["pg_version=12"] |} in
  let service_types :=
    [("pg", Node (TypeName "object")
                 [("pg_version", Node (TypeName "string") [] [] None)]
                 [] None)] in
  service_create args None service_types
  = Raise (UserError "No subscription plan given")
  \/ service_create args None service_types
     = Raise (UserError ("Unknown service type "
                         ++ repr_str (sc_service_type args)
                         ++ ", available options: "
                         ++ join ", " (dict_keys service_types))).
Proof.
  apply (colon_notation_excludes_user_config
           {| sc_name := "db1"; sc_group_name := "default";
              sc_service_type := "pg:hobbyist"; sc_plan := None;
              sc_cloud := None;
              sc_user_config := ["pg_version=12"] |}
           None
           [("pg", Node (TypeName "object")
                        [("pg_version", Node (TypeName "string") [] [] None)]
                        [] None)]).
  - reflexivity.
  - discriminate.
  - intros name [<-|[]]. reflexivity.
Defined.

End CommandFacts.

(** ** The renderer, further *)

Module RendererFacts.
Import Py PyFacts Pretty PrettyFacts Reading.

(** *** Column widths *)

Lemma width_of_set_same (widths : dict nat) (f : string) (w : nat) :
  width_of (dict_set widths f w) f = w.
Proof. unfold width_of. now rewrite dict_get_set_same. Qed.

Lemma width_of_set_other (widths : dict nat) (k f : string) (w : nat) :
  k <> f -> width_of (dict_set widths k w) f = width_of widths f.
Proof. intros H. unfold width_of. now rewrite dict_get_set_other. Qed.

Lemma format_field_widths (formatted_row formatted_row' : dict string)
      (widths widths' : dict nat) (kv : string * Value) :
  format_field (formatted_row, widths) kv = Ok (formatted_row', widths') ->
  grows widths widths'
  /\ (fits widths formatted_row -> fits widths' formatted_row')
  /\ (named widths -> named widths').
Proof.
  destruct kv as [subkey subvalue]. cbn [format_field].
  destruct (format_item (Some subkey) subvalue) as [text|e]; [|discriminate].
  cbn [bind]. intros [= <- <-].
  assert (Hknown : width_of widths subkey
                   <= match dict_get widths subkey with
                      | Some w => w
                      | None => 1
                      end).
  { unfold width_of. destruct (dict_get widths subkey); lia. }
  assert (Hgrows : forall f,
             width_of widths f
             <= width_of (dict_set widths subkey
                            (Nat.max (String.length subkey)
                               (Nat.max (String.length text)
                                  match dict_get widths subkey with
                                  | Some w => w
                                  | None => 1
                                  end))) f).
  { intros f. destruct (string_dec subkey f) as [<-|Hne].
    - rewrite width_of_set_same. lia.
    - now rewrite width_of_set_other. }
  split; [exact Hgrows|]. split.
  - intros Hfits f text'. destruct (string_dec subkey f) as [<-|Hne].
    + rewrite dict_get_set_same, width_of_set_same. intros [= <-]. lia.
    + rewrite dict_get_set_other, width_of_set_other by exact Hne.
      apply Hfits.
  - intros Hnamed f w. destruct (string_dec subkey f) as [<-|Hne].
    + rewrite dict_get_set_same. intros [= <-]. lia.
    + rewrite dict_get_set_other by exact Hne. apply Hnamed.
Qed.

Lemma grows_trans (a b c : dict nat) : grows a b -> grows b c -> grows a c.
Proof. intros H1 H2 f. specialize (H1 f). specialize (H2 f). lia. Qed.

Lemma fits_grows (a b : dict nat) (formatted_row : dict string) :
  grows a b -> fits a formatted_row -> fits b formatted_row.
Proof.
  intros Hg Hf f text Hget. specialize (Hf f text Hget). specialize (Hg f). lia.
Qed.

Lemma format_fields_widths (fields : list (string * Value)) :
  forall (formatted_row formatted_row' : dict string)
         (widths widths' : dict nat),
    foldM format_field fields (formatted_row, widths)
    = Ok (formatted_row', widths') ->
    grows widths widths'
    /\ (fits widths formatted_row -> fits widths' formatted_row')
    /\ (named widths -> named widths').
Proof.
  induction fields as [|kv fields IH]; intros row row' widths widths';
    cbn [foldM].
  - intros [= <- <-]. split; [intros f; lia | auto].
  - destruct (format_field (row, widths) kv) as [[row1 widths1]|e] eqn:E;
      [|discriminate].
    cbn [bind]. intros Hrest.
    destruct (format_field_widths _ _ _ _ _ E) as (Hg1 & Hf1 & Hn1).
    destruct (IH _ _ _ _ Hrest) as (Hg2 & Hf2 & Hn2).
    split; [exact (grows_trans _ _ _ Hg1 Hg2) | auto].
Qed.

Lemma format_records_widths (drop_fields : list string)
      (result : list Value) :
  forall (widths widths' : dict nat) (formatted_values : list (dict string)),
    format_records drop_fields result widths = Ok (formatted_values, widths') ->
    grows widths widths'
    /\ Forall (fits widths') formatted_values
    /\ (named widths -> named widths').
Proof.
  induction result as [|item result IH]; intros widths widths' rows;
    cbn [format_records].
  - intros [= <- <-]. split; [intros f; lia | auto].
  - destruct (format_record drop_fields widths item) as [[row widths1]|e]
      eqn:E; [|discriminate].
    cbn [bind].
    destruct (format_records drop_fields result widths1)
      as [[rows' widths2]|e] eqn:E'; [|discriminate].
    cbn [bind]. intros [= <- <-].
    destruct (IH _ _ _ E') as (Hg2 & Hrows & Hn2).
    unfold format_record in E. destruct item; try discriminate E.
    destruct (format_fields_widths _ _ _ _ _ E) as (Hg1 & Hf1 & Hn1).
    split; [exact (grows_trans _ _ _ Hg1 Hg2)|]. split; [|auto].
    constructor; [|exact Hrows].
    apply (fits_grows widths1); [exact Hg2|]. apply Hf1.
    intros f text. discriminate.
Qed.

Lemma upper_char_ascii (c : ascii) :
  (code c <? 128)%nat = true -> String.length (upper_char c) = 1.
Proof. ascii_cases c; vm_compute; intros H; try reflexivity; discriminate H. Qed.

(** Upper-casing keeps the length of an ASCII text; it does not keep the
    length of a text with a sharp s. *)
Lemma length_upper (s : string) :
  ascii_text s = true -> String.length (upper s) = String.length s.
Proof.
  unfold upper, ascii_text. induction s as [|c s IH]; [reflexivity|].
  cbn [all_chars concat_map String.length]. intros H.
  apply andb_true_iff in H as [Hc Hs].
  rewrite length_app, (upper_char_ascii c Hc), (IH Hs). reflexivity.
Qed.

Lemma join_length_ext {A : Type} (sep : string) (g h : A -> string)
      (l : list A) :
  (forall a, In a l -> String.length (g a) = String.length (h a)) ->
  String.length (join sep (map g l)) = String.length (join sep (map h l)).
Proof.
  induction l as [|a l IH]; intros H; [reflexivity|].
  destruct l as [|b l].
  - cbn. apply H. now left.
  - cbn [map]. cbn [map] in IH.
    rewrite (CliFacts.join_cons sep (g a)), (CliFacts.join_cons sep (h a))
      by discriminate.
    rewrite !length_app, IH; [|intros x Hx; apply H; now right].
    rewrite (H a); [reflexivity | now left].
Qed.

Section AlignmentFacts.

Variable fnmatch : string -> string -> bool.

Lemma split_layout_vertical (table_layout : option LayoutSpec)
      (widths : dict nat) (horizontal vertical : list string) :
  split_layout match table_layout with
               | None => Fields (sorted (dict_keys widths))
               | Some layout => layout
               end = Ok (horizontal, vertical) ->
  vertical = vertical_of table_layout.
Proof.
  destruct table_layout as [[[|c columns]|h v]|]; cbn [split_layout vertical_of];
    try discriminate; try (now intros [= <- <-]).
  destruct (sorted (dict_keys widths)); [discriminate | now intros [= <- <-]].
Qed.

Lemma split_layout_columns (table_layout : option LayoutSpec)
      (names : list string) (widths : dict nat)
      (horizontal vertical : list string) :
  (forall f, In f (dict_keys widths) <-> In f names) ->
  split_layout match table_layout with
               | None => Fields (sorted (dict_keys widths))
               | Some layout => layout
               end = Ok (horizontal, vertical) ->
  forall f, In f horizontal -> In f (columns table_layout names).
Proof.
  intros Hkeys.
  destruct table_layout as [[[|c cs]|h v]|]; cbn [split_layout columns];
    try discriminate; try (intros [= <- <-]; auto).
  destruct (sorted (dict_keys widths)) as [|g gs] eqn:E; [discriminate|].
  intros [= <- <-] f Hf. apply Hkeys.
  apply (sorted_In f (dict_keys widths)). now rewrite E.
Qed.

(** X15.  The columns of a table whose header names are ASCII are aligned:
    when the layout has no vertical rows, the header, the underline and the
    row of every record have the same length, because every column is as
    wide as its name and as its longest text, and upper-casing an ASCII
    name keeps its length.  (A name with a sharp s grows in the header, see
    [header_wider_than_its_column].) *)
Theorem columns_are_aligned (first : Value) (rest : list Value)
        (drop_fields : list string) (table_layout : option LayoutSpec) :
  Forall (fun item => record_ok drop_fields item = true) (first :: rest) ->
  layout_fits table_layout (field_names drop_fields (first :: rest)) ->
  vertical_of table_layout = [] ->
  Forall (fun f => ascii_text f = true)
         (columns table_layout (field_names drop_fields (first :: rest))) ->
  exists lines width,
    print_table fnmatch (first :: rest) drop_fields table_layout = Ok lines
    /\ List.length lines = 2 + List.length (first :: rest)
    /\ Forall (fun line => String.length line = width) lines.
Proof.
  intros Hall Hfits Hvertical Hascii.
  destruct (print_table_shape fnmatch first rest drop_fields table_layout Hall)
    as (rows & widths & Hrun & Hrows & Hkeys & Hnd & Hpos & Hprint).
  destruct (split_layout_fits table_layout _ widths Hfits Hkeys)
    as (horizontal & vertical & Hlayout & Hcolumns & _).
  pose proof (split_layout_columns _ _ _ _ _ Hkeys Hlayout) as Hheader.
  rewrite Forall_forall in Hascii.
  pose proof (split_layout_vertical _ _ _ _ Hlayout) as Hv.
  rewrite Hvertical in Hv. subst vertical.
  specialize (Hprint horizontal [] Hlayout Hcolumns).
  destruct (format_records_widths _ _ _ _ _ Hrun) as (_ & Hrowsfit & Hnamed).
  assert (Hnames : named widths) by (apply Hnamed; intros f w; discriminate).
  assert (Hblocks :
            map (record_block fnmatch widths horizontal []
                   (vertical_width fnmatch (last rows []) [])) rows
            = map (fun row => [data_line widths horizontal row]) rows).
  { apply map_ext. reflexivity. }
  rewrite Hblocks in Hprint. cbn [gap is_nil] in Hprint.
  rewrite separated_no_gap in Hprint.
  exists (header_line widths horizontal :: underline widths horizontal
          :: map (data_line widths horizontal) rows),
    (String.length (underline widths horizontal)).
  split; [exact Hprint|]. split.
  { cbn [List.length]. rewrite length_map.
    apply Forall2_length in Hrows. cbn [List.length] in Hrows. lia. }
  assert (Hwidth : forall f, In f horizontal ->
                             String.length f <= width_of widths f).
  { intros f Hf. apply Hcolumns, Hkeys in Hf.
    destruct (dict_item_present widths f Hf) as (w & Hget & _).
    unfold width_of. rewrite Hget. exact (Hnames f w Hget). }
  constructor; [|constructor; [reflexivity|]].
  - unfold header_line, underline. apply join_length_ext. intros f Hf.
    rewrite length_ljust, length_repeat_char.
    rewrite (length_upper f (Hascii f (Hheader f Hf))).
    specialize (Hwidth f Hf). lia.
  - apply Forall_forall. intros line Hline.
    apply in_map_iff in Hline as (row & <- & Hrow).
    rewrite Forall_forall in Hrowsfit. specialize (Hrowsfit row Hrow).
    unfold data_line, underline. apply join_length_ext. intros f Hf.
    unfold row_cell. rewrite length_ljust, length_repeat_char.
    destruct (dict_get row f) as [text|] eqn:E.
    + specialize (Hrowsfit f text E). lia.
    + cbn. lia.
Qed.

(** *** Dropped fields *)

Lemma item_fields_without (drop_fields : list string) (items : dict Value) :
  item_fields drop_fields items
  = item_fields []
      (filter (fun kv : string * Value =>
                 negb (existsb (String.eqb (fst kv)) drop_fields)) items).
Proof.
  unfold item_fields. induction items as [|[key value] items IH];
    [reflexivity|].
  cbn [flat_map filter fst].
  destruct (existsb (String.eqb key) drop_fields); cbn [negb app].
  - exact IH.
  - cbn [flat_map existsb]. now rewrite IH.
Qed.

Lemma format_record_without (drop_fields : list string) (widths : dict nat)
      (item : Value) :
  format_record drop_fields widths item
  = format_record [] widths (without_keys drop_fields item).
Proof.
  destruct item; try reflexivity.
  cbn [format_record without_keys]. now rewrite item_fields_without.
Qed.

Lemma format_records_without (drop_fields : list string)
      (result : list Value) :
  forall widths,
    format_records drop_fields result widths
    = format_records [] (map (without_keys drop_fields) result) widths.
Proof.
  induction result as [|item result IH]; intros widths; [reflexivity|].
  cbn [format_records map]. rewrite format_record_without.
  destruct (format_record [] widths (without_keys drop_fields item))
    as [[row widths1]|e]; [|reflexivity].
  cbn [bind]. now rewrite IH.
Qed.

(** X16.  Dropping fields is removing keys: on a list whose first element
    is a mapping, [print_table] with [drop_fields] prints (or raises) what
    it does without [drop_fields] on the records with those top-level keys
    removed.  Keys of nested mappings are never dropped. *)
Theorem dropping_is_removing_keys (first : Value) (rest : list Value)
        (drop_fields : list string) (table_layout : option LayoutSpec) :
  is_dict first = true ->
  print_table fnmatch (first :: rest) drop_fields table_layout
  = print_table fnmatch (map (without_keys drop_fields) (first :: rest)) []
                table_layout.
Proof.
  intros Hfirst. unfold print_table. cbn [map].
  assert (Hfirst' : is_dict (without_keys drop_fields first) = true)
    by (destruct first; try discriminate Hfirst; reflexivity).
  rewrite Hfirst, Hfirst'. cbn [negb].
  change (without_keys drop_fields first :: map (without_keys drop_fields) rest)
    with (map (without_keys drop_fields) (first :: rest)).
  now rewrite <- format_records_without.
Qed.

(** *** Detail lines *)

Lemma max_bound (x : nat) (l : list nat) :
  In x l -> x <= fold_right Nat.max 0 l.
Proof.
  induction l as [|y l IH]; [intros []|].
  intros [->|H]; cbn [fold_right]; [lia|]. specialize (IH H). lia.
Qed.

Lemma vertical_width_bound (formatted_row : dict string)
      (vertical : list string) (vertical_field key : string) :
  In vertical_field vertical ->
  In key (dict_keys formatted_row) ->
  fnmatch key vertical_field = true ->
  String.length (after_dot key)
  <= vertical_width fnmatch formatted_row vertical.
Proof.
  intros Hvf Hkey Hmatch. unfold vertical_width.
  apply Nat.le_trans with (longest fnmatch formatted_row vertical_field).
  - unfold longest. apply max_bound.
    apply (in_map (fun f => String.length (after_dot f))).
    apply filter_In. now split.
  - apply max_bound. now apply in_map.
Qed.

(** X17.  The detail lines of the record the width is taken from, the last
    one, are aligned: each is four spaces, a name padded to exactly the
    vertical width, [" = "] and the value, so that all values of that
    record start in the same column. *)
Theorem detail_lines_of_last_record (formatted_row : dict string)
        (vertical : list string) :
  let width := vertical_width fnmatch formatted_row vertical in
  Forall (fun line =>
            exists name value,
              line = "    " ++ name ++ " = " ++ value
              /\ String.length name = width)
         (vertical_block fnmatch width vertical formatted_row).
Proof.
  cbv zeta. unfold vertical_block. apply Forall_flat_map.
  apply Forall_forall. intros vertical_field Hvf.
  apply Forall_flat_map. apply Forall_forall. intros [key value] Hkv.
  destruct (fnmatch key vertical_field) eqn:Hmatch; [|constructor].
  constructor; [|constructor].
  exists (ljust (after_dot key)
                (vertical_width fnmatch formatted_row vertical)), value.
  split; [reflexivity|]. rewrite length_ljust.
  apply (proj1 (CliFacts.sorted_items_In _ _)) in Hkv.
  assert (Hkey : In key (dict_keys formatted_row))
    by (apply (in_map fst) in Hkv; exact Hkv).
  pose proof (vertical_width_bound _ _ _ _ Hvf Hkey Hmatch). lia.
Qed.

End AlignmentFacts.

Lemma columns_are_aligned_witness :
  exists lines width,
    print_table fnmatch_glob
                [VDict [("name", VStr "db1"); ("plan", VStr "hobbyist")];
                 VDict [("name", VStr "warehouse")]]
                [] None = Ok lines
    /\ List.length lines
       = 2 + List.length
               [VDict [("name", VStr "db1"); ("plan", VStr "hobbyist")];
                VDict [("name", VStr "warehouse")]]
    /\ Forall (fun line => String.length line = width) lines.
Proof.
  apply (columns_are_aligned
           fnmatch_glob
           (VDict [("name", VStr "db1"); ("plan", VStr "hobbyist")])
           [VDict [("name", VStr "warehouse")]] [] None).
  - repeat constructor.
  - simpl. discriminate.
  - reflexivity.
  - repeat constructor.
Defined.

(** Outside ASCII the header can be longer than its column: the sharp s
    (223) is one character wide in the column and two, [SS], in the
    header. *)
Example header_wider_than_its_column :
  print_table fnmatch_glob
              [VDict [(str1 (ascii_of_nat 223), VStr "x")]] [] None
  = Ok ["SS"; "="; "x"].
Proof. reflexivity. Qed.

Lemma dropping_is_removing_keys_witness :
  print_table fnmatch_glob
              [VDict [("name", VStr "db1"); ("ca_cert", VStr "secret")];
               VDict [("name", VStr "db2");
                      ("user", VDict [("ca_cert", VStr "kept")])]]
              ["ca_cert"] None
  = print_table fnmatch_glob
                (map (without_keys ["ca_cert"])
                     [VDict [("name", VStr "db1"); ("ca_cert", VStr "secret")];
                      VDict [("name", VStr "db2");
                             ("user", VDict [("ca_cert", VStr "kept")])]])
                [] None.
Proof.
  apply (dropping_is_removing_keys
           fnmatch_glob
           (VDict [("name", VStr "db1"); ("ca_cert", VStr "secret")])
           [VDict [("name", VStr "db2");
                   ("user", VDict [("ca_cert", VStr "kept")])]]
           ["ca_cert"] None).
  reflexivity.
Defined.

(** *** Flattened names *)

Lemma startswith_app (s rest : string) : startswith (s ++ rest) s = true.
Proof.
  induction s as [|c s IH]; [reflexivity|]. cbn [append startswith].
  now rewrite Ascii.eqb_refl, IH.
Qed.

Lemma startswith_prefix (s p q : string) :
  startswith s (p ++ q) = true -> startswith s p = true.
Proof.
  revert s. induction p as [|c p IH]; intros s; [reflexivity|].
  cbn [append startswith]. destruct s as [|a s]; [discriminate|].
  intros H. apply andb_true_iff in H as [-> H]. cbn [andb]. now apply IH.
Qed.

(** X18.  The names of the flattened fields of a value under a key: the
    key itself for a value that is no mapping, else names that continue the
    key with a dot; and no flattened field holds a mapping. *)
Theorem flattened_fields_are_leaves (key : string) (value : Value) :
  is_empty key = false ->
  Forall (fun kv : string * Value =>
            is_dict (snd kv) = false
            /\ (if is_dict value then startswith (fst kv) (key ++ ".") = true
                else fst kv = key))
         (iter_values key value).
Proof.
  revert key.
  induction value as [ | b | n | text | s | entries _ | items IH | isoformat ]
    using Value_ind_nested; intros key Hkey; cbn [iter_values is_dict];
    try (constructor; [split; reflexivity | constructor]).
  rewrite Hkey. apply Forall_flat_map.
  apply Forall_forall. intros [subkey subvalue] Hin.
  rewrite Forall_forall in IH. specialize (IH _ Hin (key ++ "." ++ subkey)).
  cbn [snd] in IH.
  assert (Hname : is_empty (key ++ "." ++ subkey) = false)
    by (destruct key; [discriminate Hkey | reflexivity]).
  specialize (IH Hname).
  replace ((key ++ ".") ++ subkey) with (key ++ "." ++ subkey)
    by (now rewrite app_assoc).
  eapply Forall_impl; [|exact IH].
  intros [name leaf] [Hleaf Hstart]. cbn [fst snd] in *.
  split; [exact Hleaf|].
  destruct (is_dict subvalue).
  - apply (startswith_prefix name (key ++ ".") (subkey ++ ".")).
    now rewrite !app_assoc in *.
  - subst name. rewrite <- app_assoc. apply startswith_app.
Qed.

Lemma flattened_fields_are_leaves_witness :
  Forall (fun kv : string * Value =>
            is_dict (snd kv) = false
            /\ startswith (fst kv) ("user" ++ ".") = true)
         (iter_values "user"
            (VDict [("name", VStr "avnadmin");
                    ("access", VDict [("ssl", VBool true)])])).
Proof.
  apply (flattened_fields_are_leaves
           "user" (VDict [("name", VStr "avnadmin");
                          ("access", VDict [("ssl", VBool true)])])).
  reflexivity.
Defined.

End RendererFacts.

(** ** What is printed is printable *)

Module PrintableFacts.
Import Py PyFacts Pretty PrettyFacts Reading.

Lemma json_escape_printable (c : ascii) :
  all_chars printable_ascii (json_escape_char c) = true.
Proof. ascii_cases c; vm_compute; reflexivity. Qed.

Lemma concat_map_printable (s : string) :
  all_chars printable_ascii (concat_map json_escape_char s) = true.
Proof.
  induction s as [|c s IH]; [reflexivity|]. cbn [concat_map].
  now rewrite all_chars_app, json_escape_printable, IH.
Qed.

Lemma json_dumps_str_printable (s : string) :
  all_chars printable_ascii (json_dumps_str s) = true.
Proof.
  unfold json_dumps_str, quoted. cbn [all_chars].
  rewrite all_chars_app, concat_map_printable. reflexivity.
Qed.

Lemma app_inv_tail (a b tail : string) : a ++ tail = b ++ tail -> a = b.
Proof.
  revert b. induction a as [|c a IH]; intros [|d b]; cbn [append]; intros H.
  - reflexivity.
  - apply (f_equal String.length) in H. cbn [String.length] in H.
    rewrite length_app in H. lia.
  - apply (f_equal String.length) in H. cbn [String.length] in H.
    rewrite length_app in H. lia.
  - injection H as -> H. f_equal. now apply IH.
Qed.

Lemma plain_or_json_printable (value : string) :
  all_chars printable_ascii (plain_or_json value) = true.
Proof.
  unfold plain_or_json.
  destruct (String.eqb (json_dumps_str value) (quoted value)) eqn:E;
    [|apply json_dumps_str_printable].
  apply String.eqb_eq in E. unfold json_dumps_str, quoted in E.
  injection E as E. apply app_inv_tail in E.
  rewrite <- E. apply concat_map_printable.
Qed.

Lemma string_of_uint_printable (d : Decimal.uint) :
  all_chars printable_ascii (NilEmpty.string_of_uint d) = true.
Proof. induction d; cbn [NilEmpty.string_of_uint all_chars]; auto. Qed.

Lemma str_of_int_printable (n : Z) :
  all_chars printable_ascii (str_of_int n) = true.
Proof.
  unfold str_of_int, NilZero.string_of_int, NilZero.string_of_uint.
  destruct (Z.to_int n) as [d|d]; destruct d; try reflexivity;
    cbn [all_chars]; try apply (string_of_uint_printable (Decimal.D0 d));
    try apply (string_of_uint_printable (Decimal.D1 d));
    try apply (string_of_uint_printable (Decimal.D2 d));
    try apply (string_of_uint_printable (Decimal.D3 d));
    try apply (string_of_uint_printable (Decimal.D4 d));
    try apply (string_of_uint_printable (Decimal.D5 d));
    try apply (string_of_uint_printable (Decimal.D6 d));
    try apply (string_of_uint_printable (Decimal.D7 d));
    try apply (string_of_uint_printable (Decimal.D8 d));
    try apply (string_of_uint_printable (Decimal.D9 d)).
Qed.

Lemma join_printable (sep : string) (parts : list string) :
  all_chars printable_ascii sep = true ->
  Forall (fun part => all_chars printable_ascii part = true) parts ->
  all_chars printable_ascii (join sep parts) = true.
Proof.
  intros Hsep. induction 1 as [|part parts Hpart Hparts IH]; [reflexivity|].
  destruct parts as [|next parts]; [exact Hpart|].
  rewrite CliFacts.join_cons by discriminate.
  now rewrite !all_chars_app, Hpart, Hsep, IH.
Qed.

Lemma mapM_Forall {A B : Type} (f : A -> res B) (P : A -> Prop)
      (Q : B -> Prop) (l : list A) :
  Forall P l ->
  (forall a b, In a l -> P a -> f a = Ok b -> Q b) ->
  forall bs, mapM f l = Ok bs -> Forall Q bs.
Proof.
  induction 1 as [|a l Ha _ IH]; intros Hf bs; cbn [mapM].
  - intros [= <-]. constructor.
  - destruct (f a) as [b|e] eqn:E; [|discriminate]. cbn [bind].
    destruct (mapM f l) as [bs'|e]; [|discriminate]. cbn [bind].
    intros [= <-]. constructor.
    + apply (Hf a b); [now left | exact Ha | exact E].
    + apply IH; [|reflexivity]. intros x y Hx. apply Hf. now right.
Qed.

Lemma json_dumps_printable (sort_keys : bool) (v : Value) :
  printable_texts v = true ->
  forall text, json_dumps sort_keys v = Ok text ->
               all_chars printable_ascii text = true.
Proof.
  induction v as [ | [] | n | number | s | entries IH | items IH | isoformat ]
    using Value_ind_nested; cbn [printable_texts json_dumps];
    intros Hok text; try (intros [= <-]; reflexivity); try discriminate.
  - intros [= <-]. apply str_of_int_printable.
  - intros [= <-]. exact Hok.
  - intros [= <-]. apply json_dumps_str_printable.
  - destruct (mapM (json_dumps sort_keys) entries) as [parts|e] eqn:E;
      [|discriminate].
    cbn [bind]. intros [= <-].
    assert (Hparts : Forall (fun part => all_chars printable_ascii part = true)
                            parts).
    { refine (mapM_Forall _ _ _ entries IH _ parts E).
      intros a b Ha Hrec Hrun. apply Hrec; [|exact Hrun].
      rewrite forallb_forall in Hok. auto. }
    cbn [append all_chars]. rewrite all_chars_app.
    rewrite (join_printable ", " parts eq_refl Hparts). reflexivity.
  - match goal with
    | |- context [mapM ?f items] =>
        destruct (mapM f items) as [parts|e] eqn:E; [|discriminate];
        assert (Hparts : Forall (fun kb : string * string =>
                                   all_chars printable_ascii (snd kb) = true)
                                parts);
        [ refine (mapM_Forall f _ _ items IH _ parts E) | ]
    end.
    { intros [k x] [k' body] Hin Hrec. cbn [snd] in *.
      destruct (json_dumps sort_keys x) as [body'|e] eqn:Ex; [|discriminate].
      cbn [bind]. intros [= <- <-]. apply Hrec; [|reflexivity].
      rewrite forallb_forall in Hok. exact (Hok _ Hin). }
    cbn [bind]. cbv zeta.
    match goal with
    | |- Ok ?shown = Ok _ -> _ =>
        assert (Hshown : all_chars printable_ascii shown = true);
        [|intros [= <-]; exact Hshown]
    end.
    rewrite !all_chars_app.
    rewrite join_printable; [reflexivity | reflexivity |].
    apply Forall_forall. intros line Hline.
    apply in_map_iff in Hline as ([k body] & <- & Hkb). cbn [fst snd].
    rewrite !all_chars_app, json_dumps_str_printable. cbn [andb all_chars].
    assert (Hin : In (k, body) parts).
    { destruct sort_keys; [|exact Hkb].
      now apply (proj1 (CliFacts.sorted_items_In _ _)) in Hkb. }
    rewrite Forall_forall in Hparts. pose proof (Hparts _ Hin) as Hbody.
    cbn [snd] in Hbody. rewrite Hbody. reflexivity.
Qed.

Lemma format_item_printable (key : option string) (v : Value)
      (text : string) :
  printable_texts v = true ->
  format_item key v = Ok text ->
  all_chars printable_ascii text = true.
Proof.
  revert key text.
  induction v as [ | b | n | number | s | entries IH | items _ | isoformat ]
    using Value_ind_nested; intros key text Hok;
    try (apply (json_dumps_printable false _ Hok)).
  - cbn [format_item].
    match goal with
    | |- (if String.eqb (json_dumps_str ?value) (quoted ?value)
          then _ else _) = _ -> _ =>
        pose proof (plain_or_json_printable value) as Hvalue;
        unfold plain_or_json in Hvalue;
        destruct (String.eqb (json_dumps_str value) (quoted value))
    end; intros [= <-]; exact Hvalue.
  - cbn [format_item].
    destruct (mapM (format_item None) entries) as [parts|e] eqn:E;
      [|discriminate].
    cbn [bind]. intros [= <-]. apply join_printable; [reflexivity|].
    refine (mapM_Forall _ _ _ entries IH _ parts E).
    intros a b Ha Hrec Hrun. apply (Hrec None b); [|exact Hrun].
    cbn [printable_texts] in Hok. rewrite forallb_forall in Hok. auto.
  - apply (json_dumps_printable true _ Hok).
  - cbn [format_item]. intros [= <-]. exact Hok.
Qed.

(** X19.  The text [format_item] returns is printable ASCII: a string is
    returned verbatim only when every character of it is printable, and
    JSON-escaped otherwise.  In list mode these texts are the lines, so every
    line [print_list] prints is printable ASCII.  (The texts of numbers and
    dates are taken to be printable, as Python makes them.  Nothing is said
    of a table: there the names of the fields are printed as they are, in
    the header and in the detail lines.) *)
Theorem formatted_text_is_printable :
  (forall (key : option string) (v : Value) (text : string),
      printable_texts v = true ->
      format_item key v = Ok text ->
      all_chars printable_ascii text = true)
  /\ (forall (result : list Value) (lines : list string),
         forallb printable_texts result = true ->
         print_list result = Ok lines ->
         Forall (fun line => all_chars printable_ascii line = true) lines).
Proof.
  split; [exact format_item_printable|].
  intros result lines Hok Hrun. unfold print_list in Hrun.
  refine (mapM_Forall (format_item None)
                      (fun v => printable_texts v = true) _ result _ _
                      lines Hrun).
  - apply Forall_forall. now apply forallb_forall.
  - intros v text _ Hv Htext. exact (format_item_printable None v text Hv Htext).
Qed.

Lemma formatted_text_is_printable_witness :
  all_chars printable_ascii
            (String dquote
               ("line" ++ String backslash ("nbreak" ++ str1 dquote)))
  = true
  /\ Forall (fun line => all_chars printable_ascii line = true)
            ["5"; String dquote
                    ("line" ++ String backslash ("nbreak" ++ str1 dquote))].
Proof.
  split.
  - apply (proj1 formatted_text_is_printable
                 (Some "note")
                 (VStr ("line" ++ String (ascii_of_nat 10) "break"))).
    + reflexivity.
    + reflexivity.
  - apply (proj2 formatted_text_is_printable
                 [VInt 5; VStr ("line" ++ String (ascii_of_nat 10) "break")]).
    + reflexivity.
    + reflexivity.
Defined.

End PrintableFacts.

(** ** The order of keys *)

Module OrderFacts.
Import Py PyFacts Pretty PrettyFacts Reading.

Lemma ascii_compare_refl (a : ascii) : Ascii.compare a a = Eq.
Proof. unfold Ascii.compare. apply N.compare_refl. Qed.

Lemma ascii_compare_lt_trans (a b c : ascii) :
  Ascii.compare a b = Lt -> Ascii.compare b c = Lt -> Ascii.compare a c = Lt.
Proof.
  unfold Ascii.compare. rewrite !N.compare_lt_iff. lia.
Qed.

Lemma compare_lt_trans (s1 : string) :
  forall s2 s3,
    String.compare s1 s2 = Lt -> String.compare s2 s3 = Lt ->
    String.compare s1 s3 = Lt.
Proof.
  induction s1 as [|a s1 IH]; intros [|b s2] [|c s3]; cbn [String.compare];
    try discriminate; try reflexivity.
  destruct (Ascii.compare a b) eqn:Eab; try discriminate;
    destruct (Ascii.compare b c) eqn:Ebc; try discriminate; intros H1 H2.
  - apply Ascii.compare_eq_iff in Eab, Ebc. subst.
    rewrite ascii_compare_refl. now apply (IH s2).
  - apply Ascii.compare_eq_iff in Eab. subst. now rewrite Ebc.
  - apply Ascii.compare_eq_iff in Ebc. subst. now rewrite Eab.
  - now rewrite (ascii_compare_lt_trans _ _ _ Eab Ebc).
Qed.

Lemma compare_refl (s : string) : String.compare s s = Eq.
Proof.
  induction s as [|a s IH]; cbn [String.compare]; [reflexivity|].
  now rewrite ascii_compare_refl.
Qed.

Lemma leb_trans (a b c : string) :
  String.leb a b = true -> String.leb b c = true -> String.leb a c = true.
Proof.
  unfold String.leb.
  destruct (String.compare a b) eqn:Eab; try discriminate;
    destruct (String.compare b c) eqn:Ebc; try discriminate; intros _ _.
  - apply String.compare_eq_iff in Eab, Ebc. subst. now rewrite compare_refl.
  - apply String.compare_eq_iff in Eab. subst. now rewrite Ebc.
  - apply String.compare_eq_iff in Ebc. subst. now rewrite Eab.
  - now rewrite (compare_lt_trans _ _ _ Eab Ebc).
Qed.

Lemma leb_other (a b : string) :
  a <> b -> String.leb a b = negb (String.leb b a).
Proof.
  intros Hne. destruct (String.leb a b) eqn:Eab, (String.leb b a) eqn:Eba;
    try reflexivity.
  - now destruct (Hne (String.leb_antisym _ _ Eab Eba)).
  - destruct (String.leb_total a b); congruence.
Qed.

(** Inserting two items with different keys gives the same list in either
    order. *)
Lemma insert_item_comm {V : Type} (a b : string * V) (l : list (string * V)) :
  fst a <> fst b ->
  insert_item a (insert_item b l) = insert_item b (insert_item a l).
Proof.
  intros Hne. pose proof (leb_other _ _ Hne) as Hab.
  induction l as [|x l IH]; cbn [insert_item].
  - rewrite Hab. destruct (String.leb (fst b) (fst a)); reflexivity.
  - destruct (String.leb (fst a) (fst x)) eqn:Eax,
             (String.leb (fst b) (fst x)) eqn:Ebx; cbn [insert_item].
    + rewrite Hab, Eax, Ebx.
      destruct (String.leb (fst b) (fst a)); reflexivity.
    + rewrite Eax, Ebx.
      destruct (String.leb (fst b) (fst a)) eqn:Eba; [|reflexivity].
      now rewrite (leb_trans _ _ _ Eba Eax) in Ebx.
    + rewrite Eax, Ebx.
      destruct (String.leb (fst a) (fst b)) eqn:E; [|reflexivity].
      now rewrite (leb_trans _ _ _ E Ebx) in Eax.
    + rewrite Eax, Ebx. now rewrite IH.
Qed.

Lemma sorted_items_perm {V : Type} (l l' : list (string * V)) :
  Permutation l l' -> NoDup (map fst l) ->
  sorted_items l = sorted_items l'.
Proof.
  induction 1 as [|x l l' Hperm IH|x y l|l l' l'' H1 IH1 H2 IH2];
    intros Hnd; cbn [sorted_items fold_right map] in *.
  - reflexivity.
  - inversion Hnd; subst. fold (sorted_items l). fold (sorted_items l').
    now rewrite IH.
  - apply insert_item_comm. inversion Hnd as [|? ? Hy _]; subst.
    intros E. apply Hy. left. now symmetry.
  - rewrite IH1 by exact Hnd. apply IH2.
    apply (Permutation_NoDup (Permutation_map fst H1) Hnd).
Qed.

Lemma json_dumps_raises (sort_keys : bool) (v : Value) (e : exn) :
  json_dumps sort_keys v = Raise e ->
  e = TypeError "Object of type datetime is not JSON serializable".
Proof.
  revert e.
  induction v as [ | [] | n | number | s | entries IH | items IH | isoformat ]
    using Value_ind_nested; intros e; cbn [json_dumps]; try discriminate.
  - destruct (mapM (json_dumps sort_keys) entries) as [parts|e'] eqn:E;
      [discriminate|].
    cbn [bind]. intros [= <-].
    destruct (CliFacts.mapM_raise _ _ _ E) as (a & Ha & Hrun).
    rewrite Forall_forall in IH. exact (IH a Ha _ Hrun).
  - match goal with
    | |- context [mapM ?f items] =>
        destruct (mapM f items) as [parts|e'] eqn:E; [discriminate|]
    end.
    cbn [bind]. intros [= <-].
    destruct (CliFacts.mapM_raise _ _ _ E) as ([k x] & Ha & Hrun).
    rewrite Forall_forall in IH. specialize (IH _ Ha). cbn [snd] in IH.
    destruct (json_dumps sort_keys x) as [body|e'']; [discriminate|].
    cbn [bind] in Hrun. injection Hrun as <-. now apply IH.
  - now intros [= <-].
Qed.

(** [mapM] over a permuted list: the results are permuted the same way;
    when every failure is the same exception, so is the failure. *)
Lemma mapM_perm {A B : Type} (f : A -> res B) (e0 : exn) (l l' : list A) :
  (forall a e, f a = Raise e -> e = e0) ->
  Permutation l l' ->
  match mapM f l, mapM f l' with
  | Ok bs, Ok bs' => Permutation bs bs'
  | Raise e, Raise e' => e = e'
  | _, _ => False
  end.
Proof.
  intros Hf.
  assert (Hraise : forall l e, mapM f l = Raise e -> e = e0).
  { intros l0 e H. destruct (CliFacts.mapM_raise _ _ _ H) as (a & _ & Ha).
    exact (Hf a e Ha). }
  induction 1 as [|x l l' Hperm IH|x y l|l l' l'' H1 IH1 H2 IH2].
  - cbn. constructor.
  - cbn [mapM]. destruct (f x) as [b|e] eqn:Ex; cbn [bind]; [|reflexivity].
    destruct (mapM f l) as [bs|e], (mapM f l') as [bs'|e']; cbn [bind];
      try contradiction; [now constructor | exact IH].
  - cbn [mapM].
    destruct (f x) as [b|e] eqn:Ex, (f y) as [c|e'] eqn:Ey; cbn [bind].
    + destruct (mapM f l) as [bs|e'']; cbn [bind];
        [apply perm_swap | reflexivity].
    + destruct (mapM f l); reflexivity.
    + destruct (mapM f l); reflexivity.
    + rewrite (Hf _ _ Ex), (Hf _ _ Ey). reflexivity.
  - destruct (mapM f l) as [bs|e] eqn:E, (mapM f l') as [bs'|e'] eqn:E',
             (mapM f l'') as [bs''|e''] eqn:E''; try contradiction.
    + exact (Permutation_trans IH1 IH2).
    + congruence.
Qed.

Lemma mapM_keys {V W : Type} (f : V -> res W) (items : list (string * V))
      (parts : list (string * W)) :
  mapM (fun kv : string * V =>
          let '(k, x) := kv in body <- f x ;; Ok (k, body)) items = Ok parts ->
  map fst parts = map fst items.
Proof.
  revert parts. induction items as [|[k x] items IH]; intros parts;
    cbn [mapM].
  - now intros [= <-].
  - destruct (f x) as [body|e]; cbn [bind]; [|discriminate].
    match goal with
    | |- context [mapM ?g items] => destruct (mapM g items) as [rest|e]
    end; cbn [bind]; [|discriminate].
    intros [= <-]. cbn [map fst]. now rewrite (IH rest).
Qed.

(** X20.  The text shown for a mapping does not depend on the order of its
    keys: [format_item] returns the same for two mappings with the same
    entries in another order, and raises the same when it raises. *)
Theorem mapping_text_ignores_key_order (key : option string)
        (items items' : dict Value) :
  Permutation items items' ->
  NoDup (dict_keys items) ->
  format_item key (VDict items) = format_item key (VDict items').
Proof.
  intros Hperm Hnd. cbn [format_item json_dumps].
  match goal with
  | |- context [mapM ?f items] =>
      pose proof (mapM_perm f
                    (TypeError
                       "Object of type datetime is not JSON serializable")
                    items items') as Hmap;
      pose proof (mapM_keys (json_dumps true) items) as Hkeys;
      destruct (mapM f items) as [parts|e];
      destruct (mapM f items') as [parts'|e']
  end.
  - cbn [bind]. rewrite (sorted_items_perm parts parts'); [reflexivity| |].
    + apply Hmap; [|exact Hperm]. intros [k x] e.
      destruct (json_dumps true x) as [body|e''] eqn:E; [discriminate|].
      cbn [bind]. intros [= <-]. exact (json_dumps_raises _ _ _ E).
    + rewrite (Hkeys parts eq_refl). exact Hnd.
  - exfalso. apply Hmap; [|exact Hperm]. intros [k x] e0.
    destruct (json_dumps true x) as [body|e''] eqn:E; [discriminate|].
    cbn [bind]. intros [= <-]. exact (json_dumps_raises _ _ _ E).
  - exfalso. apply Hmap; [|exact Hperm]. intros [k x] e0.
    destruct (json_dumps true x) as [body|e''] eqn:E; [discriminate|].
    cbn [bind]. intros [= <-]. exact (json_dumps_raises _ _ _ E).
  - cbn [bind]. f_equal. apply Hmap; [|exact Hperm]. intros [k x] e0.
    destruct (json_dumps true x) as [body|e''] eqn:E; [discriminate|].
    cbn [bind]. intros [= <-]. exact (json_dumps_raises _ _ _ E).
Qed.

Lemma mapping_text_ignores_key_order_witness :
  format_item (Some "user_config")
              (VDict [("ssl", VBool true); ("max_connections", VInt 5)])
  = format_item (Some "user_config")
                (VDict [("max_connections", VInt 5); ("ssl", VBool true)]).
Proof.
  apply (mapping_text_ignores_key_order
           (Some "user_config")
           [("ssl", VBool true); ("max_connections", VInt 5)]
           [("max_connections", VInt 5); ("ssl", VBool true)]).
  - apply perm_swap.
  - repeat constructor; simpl; intuition discriminate.
Defined.

(** *** Dictionaries up to the order of their entries *)

Lemma same_dict_refl {V : Type} (d : dict V) :
  NoDup (dict_keys d) -> same_dict d d.
Proof. intros H. split; [exact H | apply Permutation_refl]. Qed.

Lemma same_dict_keys {V : Type} (d d' : dict V) :
  same_dict d d' ->
  Permutation (dict_keys d) (dict_keys d') /\ NoDup (dict_keys d').
Proof.
  intros [Hnd Hperm].
  pose proof (Permutation_map fst Hperm) as Hkeys.
  split; [exact Hkeys | exact (Permutation_NoDup Hkeys Hnd)].
Qed.

Lemma same_dict_trans {V : Type} (a b c : dict V) :
  same_dict a b -> same_dict b c -> same_dict a c.
Proof.
  intros [Hnd Hab] [_ Hbc]. split; [exact Hnd|].
  exact (Permutation_trans Hab Hbc).
Qed.

Lemma same_dict_get {V : Type} (d d' : dict V) (k : string) :
  same_dict d d' -> dict_get d k = dict_get d' k.
Proof.
  intros [Hnd Hperm]. unfold dict_keys in Hnd.
  induction Hperm as [|[k0 v0] l l' Hperm IH|[k1 v1] [k2 v2] l
                      |l l' l'' H1 IH1 H2 IH2]; cbn [dict_get map fst] in *.
  - reflexivity.
  - inversion Hnd; subst. destruct (String.eqb k0 k); auto.
  - inversion Hnd as [|? ? Hk2 _]; subst.
    destruct (String.eqb k1 k) eqn:E1, (String.eqb k2 k) eqn:E2;
      try reflexivity.
    apply String.eqb_eq in E1, E2. subst. destruct Hk2. now left.
  - rewrite IH1 by exact Hnd. apply IH2.
    exact (Permutation_NoDup (Permutation_map fst H1) Hnd).
Qed.

Lemma dict_set_perm {V : Type} (d d' : dict V) (k : string) (v : V) :
  NoDup (dict_keys d) -> Permutation d d' ->
  Permutation (dict_set d k v) (dict_set d' k v).
Proof.
  intros Hnd Hperm. unfold dict_keys in Hnd.
  induction Hperm as [|[k0 v0] l l' Hperm IH|[k1 v1] [k2 v2] l
                      |l l' l'' H1 IH1 H2 IH2]; cbn [dict_set map fst] in *.
  - apply Permutation_refl.
  - inversion Hnd; subst.
    destruct (String.eqb k0 k); constructor; auto.
  - inversion Hnd as [|? ? Hk2 _]; subst.
    destruct (String.eqb k1 k) eqn:E1, (String.eqb k2 k) eqn:E2.
    + apply String.eqb_eq in E1, E2. subst. destruct Hk2. now left.
    + apply perm_swap.
    + apply perm_swap.
    + apply perm_swap.
  - apply (Permutation_trans (IH1 Hnd)). apply IH2.
    exact (Permutation_NoDup (Permutation_map fst H1) Hnd).
Qed.

Lemma same_dict_set {V : Type} (d d' : dict V) (k : string) (v : V) :
  same_dict d d' -> same_dict (dict_set d k v) (dict_set d' k v).
Proof.
  intros [Hnd Hperm]. split; [now apply dict_keys_set_NoDup|].
  now apply dict_set_perm.
Qed.

Lemma dict_set_comm {V : Type} (d : dict V) (k1 k2 : string) (v1 v2 : V) :
  k1 <> k2 ->
  Permutation (dict_set (dict_set d k1 v1) k2 v2)
              (dict_set (dict_set d k2 v2) k1 v1).
Proof.
  intros Hne.
  assert (E12 : String.eqb k1 k2 = false) by now apply String.eqb_neq.
  assert (E21 : String.eqb k2 k1 = false)
    by (apply String.eqb_neq; congruence).
  induction d as [|[k0 v0] d IH]; cbn [dict_set].
  - rewrite E12, E21. apply perm_swap.
  - destruct (String.eqb k0 k1) eqn:E1, (String.eqb k0 k2) eqn:E2;
      cbn [dict_set]; rewrite ?E1, ?E2.
    + apply String.eqb_eq in E1, E2. congruence.
    + apply Permutation_refl.
    + apply Permutation_refl.
    + now constructor.
Qed.

(** *** Formatting the fields of a record in another order *)

Lemma format_item_raises (key : option string) (v : Value) (e : exn) :
  format_item key v = Raise e ->
  e = TypeError "Object of type datetime is not JSON serializable".
Proof.
  revert key e.
  induction v as [ | b | n | number | s | entries IH | items _ | isoformat ]
    using Value_ind_nested; intros key e;
    try (apply (json_dumps_raises false)).
  - cbn [format_item]. destruct (String.eqb _ _); discriminate.
  - cbn [format_item].
    destruct (mapM (format_item None) entries) as [parts|e'] eqn:E;
      [discriminate|].
    cbn [bind]. intros [= <-].
    destruct (CliFacts.mapM_raise _ _ _ E) as (a & Ha & Hrun).
    rewrite Forall_forall in IH. exact (IH a Ha _ _ Hrun).
  - apply (json_dumps_raises true).
  - discriminate.
Qed.

Lemma same_state_trans (a b c : res (dict string * dict nat)) :
  same_state a b -> same_state b c -> same_state a c.
Proof.
  destruct a as [[r1 w1]|e1], b as [[r2 w2]|e2], c as [[r3 w3]|e3];
    cbn [same_state]; try contradiction; try congruence.
  intros [Hr Hw] [Hr' Hw'].
  split; eapply same_dict_trans; eassumption.
Qed.

Lemma format_field_same (formatted_row formatted_row' : dict string)
      (widths widths' : dict nat) (kv : string * Value) :
  same_dict formatted_row formatted_row' -> same_dict widths widths' ->
  same_state (format_field (formatted_row, widths) kv)
             (format_field (formatted_row', widths') kv).
Proof.
  intros Hrow Hw. destruct kv as [subkey subvalue]. cbn [format_field].
  destruct (format_item (Some subkey) subvalue) as [text|e]; cbn [bind];
    [|reflexivity].
  cbn [same_state]. rewrite <- (same_dict_get _ _ subkey Hw).
  split; now apply same_dict_set.
Qed.

Lemma format_fields_same (fields : list (string * Value)) :
  forall (formatted_row formatted_row' : dict string)
         (widths widths' : dict nat),
    same_dict formatted_row formatted_row' -> same_dict widths widths' ->
    same_state (foldM format_field fields (formatted_row, widths))
               (foldM format_field fields (formatted_row', widths')).
Proof.
  induction fields as [|kv fields IH]; intros row row' w w' Hrow Hw;
    cbn [foldM].
  - now split.
  - pose proof (format_field_same _ _ _ _ kv Hrow Hw) as Hstep.
    destruct (format_field (row, w) kv) as [[row1 w1]|e],
             (format_field (row', w') kv) as [[row1' w1']|e'];
      cbn [same_state bind] in *; try contradiction; [|exact Hstep].
    destruct Hstep. now apply IH.
Qed.

Lemma format_field_swap (formatted_row formatted_row' : dict string)
      (widths widths' : dict nat) (a b : string * Value) :
  fst a <> fst b ->
  same_dict formatted_row formatted_row' -> same_dict widths widths' ->
  same_state (foldM format_field [a; b] (formatted_row, widths))
             (foldM format_field [b; a] (formatted_row', widths')).
Proof.
  intros Hne Hrow Hw. destruct a as [k1 v1], b as [k2 v2].
  cbn [fst] in Hne. cbn [foldM format_field].
  rewrite <- (same_dict_get _ _ k2 Hw).
  destruct (format_item (Some k1) v1) as [t1|e1] eqn:E1,
           (format_item (Some k2) v2) as [t2|e2] eqn:E2; cbn [bind].
  - cbn [format_field]. rewrite E1, E2. cbn [bind same_state].
    rewrite (dict_get_set_other widths k1 k2) by exact Hne.
    rewrite (dict_get_set_other widths' k2 k1) by congruence.
    rewrite <- (same_dict_get _ _ k1 Hw).
    destruct Hrow as [Hnd Hrow], Hw as [Hndw Hw].
    split; (split; [now do 2 apply dict_keys_set_NoDup|]).
    + apply (Permutation_trans (dict_set_comm _ _ _ _ _ Hne)).
      apply dict_set_perm; [now apply dict_keys_set_NoDup|].
      now apply dict_set_perm.
    + apply (Permutation_trans (dict_set_comm _ _ _ _ _ Hne)).
      apply dict_set_perm; [now apply dict_keys_set_NoDup|].
      now apply dict_set_perm.
  - cbn [format_field]. rewrite E2. reflexivity.
  - cbn [format_field]. rewrite E1. reflexivity.
  - cbn [same_state].
    rewrite (format_item_raises _ _ _ E1), (format_item_raises _ _ _ E2).
    reflexivity.
Qed.

Lemma format_fields_perm (fields fields' : list (string * Value)) :
  Permutation fields fields' ->
  NoDup (map fst fields) ->
  forall (formatted_row formatted_row' : dict string)
         (widths widths' : dict nat),
    same_dict formatted_row formatted_row' -> same_dict widths widths' ->
    same_state (foldM format_field fields (formatted_row, widths))
               (foldM format_field fields' (formatted_row', widths')).
Proof.
  induction 1 as [|x l l' Hperm IH|x y l|l l' l'' H1 IH1 H2 IH2];
    intros Hnd row row' w w' Hrow Hw.
  - now split.
  - cbn [foldM]. cbn [map] in Hnd. inversion Hnd; subst.
    pose proof (format_field_same _ _ _ _ x Hrow Hw) as Hstep.
    destruct (format_field (row, w) x) as [[row1 w1]|e],
             (format_field (row', w') x) as [[row1' w1']|e'];
      cbn [same_state bind] in *; try contradiction; [|exact Hstep].
    destruct Hstep. now apply IH.
  - cbn [map] in Hnd. inversion Hnd as [|? ? Hy _]; subst.
    assert (Hne : fst y <> fst x) by (intros E; apply Hy; now left).
    change (y :: x :: l) with ([y; x] ++ l)%list.
    change (x :: y :: l) with ([x; y] ++ l)%list.
    rewrite !CliFacts.foldM_app.
    pose proof (format_field_swap _ _ _ _ y x Hne Hrow Hw) as Hstep.
    destruct (foldM format_field [y; x] (row, w)) as [[row1 w1]|e],
             (foldM format_field [x; y] (row', w')) as [[row1' w1']|e'];
      cbn [same_state bind] in *; try contradiction; [|exact Hstep].
    destruct Hstep. now apply format_fields_same.
  - apply (same_state_trans _ (foldM format_field l' (row', w'))).
    + now apply IH1.
    + apply IH2.
      * exact (Permutation_NoDup (Permutation_map fst H1) Hnd).
      * apply same_dict_refl. exact (proj2 (same_dict_keys _ _ Hrow)).
      * apply same_dict_refl. exact (proj2 (same_dict_keys _ _ Hw)).
Qed.

Lemma item_fields_perm (drop_fields : list string) (items items' : dict Value) :
  Permutation items items' ->
  Permutation (item_fields drop_fields items) (item_fields drop_fields items').
Proof. intros H. unfold item_fields. now apply Permutation_flat_map. Qed.

Lemma format_record_same (drop_fields : list string) (item item' : Value)
      (widths widths' : dict nat) :
  reordered item item' ->
  NoDup (map fst (record_fields drop_fields item)) ->
  same_dict widths widths' ->
  same_state (format_record drop_fields widths item)
             (format_record drop_fields widths' item').
Proof.
  intros Hitem Hnd Hw.
  destruct item; destruct item'; cbn [reordered] in Hitem;
    try discriminate Hitem; try (injection Hitem as <-);
    cbn [format_record same_state]; try reflexivity.
  cbn [record_fields] in Hnd.
  apply format_fields_perm; auto.
  - now apply item_fields_perm.
  - apply same_dict_refl. constructor.
Qed.

Lemma format_records_same (drop_fields : list string)
      (result result' : list Value) :
  Forall2 reordered result result' ->
  Forall (fun item => NoDup (map fst (record_fields drop_fields item)))
         result ->
  forall widths widths',
    same_dict widths widths' ->
    same_table (format_records drop_fields result widths)
               (format_records drop_fields result' widths').
Proof.
  induction 1 as [|item item' result result' Hitem Hrest IH];
    intros Hnd w w' Hw; cbn [format_records].
  - split; [constructor | exact Hw].
  - inversion Hnd as [|? ? Hfirst Hothers]; subst.
    pose proof (format_record_same drop_fields _ _ _ _ Hitem Hfirst Hw)
      as Hstep.
    destruct (format_record drop_fields w item) as [[row w1]|e],
             (format_record drop_fields w' item') as [[row' w1']|e'];
      cbn [same_state bind] in *; try contradiction; [|exact Hstep].
    destruct Hstep as [Hrow Hw1].
    specialize (IH Hothers _ _ Hw1).
    destruct (format_records drop_fields result w1) as [[rows w2]|e],
             (format_records drop_fields result' w1') as [[rows' w2']|e'];
      cbn [same_table bind] in *; try contradiction; [|exact IH].
    destruct IH. split; [now constructor | assumption].
Qed.

(** *** Printing from dictionaries in another order *)

Lemma insert_sorted_comm (a b : string) (l : list string) :
  a <> b -> insert_sorted a (insert_sorted b l)
            = insert_sorted b (insert_sorted a l).
Proof.
  intros Hne. pose proof (leb_other _ _ Hne) as Hab.
  induction l as [|x l IH]; cbn [insert_sorted].
  - rewrite Hab. destruct (String.leb b a); reflexivity.
  - destruct (String.leb a x) eqn:Eax, (String.leb b x) eqn:Ebx;
      cbn [insert_sorted].
    + rewrite Hab, Eax, Ebx. destruct (String.leb b a); reflexivity.
    + rewrite Eax, Ebx.
      destruct (String.leb b a) eqn:Eba; [|reflexivity].
      now rewrite (leb_trans _ _ _ Eba Eax) in Ebx.
    + rewrite Eax, Ebx.
      destruct (String.leb a b) eqn:E; [|reflexivity].
      now rewrite (leb_trans _ _ _ E Ebx) in Eax.
    + rewrite Eax, Ebx. now rewrite IH.
Qed.

Lemma sorted_perm (l l' : list string) :
  Permutation l l' -> NoDup l -> sorted l = sorted l'.
Proof.
  induction 1 as [|x l l' Hperm IH|x y l|l l' l'' H1 IH1 H2 IH2];
    intros Hnd; cbn [sorted fold_right] in *.
  - reflexivity.
  - inversion Hnd; subst. fold (sorted l). fold (sorted l').
    now rewrite IH.
  - apply insert_sorted_comm. inversion Hnd as [|? ? Hy _]; subst.
    intros E. apply Hy. left. now symmetry.
  - rewrite IH1 by exact Hnd. apply IH2.
    exact (Permutation_NoDup H1 Hnd).
Qed.

Lemma filter_perm {A : Type} (p : A -> bool) (l l' : list A) :
  Permutation l l' -> Permutation (filter p l) (filter p l').
Proof.
  induction 1 as [|x l l' Hperm IH|x y l|l l' l'' H1 IH1 H2 IH2];
    cbn [filter].
  - constructor.
  - destruct (p x); [now constructor | exact IH].
  - destruct (p x), (p y); try apply Permutation_refl. apply perm_swap.
  - exact (Permutation_trans IH1 IH2).
Qed.

Lemma max_perm (l l' : list nat) :
  Permutation l l' -> fold_right Nat.max 0 l = fold_right Nat.max 0 l'.
Proof.
  induction 1 as [|x l l' Hperm IH|x y l|l l' l'' H1 IH1 H2 IH2];
    cbn [fold_right]; lia.
Qed.

Lemma mapM_ext {A B : Type} (f g : A -> res B) (l : list A) :
  (forall a, f a = g a) -> mapM f l = mapM g l.
Proof.
  intros H. induction l as [|a l IH]; cbn [mapM]; [reflexivity|].
  now rewrite H, IH.
Qed.

Section PrintingFacts.

Variable fnmatch : string -> string -> bool.

Lemma cells_same (widths widths' : dict nat) (cell : string -> nat -> string)
      (fields : list string) :
  same_dict widths widths' ->
  cells widths cell fields = cells widths' cell fields.
Proof.
  intros Hw. unfold cells. f_equal. apply mapM_ext. intros f.
  unfold dict_item. now rewrite (same_dict_get _ _ f Hw).
Qed.

Lemma vertical_block_same (width : nat) (vertical : list string)
      (formatted_row formatted_row' : dict string) :
  same_dict formatted_row formatted_row' ->
  vertical_block fnmatch width vertical formatted_row
  = vertical_block fnmatch width vertical formatted_row'.
Proof.
  intros [Hnd Hperm]. unfold vertical_block.
  now rewrite (sorted_items_perm _ _ Hperm Hnd).
Qed.

Lemma vertical_width_same (formatted_row formatted_row' : dict string)
      (vertical : list string) :
  same_dict formatted_row formatted_row' ->
  vertical_width fnmatch formatted_row vertical
  = vertical_width fnmatch formatted_row' vertical.
Proof.
  intros Hrow. unfold vertical_width. f_equal. apply map_ext. intros vf.
  unfold longest. apply max_perm. apply Permutation_map. apply filter_perm.
  exact (proj1 (same_dict_keys _ _ Hrow)).
Qed.

Lemma print_rows_same (widths widths' : dict nat)
      (horizontal vertical : list string) (width : nat)
      (formatted_values formatted_values' : list (dict string)) :
  same_dict widths widths' ->
  Forall2 same_dict formatted_values formatted_values' ->
  forall row_num,
    print_rows fnmatch widths horizontal vertical width row_num
               formatted_values
    = print_rows fnmatch widths' horizontal vertical width row_num
                 formatted_values'.
Proof.
  intros Hw. induction 1 as [|row row' rows rows' Hrow Hrows IH];
    intros row_num; cbn [print_rows]; [reflexivity|].
  rewrite (cells_same _ _ (row_cell row) horizontal Hw).
  assert (Hcell : cells widths' (row_cell row) horizontal
                  = cells widths' (row_cell row') horizontal).
  { unfold cells. f_equal. apply mapM_ext. intros f.
    unfold row_cell. now rewrite (same_dict_get _ _ f Hrow). }
  rewrite Hcell, (IH (S row_num)).
  now rewrite (vertical_block_same _ _ _ _ Hrow).
Qed.

Lemma last_same (formatted_values formatted_values' : list (dict string)) :
  Forall2 same_dict formatted_values formatted_values' ->
  same_dict (last formatted_values []) (last formatted_values' []).
Proof.
  induction 1 as [|row row' rows rows' Hrow Hrows IH].
  - apply same_dict_refl. constructor.
  - destruct Hrows; [exact Hrow | exact IH].
Qed.

(** X21.  A table does not depend on the order of the keys of its records:
    for every layout and every set of dropped fields, [print_table] prints
    the same lines (or raises the same) for records whose entries come in
    another order, as long as no record has two flattened fields of one
    name. *)
Theorem table_ignores_key_order (first first' : Value)
        (rest rest' : list Value) (drop_fields : list string)
        (table_layout : option LayoutSpec) :
  is_dict first = true ->
  Forall2 reordered (first :: rest) (first' :: rest') ->
  Forall (fun item => NoDup (map fst (record_fields drop_fields item)))
         (first :: rest) ->
  print_table fnmatch (first :: rest) drop_fields table_layout
  = print_table fnmatch (first' :: rest') drop_fields table_layout.
Proof.
  intros Hdict Hitems Hnd. unfold print_table.
  assert (Hdict' : is_dict first' = true).
  { inversion Hitems as [|? ? ? ? Hfirst _]; subst.
    destruct first; try discriminate Hdict.
    destruct first'; cbn [reordered] in Hfirst; try discriminate Hfirst.
    reflexivity. }
  rewrite Hdict, Hdict'. cbn [negb].
  pose proof (format_records_same drop_fields _ _ Hitems Hnd [] []
                (same_dict_refl [] (NoDup_nil _))) as Hrun.
  destruct (format_records drop_fields (first :: rest) [])
    as [[rows widths]|e],
    (format_records drop_fields (first' :: rest') [])
    as [[rows' widths']|e'];
    cbn [same_table bind] in *; try contradiction; [|now rewrite Hrun].
  destruct Hrun as [Hrows Hw].
  assert (Hlayout : match table_layout with
                    | None => Fields (sorted (dict_keys widths))
                    | Some layout => layout
                    end
                    = match table_layout with
                      | None => Fields (sorted (dict_keys widths'))
                      | Some layout => layout
                      end).
  { destruct table_layout; [reflexivity|]. f_equal.
    apply sorted_perm; [exact (proj1 (same_dict_keys _ _ Hw))|].
    exact (proj1 Hw). }
  rewrite Hlayout.
  destruct (split_layout _) as [[horizontal vertical]|e]; cbn [bind];
    [|reflexivity].
  rewrite (vertical_width_same _ _ vertical (last_same _ _ Hrows)).
  rewrite !(cells_same _ _ _ horizontal Hw).
  now rewrite (print_rows_same _ _ horizontal vertical _ _ _ Hw Hrows 0).
Qed.

End PrintingFacts.

Lemma table_ignores_key_order_witness :
  print_table fnmatch_glob
              [VDict [("name", VStr "db1"); ("plan", VStr "hobbyist")];
               VDict [("plan", VStr "startup"); ("name", VStr "db2")]]
              [] None
  = print_table fnmatch_glob
                [VDict [("plan", VStr "hobbyist"); ("name", VStr "db1")];
                 VDict [("plan", VStr "startup"); ("name", VStr "db2")]]
                [] None.
Proof.
  apply (table_ignores_key_order
           fnmatch_glob
           (VDict [("name", VStr "db1"); ("plan", VStr "hobbyist")])
           (VDict [("plan", VStr "hobbyist"); ("name", VStr "db1")])
           [VDict [("plan", VStr "startup"); ("name", VStr "db2")]]
           [VDict [("plan", VStr "startup"); ("name", VStr "db2")]]
           [] None).
  - reflexivity.
  - constructor; [apply perm_swap|].
    constructor; [apply Permutation_refl | constructor].
  - repeat constructor; simpl; intuition discriminate.
Defined.

(** *** The order of the properties of a schema *)

(** X22.  Flattening does not depend on the order in which a schema lists
    its properties: the option table, and with it the list of available
    options in error messages, is the same, entry for entry, when the
    properties of the node come in another order. *)
Theorem flattening_ignores_property_order (type : Cli.TypeSpec)
        (properties properties' patternProperties : dict Cli.Schema)
        (items : option Cli.Schema) (prefix : string) :
  Permutation properties properties' ->
  NoDup (dict_keys properties) ->
  Cli.collect_user_config_options
    (Cli.Node type properties patternProperties items) prefix
  = Cli.collect_user_config_options
      (Cli.Node type properties' patternProperties items) prefix.
Proof.
  intros Hperm Hnd. cbn [Cli.collect_user_config_options].
  match goal with
  | |- context [sorted_items (map ?f properties)] =>
      rewrite (sorted_items_perm (map f properties) (map f properties'))
  end.
  - reflexivity.
  - now apply Permutation_map.
  - rewrite map_map.
    erewrite map_ext; [exact Hnd|]. now intros [prop spec].
Qed.

Lemma flattening_ignores_property_order_witness :
  Cli.collect_user_config_options
    (Cli.Node (Cli.TypeName "object")
              [("timeout", Cli.Node (Cli.TypeName "integer") [] [] None);
               ("ssl", Cli.Node (Cli.TypeName "boolean") [] [] None)]
              [] None) "pg"
  = Cli.collect_user_config_options
      (Cli.Node (Cli.TypeName "object")
                [("ssl", Cli.Node (Cli.TypeName "boolean") [] [] None);
                 ("timeout", Cli.Node (Cli.TypeName "integer") [] [] None)]
                [] None) "pg".
Proof.
  apply (flattening_ignores_property_order
           (Cli.TypeName "object")
           [("timeout", Cli.Node (Cli.TypeName "integer") [] [] None);
            ("ssl", Cli.Node (Cli.TypeName "boolean") [] [] None)]
           [("ssl", Cli.Node (Cli.TypeName "boolean") [] [] None);
            ("timeout", Cli.Node (Cli.TypeName "integer") [] [] None)]
           [] None "pg").
  - apply perm_swap.
  - repeat constructor; simpl; intuition discriminate.
Defined.

End OrderFacts.

(** ** What the option table holds *)

Module FlatteningFacts.
Import Py PyFacts Cli CliFacts Reading CompilerFacts RendererFacts OrderFacts.

(** *** Names *)

Lemma app_inv_head (a b c : string) : a ++ b = a ++ c -> b = c.
Proof.
  induction a as [|x a IH]; cbn [append]; [auto|].
  intros [= H]. auto.
Qed.

Lemma full_name_inj (prefix a b : string) :
  full_name prefix a = full_name prefix b -> a = b.
Proof.
  unfold full_name. destruct (is_empty prefix); [auto|].
  intros H. apply app_inv_head in H. now apply (app_inv_head ".") in H.
Qed.

Lemma full_name_empty (prefix name : string) :
  is_empty (full_name prefix name) = true ->
  is_empty prefix = true /\ name = EmptyString.
Proof.
  unfold full_name. destruct prefix as [|c prefix]; cbn [is_empty append].
  - intros H. split; [reflexivity | now apply is_empty_true].
  - discriminate.
Qed.

Lemma startswith_cancel (a s t : string) :
  startswith (a ++ s) (a ++ t) = startswith s t.
Proof.
  induction a as [|c a IH]; [reflexivity|]. cbn [append startswith].
  now rewrite Ascii.eqb_refl, IH.
Qed.

(** A name that continues another under one prefix continues it without
    the prefix. *)
Lemma full_name_continues (prefix name other : string) :
  startswith (full_name prefix name) (full_name prefix other ++ ".") = true ->
  startswith name (other ++ ".") = true.
Proof.
  unfold full_name. destruct (is_empty prefix); [auto|].
  rewrite !app_assoc, startswith_cancel.
  change ("." ++ name) with (String "." name).
  change ("." ++ other ++ ".") with (String "." (other ++ ".")).
  cbn [startswith]. now rewrite Ascii.eqb_refl.
Qed.

Lemma empty_least (s : string) : String.leb EmptyString s = true.
Proof. destruct s; reflexivity. Qed.

(** A text is not before its own beginning. *)
Lemma startswith_leb (s p : string) :
  startswith s p = true -> String.leb p s = true.
Proof.
  revert s. induction p as [|a p IH]; intros s; [intros _; apply empty_least|].
  destruct s as [|c s]; cbn [startswith]; [discriminate|].
  intros H. apply andb_true_iff in H as [Hc Hs].
  apply Ascii.eqb_eq in Hc. subst c. specialize (IH s Hs).
  unfold String.leb in *. cbn [String.compare].
  now rewrite ascii_compare_refl.
Qed.

(** *** What the two loops write *)

Lemma dict_update_keys_inv {V : Type} (collected opts : dict V) (k : string) :
  In k (dict_keys (dict_update opts collected)) ->
  In k (dict_keys opts) \/ In k (dict_keys collected).
Proof.
  unfold dict_update. revert opts.
  induction collected as [|[k' v] collected IH]; intros opts;
    cbn [fold_left fst snd]; [auto|].
  intros H. apply IH in H as [H|H].
  - apply dict_keys_set in H as [->|H]; [right; now left | now left].
  - right. now right.
Qed.

Lemma dict_update_get {V : Type} (collected opts : dict V) (k : string) :
  ~ In k (dict_keys collected) ->
  dict_get (dict_update opts collected) k = dict_get opts k.
Proof.
  unfold dict_update. revert opts.
  induction collected as [|[k' v] collected IH]; intros opts Hk;
    cbn [fold_left fst snd]; [reflexivity|].
  rewrite IH by (intros H; apply Hk; now right).
  apply dict_get_set_other. intros ->. apply Hk. now left.
Qed.

(** The names an entry of a loop writes. *)
Lemma collect_entries_written
      (entries : list (string * Schema * res (dict Schema))) :
  forall opts opts',
    foldM collect_entry entries opts = Ok opts' ->
    forall k,
      In k (dict_keys opts') ->
      In k (dict_keys opts)
      \/ exists name spec nested,
          In (name, spec, nested) entries
          /\ ((is_object spec = false /\ k = name)
              \/ (is_object spec = true
                  /\ exists collected,
                      nested = Ok collected /\ In k (dict_keys collected))).
Proof.
  induction entries as [|[[name spec] nested] entries IH]; intros opts opts';
    cbn [foldM].
  - intros [= <-]. auto.
  - cbn [collect_entry]. destruct (is_object spec) eqn:Hobj.
    + destruct nested as [collected|e]; [|discriminate]. cbn [bind].
      intros Hrun k Hk.
      destruct (IH _ _ Hrun k Hk) as [H|(n & s & r & Hin & H)].
      * apply dict_update_keys_inv in H as [H|H]; [now left|].
        right. exists name, spec, (Ok collected).
        split; [now left|]. right. eauto.
      * right. exists n, s, r. split; [now right | exact H].
    + cbn [bind]. intros Hrun k Hk.
      destruct (IH _ _ Hrun k Hk) as [H|(n & s & r & Hin & H)].
      * apply dict_keys_set in H as [->|H]; [|now left].
        right. exists name, spec, nested. split; [now left|]. now left.
      * right. exists n, s, r. split; [now right | exact H].
Qed.

(** A name no entry writes keeps what it holds. *)
Lemma collect_entries_get
      (entries : list (string * Schema * res (dict Schema))) (k : string) :
  (forall name spec nested,
      In (name, spec, nested) entries ->
      (is_object spec = false -> name <> k)
      /\ (is_object spec = true ->
          forall collected, nested = Ok collected ->
                            ~ In k (dict_keys collected))) ->
  forall opts opts',
    foldM collect_entry entries opts = Ok opts' ->
    dict_get opts' k = dict_get opts k.
Proof.
  induction entries as [|[[name spec] nested] entries IH];
    intros Hfree opts opts'; cbn [foldM].
  - now intros [= <-].
  - assert (Hrest : forall n s r, In (n, s, r) entries ->
                      (is_object s = false -> n <> k)
                      /\ (is_object s = true ->
                          forall collected, r = Ok collected ->
                                            ~ In k (dict_keys collected))).
    { intros n s r Hin. apply Hfree. now right. }
    destruct (Hfree name spec nested (or_introl eq_refl)) as [Hleaf Hobject].
    cbn [collect_entry]. destruct (is_object spec) eqn:Hobj.
    + destruct nested as [collected|e]; [|discriminate]. cbn [bind].
      intros Hrun. rewrite (IH Hrest _ _ Hrun).
      apply dict_update_get. now apply Hobject.
    + cbn [bind]. intros Hrun. rewrite (IH Hrest _ _ Hrun).
      apply dict_get_set_other. now apply Hleaf.
Qed.

(** Every name of a flattened schema lies behind the prefix. *)
Lemma collect_names (schema : Schema) :
  forall prefix opts,
    collect_user_config_options schema prefix = Ok opts ->
    forall k, In k (dict_keys opts) ->
              is_empty prefix = true
              \/ startswith k (prefix ++ ".") = true.
Proof.
  induction schema as [type properties patternProperties items IHp IHq _]
    using Schema_ind_nested.
  intros prefix opts. cbn [collect_user_config_options].
  match goal with
  | |- context [foldM collect_entry (map snd (sorted_items ?l)) []] =>
      set (named := l)
  end.
  match goal with
  | |- context [sorted_specs ?l] => set (patterned := l)
  end.
  destruct (foldM collect_entry (map snd (sorted_items named)) [])
    as [opts1|e] eqn:E1; [|discriminate].
  cbn [bind].
  destruct (sorted_specs patterned) as [specs|e] eqn:E2; [|discriminate].
  cbn [bind]. intros E3 k Hk.
  destruct (is_empty prefix) eqn:Hprefix; [now left | right].
  assert (Hname : forall p, full_name prefix p = prefix ++ "." ++ p)
    by (intros p; unfold full_name; now rewrite Hprefix).
  assert (Hentry : forall (l : dict Schema) p spec nested,
             Forall (fun kv => forall prefix opts,
                         collect_user_config_options (snd kv) prefix = Ok opts ->
                         forall k, In k (dict_keys opts) ->
                                   is_empty prefix = true
                                   \/ startswith k (prefix ++ ".") = true) l ->
             In spec (map snd l) ->
             nested = collect_user_config_options spec (full_name prefix p) ->
             (is_object spec = false /\ k = full_name prefix p)
             \/ (is_object spec = true
                 /\ exists collected,
                     nested = Ok collected /\ In k (dict_keys collected)) ->
             startswith k (prefix ++ ".") = true).
  { intros l p spec nested Hl Hin -> [[_ ->]|(_ & collected & Hrun & Hkc)].
    - rewrite Hname, <- app_assoc. apply startswith_app.
    - apply in_map_iff in Hin as (kv & <- & Hin).
      rewrite Forall_forall in Hl.
      destruct (Hl kv Hin _ _ Hrun k Hkc) as [Hempty|Hstart].
      + rewrite Hname in Hempty. destruct prefix; discriminate.
      + rewrite Hname in Hstart.
        apply (startswith_prefix k (prefix ++ ".") (p ++ ".")).
        now rewrite !app_assoc in *. }
  destruct (collect_entries_written _ _ _ E3 k Hk)
    as [Hk1|(name & spec & nested & Hin & Hcase)].
  - destruct (collect_entries_written _ _ _ E1 k Hk1)
      as [[]|(name & spec & nested & Hin & Hcase)].
    apply in_map_iff in Hin as ([p x] & Hx & Hin). cbn [snd] in Hx. subst x.
    apply (proj1 (sorted_items_In _ _)) in Hin. unfold named in Hin.
    apply in_map_iff in Hin as ([prop s] & [= _ <- <- <-] & Hin).
    apply (Hentry properties prop s
                  (collect_user_config_options s (full_name prefix prop))
                  IHp); auto.
    apply in_map_iff. now exists (prop, s).
  - assert (Hin' : In (name, spec, nested) patterned).
    { unfold sorted_specs in E2.
      destruct patterned as [|p1 [|p2 ps]]; try discriminate E2;
        injection E2 as <-; exact Hin. }
    unfold patterned in Hin'.
    apply in_map_iff in Hin' as ([pattern s] & [= <- <- <-] & Hin').
    apply (Hentry patternProperties "KEY" s
                  (collect_user_config_options s (full_name prefix "KEY"))
                  IHq); auto.
    apply in_map_iff. now exists (pattern, s).
Qed.

(** *** Sorted entries *)

Lemma insert_item_sorted {V : Type} (kv : string * V)
      (l : list (string * V)) :
  StronglySorted key_le l -> StronglySorted key_le (insert_item kv l).
Proof.
  induction 1 as [|x l Hs IH Hall]; cbn [insert_item].
  - repeat constructor.
  - destruct (String.leb (fst kv) (fst x)) eqn:E.
    + constructor; [now constructor|]. constructor; [exact E|].
      eapply Forall_impl; [|exact Hall]. intros y Hy.
      exact (leb_trans _ _ _ E Hy).
    + constructor; [exact IH|]. apply Forall_forall. intros y Hy.
      apply insert_item_In in Hy as [->|Hy].
      * destruct (String.leb_total (fst kv) (fst x)); [congruence | assumption].
      * rewrite Forall_forall in Hall. now apply Hall.
Qed.

Lemma sorted_items_sorted {V : Type} (l : list (string * V)) :
  StronglySorted key_le (sorted_items l).
Proof.
  induction l as [|x l IH]; cbn [sorted_items fold_right]; [constructor|].
  now apply insert_item_sorted.
Qed.

Lemma insert_item_Permutation {V : Type} (kv : string * V)
      (l : list (string * V)) :
  Permutation (insert_item kv l) (kv :: l).
Proof.
  induction l as [|x l IH]; cbn [insert_item]; [apply Permutation_refl|].
  destruct (String.leb (fst kv) (fst x)); [apply Permutation_refl|].
  apply (Permutation_trans (perm_skip x IH)). apply perm_swap.
Qed.

Lemma sorted_items_Permutation {V : Type} (l : list (string * V)) :
  Permutation (sorted_items l) l.
Proof.
  induction l as [|x l IH]; cbn [sorted_items fold_right]; [constructor|].
  apply (Permutation_trans (insert_item_Permutation _ _)). now constructor.
Qed.

Lemma sorted_after {V : Type} (b a : list (string * V)) (x : string * V) :
  StronglySorted key_le (b ++ x :: a)%list -> Forall (key_le x) a.
Proof.
  induction b as [|y b IH]; cbn [app]; intros H;
    apply StronglySorted_inv in H as [Hs Hall]; [exact Hall | auto].
Qed.

(** *** Which options the table holds *)

(** The option of a property that is no object survives the first loop:
    what is written after it has another name. *)
Lemma property_survives (prefix : string) (properties : dict Schema)
      (prop : string) (spec : Schema) (opts : dict Schema) :
  NoDup (dict_keys properties) ->
  In (prop, spec) properties ->
  is_object spec = false ->
  foldM collect_entry
        (map snd
             (sorted_items
                (map (fun kv : string * Schema =>
                        let '(prop, spec) := kv in
                        (prop, (full_name prefix prop, spec,
                                collect_user_config_options
                                  spec (full_name prefix prop))))
                     properties)))
        [] = Ok opts ->
  dict_get opts (full_name prefix prop) = Some spec.
Proof.
  intros Hnd Hin Hleaf.
  set (entry := fun kv : string * Schema =>
                  let '(prop, spec) := kv in
                  (prop, (full_name prefix prop, spec,
                          collect_user_config_options
                            spec (full_name prefix prop)))).
  set (named := map entry properties).
  assert (Hkeys : map fst named = dict_keys properties).
  { unfold named, dict_keys. rewrite map_map. apply map_ext.
    now intros [p s]. }
  assert (Hx : In (entry (prop, spec)) (sorted_items named)).
  { apply sorted_items_In. unfold named. now apply in_map. }
  apply in_split in Hx as (before & after & Hsplit).
  pose proof (sorted_items_sorted named) as Hsorted.
  pose proof (Permutation_NoDup
                (Permutation_map fst
                   (Permutation_sym (sorted_items_Permutation named)))
                ltac:(rewrite Hkeys; exact Hnd)) as Hdistinct.
  rewrite Hsplit in Hsorted, Hdistinct |- *.
  apply sorted_after in Hsorted.
  rewrite map_app in Hdistinct. cbn [map] in Hdistinct.
  apply NoDup_remove_2 in Hdistinct.
  rewrite map_app. cbn [map]. rewrite foldM_app.
  destruct (foldM collect_entry (map snd before) []) as [opts0|e];
    [|discriminate].
  cbn [bind foldM entry snd collect_entry]. rewrite Hleaf. cbn [bind].
  intros Hrun.
  enough (Hfree : forall name other nested,
             In (name, other, nested) (map snd after) ->
             (is_object other = false -> name <> full_name prefix prop)
             /\ (is_object other = true ->
                 forall collected,
                   nested = Ok collected ->
                   ~ In (full_name prefix prop) (dict_keys collected))).
  { rewrite (collect_entries_get _ _ Hfree _ _ Hrun).
    apply dict_get_set_same. }
  intros name other nested Hentry.
  apply in_map_iff in Hentry as ([q x] & Hx & Hafter). cbn [snd] in Hx.
  subst x.
  assert (Hnamed : In (q, (name, other, nested)) named).
  { apply (sorted_items_In _ named). rewrite Hsplit.
    apply in_or_app. right. now right. }
  unfold named in Hnamed.
  apply in_map_iff in Hnamed as ([q' s] & [= -> <- <- <-] & _).
  rewrite Forall_forall in Hsorted. specialize (Hsorted _ Hafter).
  unfold key_le in Hsorted. cbn [entry fst] in Hsorted.
  assert (Hne : q <> prop).
  { intros ->. apply Hdistinct. apply in_or_app. right.
    apply (in_map fst) in Hafter. exact Hafter. }
  split.
  - intros _ E. apply Hne. symmetry. exact (full_name_inj _ _ _ (eq_sym E)).
  - intros _ collected Hrun' Hk. apply Hne.
    apply String.leb_antisym; [|exact Hsorted].
    destruct (collect_names _ _ _ Hrun' _ Hk) as [Hempty|Hstart].
    + apply full_name_empty in Hempty as [_ ->]. apply empty_least.
    + apply full_name_continues in Hstart.
      apply startswith_leb. exact (startswith_prefix _ _ _ Hstart).
Qed.

(** X8.  What flattening keeps of the node it is given.  Every property
    that is not of type ["object"] has its name behind the prefix among the
    keys of the table, and the table holds the schema of that property under
    the name when the names of the properties differ and the name does not
    begin with [KEY] (or the node has no pattern properties).  A pattern
    property that is not of type ["object"] is what the table holds under
    [KEY] behind the prefix: a property named [KEY] is overwritten by it
    and lost. *)
Theorem flattening_keeps_the_leaves (schema : Schema) (prefix : string)
        (opts : dict Schema) :
  collect_user_config_options schema prefix = Ok opts ->
  (forall prop spec,
      In (prop, spec) (schema_properties schema) ->
      is_object spec = false ->
      In (full_name prefix prop) (dict_keys opts)
      /\ (NoDup (dict_keys (schema_properties schema)) ->
          schema_patternProperties schema = []
          \/ startswith prop "KEY" = false ->
          dict_get opts (full_name prefix prop) = Some spec))
  /\ (forall pattern spec,
         In (pattern, spec) (schema_patternProperties schema) ->
         is_object spec = false ->
         dict_get opts (full_name prefix "KEY") = Some spec).
Proof.
  destruct schema as [type properties patternProperties items].
  cbn [collect_user_config_options schema_properties schema_patternProperties].
  match goal with
  | |- context [foldM collect_entry (map snd (sorted_items ?l)) []] =>
      set (named := l)
  end.
  match goal with
  | |- context [sorted_specs ?l] => set (patterned := l)
  end.
  destruct (foldM collect_entry (map snd (sorted_items named)) [])
    as [opts1|e] eqn:E1; [|discriminate].
  cbn [bind].
  destruct (sorted_specs patterned) as [specs|e] eqn:E2; [|discriminate].
  cbn [bind]. intros E3.
  assert (Hspecs : specs = patterned).
  { unfold sorted_specs in E2.
    destruct patterned as [|p1 [|p2 ps]]; try discriminate E2;
      now injection E2 as <-. }
  subst specs.
  destruct (collect_entries_keys _ _ _ E1) as [_ Hleaves1].
  destruct (collect_entries_keys _ _ _ E3) as [Hgrow _].
  split.
  - intros prop spec Hin Hspec. split.
    + apply Hgrow.
      apply (Hleaves1 _ spec
               (collect_user_config_options spec (full_name prefix prop)));
        [|exact Hspec].
      apply in_map_iff.
      exists (prop, (full_name prefix prop, spec,
                     collect_user_config_options spec (full_name prefix prop))).
      split; [reflexivity|]. apply sorted_items_In. unfold named.
      apply in_map_iff. now exists (prop, spec).
    + intros Hnd Hfree.
      enough (Hclear : forall name other nested,
                 In (name, other, nested) patterned ->
                 (is_object other = false -> name <> full_name prefix prop)
                 /\ (is_object other = true ->
                     forall collected,
                       nested = Ok collected ->
                       ~ In (full_name prefix prop) (dict_keys collected))).
      { rewrite (collect_entries_get _ _ Hclear _ _ E3).
        exact (property_survives prefix properties prop spec opts1
                                 Hnd Hin Hspec E1). }
      intros name other nested Hentry. unfold patterned in Hentry.
      apply in_map_iff in Hentry as ([pattern s] & [= <- <- <-] & Hpattern).
      destruct Hfree as [Hnone|Hfree]; [subst; destruct Hpattern|].
      split.
      * intros _ E. apply full_name_inj in E. subst prop. discriminate Hfree.
      * intros _ collected Hrun Hk.
        destruct (collect_names _ _ _ Hrun _ Hk) as [Hempty|Hstart].
        -- apply full_name_empty in Hempty as [_ Hempty]. discriminate Hempty.
        -- apply full_name_continues in Hstart.
           rewrite (startswith_prefix _ _ _ Hstart) in Hfree.
           discriminate Hfree.
  - intros pattern spec Hin Hspec.
    assert (Hone : patterned
                   = [(full_name prefix "KEY", spec,
                       collect_user_config_options
                         spec (full_name prefix "KEY"))]).
    { unfold patterned in *. unfold sorted_specs in E2.
      destruct patternProperties as [|[p1 s1] [|p2 ps]]; cbn [map] in *;
        [destruct Hin | | discriminate E2].
      destruct Hin as [[= -> ->]|[]]. reflexivity. }
    rewrite Hone in E3. cbn [foldM collect_entry] in E3.
    rewrite Hspec in E3. cbn [bind] in E3. injection E3 as <-.
    apply dict_get_set_same.
Qed.

Lemma flattening_keeps_the_leaves_witness :
  (In (full_name "pg" "timeout")
      (dict_keys [("pg.timeout", Node (TypeName "integer") [] [] None);
                  ("pg.KEY", Node (TypeName "string") [] [] None)])
   /\ dict_get [("pg.timeout", Node (TypeName "integer") [] [] None);
                ("pg.KEY", Node (TypeName "string") [] [] None)]
               (full_name "pg" "timeout")
      = Some (Node (TypeName "integer") [] [] None))
  /\ dict_get [("pg.timeout", Node (TypeName "integer") [] [] None);
               ("pg.KEY", Node (TypeName "string") [] [] None)]
              (full_name "pg" "KEY")
     = Some (Node (TypeName "string") [] [] None).
Proof.
  destruct (flattening_keeps_the_leaves
              (Node (TypeName "object")
                    [("timeout", Node (TypeName "integer") [] [] None)]
                    [("^[a-z]+$", Node (TypeName "string") [] [] None)] None)
              "pg"
              [("pg.timeout", Node (TypeName "integer") [] [] None);
               ("pg.KEY", Node (TypeName "string") [] [] None)]
              eq_refl) as [Hprops Hpatterns].
  split.
  - destruct (Hprops "timeout" (Node (TypeName "integer") [] [] None))
      as [Hkey Hvalue]; [now left | reflexivity |].
    split; [exact Hkey|]. apply Hvalue.
    + repeat constructor. simpl. intuition.
    + right. reflexivity.
  - apply (Hpatterns "^[a-z]+$" (Node (TypeName "string") [] [] None));
      [now left | reflexivity].
Defined.

(** A property named [KEY] beside a pattern property: the table holds the
    schema of the pattern property, and the option of the property is
    lost. *)
Example property_named_KEY_is_lost :
  collect_user_config_options
    (Node (TypeName "object")
          [("KEY", Node (TypeName "boolean") [] [] None)]
          [(".*", Node (TypeName "string") [] [] None)] None)
    EmptyString
  = Ok [("KEY", Node (TypeName "string") [] [] None)].
Proof. reflexivity. Qed.

End FlatteningFacts.
